(** * Cases-Test-OpenAI: the rule / control-point / test-case pipeline of [App.py]

    A shallow embedding of the text pipeline of [src/App.py] and the
    properties its specification states about it.

    Python strings are sequences of Unicode code points, so a [str] is a list
    of code points; string constants of the program are written as UTF-8
    literals and decoded by [py].  What Python takes from outside the program
    is kept outside the model too: the Unicode character database is a class
    [Unicode] (with a Latin-1 instance to compute with), the spaCy pipeline is
    a function stored in the session state, and the Azure OpenAI service and
    the random generator are oracles of the [World].  Numbers that the
    program holds as [float64] are the kernel's binary64 floats. *)

From Stdlib Require Import Floats Uint63.
From Stdlib Require Import ZArith NArith List String Ascii Bool Lia Permutation.
From stdpp Require Import base option list sorting gmap strings.

Local Open Scope N_scope.

(* ===================================================================== *)
(** * Python strings *)
(* ===================================================================== *)

(** A code point. *)
Abbreviation char := N (only parsing).

(** A Python [str]: its code points. *)
Abbreviation str := (list N) (only parsing).

Module Py.

(** ** UTF-8 literals *)

Definition bytes_of (s : string) : list N :=
  List.map (fun a => N_of_ascii a) (list_ascii_of_string s).

(** Decoding of well-formed UTF-8 (one to four bytes per code point); a byte
    that starts no sequence is kept as it is. *)
Fixpoint utf8_decode (fuel : nat) (bs : list N) : str :=
  match fuel with
  | O => []
  | S fuel' =>
    match bs with
    | [] => []
    | b0 :: r0 =>
      if b0 <? 128 then b0 :: utf8_decode fuel' r0
      else if (192 <=? b0) && (b0 <? 224) then
        match r0 with
        | b1 :: r1 => ((b0 - 192) * 64 + (b1 - 128)) :: utf8_decode fuel' r1
        | _ => [b0]
        end
      else if (224 <=? b0) && (b0 <? 240) then
        match r0 with
        | b1 :: b2 :: r2 =>
          ((b0 - 224) * 4096 + (b1 - 128) * 64 + (b2 - 128)) :: utf8_decode fuel' r2
        | _ => b0 :: r0
        end
      else if (240 <=? b0) && (b0 <? 248) then
        match r0 with
        | b1 :: b2 :: b3 :: r3 =>
          ((b0 - 240) * 262144 + (b1 - 128) * 4096 + (b2 - 128) * 64 + (b3 - 128))
            :: utf8_decode fuel' r3
        | _ => b0 :: r0
        end
      else b0 :: utf8_decode fuel' r0
    end
  end.

End Py.

(** The Python string written as the UTF-8 literal [s]. *)
Definition py (s : string) : str :=
  let bs := Py.bytes_of s in Py.utf8_decode (List.length bs) bs.

Arguments py : simpl never.

Module PyStr.

(** ** Character classes that Python fixes by a short list *)

(** [str.isspace] of one character, which is also the class [\s] of [re] on
    [str] patterns: the 29 code points CPython lists as whitespace. *)
Definition whitespace : list char :=
  [9; 10; 11; 12; 13; 28; 29; 30; 31; 32; 133; 160; 5760;
   8192; 8193; 8194; 8195; 8196; 8197; 8198; 8199; 8200; 8201; 8202;
   8232; 8233; 8239; 8287; 12288].

Definition is_space (c : char) : bool := existsb (N.eqb c) whitespace.

Definition SPACE : char := 32.
Definition PERIOD : char := 46.
Definition NEWLINE : char := 10.

(** ** Methods of [str] *)

Fixpoint lstrip (s : str) : str :=
  match s with
  | c :: s' => if is_space c then lstrip s' else s
  | [] => []
  end.

Definition rstrip (s : str) : str := rev (lstrip (rev s)).

(** [s.strip()] *)
Definition strip (s : str) : str := rstrip (lstrip s).

(** [s.endswith(suffix)] *)
Definition endswith (s suffix : str) : bool :=
  bool_decide (drop (length s - length suffix) s = suffix).

(** [s.startswith(prefix)] *)
Definition startswith (s prefix : str) : bool :=
  bool_decide (take (length prefix) s = prefix).

(** [needle in s] *)
Fixpoint contains (s needle : str) : bool :=
  startswith s needle ||
  match s with
  | [] => false
  | _ :: s' => contains s' needle
  end.

(** [s.split()]: the maximal runs of characters that are not whitespace.
    [cur] is the word being read, reversed. *)
Fixpoint split_go (cur : str) (s : str) : list str :=
  match s with
  | [] => match cur with [] => [] | _ => [rev cur] end
  | c :: s' =>
    if is_space c
    then match cur with [] => split_go [] s' | _ => rev cur :: split_go [] s' end
    else split_go (c :: cur) s'
  end.

Definition split (s : str) : list str := split_go [] s.

(** [s.split('\n')]: the pieces between newlines, empty ones included. *)
Fixpoint split_on_go (sep : char) (cur : str) (s : str) : list str :=
  match s with
  | [] => [rev cur]
  | c :: s' =>
    if N.eqb c sep then rev cur :: split_on_go sep [] s'
    else split_on_go sep (c :: cur) s'
  end.

Definition split_on (sep : char) (s : str) : list str := split_on_go sep [] s.

End PyStr.

(* ===================================================================== *)
(** * The Unicode character database *)
(* ===================================================================== *)

(** What [str] methods and [re] read from Python's Unicode tables. The
    program's behaviour is stated for every such table. *)
Class Unicode := {
  (** the class [\w]: alphanumeric or underscore *)
  uc_word : char -> bool;
  (** the class [\d]: decimal digit *)
  uc_digit : char -> bool;
  (** under [re.IGNORECASE], does the text character [c] match the pattern
      character [l] *)
  uc_caseless : forall (c l : char), bool;
  (** the lower-case mapping of the character at index [i] of [s] (it reads
      its context: a final sigma) *)
  uc_lower_at : forall (s : str) (i : nat), str;
  (** the title-case mapping of one character *)
  uc_title : char -> str
}.

Module Latin1.

(** The tables of CPython 3.11 on the code points below 256, which cover the
    French text the program is written for. Above 255 only the characters
    that fold to a Latin-1 letter are known to it. *)

Definition in_range (lo hi c : char) : bool := (lo <=? c) && (c <=? hi).

Definition word (c : char) : bool :=
  in_range 48 57 c || in_range 65 90 c || N.eqb c 95 || in_range 97 122 c
  || existsb (N.eqb c) [170; 178; 179; 181; 185; 186; 188; 189; 190]
  || in_range 192 214 c || in_range 216 246 c || in_range 248 255 c.

Definition digit (c : char) : bool := in_range 48 57 c.

Definition lower1 (c : char) : char :=
  if in_range 65 90 c || (in_range 192 222 c && negb (N.eqb c 215)) then c + 32 else c.

(** Characters above 255 that match a Latin-1 letter when case is ignored:
    dotted and dotless i, Kelvin sign, long s, Greek mu, Angstrom sign,
    capital sharp s, capital y with diaeresis. *)
Definition folds_to : list (char * char) :=
  [(304, 105); (305, 105); (8490, 107); (383, 115); (924, 181); (956, 181);
   (8491, 229); (7838, 223); (376, 255)].

Definition fold (c : char) : char :=
  match List.find (fun p => N.eqb (fst p) c) folds_to with
  | Some p => snd p
  | None => lower1 c
  end.

Definition caseless (c l : char) : bool := N.eqb (fold c) (fold l).

Definition lower_at (s : str) (i : nat) : str :=
  match nth_error s i with
  | Some c => [lower1 c]
  | None => []
  end.

Definition title (c : char) : str :=
  if in_range 97 122 c || (in_range 224 254 c && negb (N.eqb c 247)) then [c - 32]
  else if N.eqb c 181 then [924]
  else if N.eqb c 223 then [83; 115]
  else if N.eqb c 255 then [376]
  else [c].

End Latin1.

Definition latin1 : Unicode :=
  {| uc_word := Latin1.word;
     uc_digit := Latin1.digit;
     uc_caseless := Latin1.caseless;
     uc_lower_at := Latin1.lower_at;
     uc_title := Latin1.title |}.

(** [s.lower()] *)
Definition lower {U : Unicode} (s : str) : str :=
  flat_map (uc_lower_at s) (seq 0 (length s)).

(** [s.capitalize()]: the first character in title case, the others in
    lower case. *)
Definition capitalize {U : Unicode} (s : str) : str :=
  match s with
  | [] => []
  | c :: _ => uc_title c ++ flat_map (uc_lower_at s) (seq 1 (length s - 1))
  end.

(* ===================================================================== *)
(** * Regular expressions: the part of [re] the program uses *)
(* ===================================================================== *)

Module Re.

(** The constructs that occur in the patterns of [App.py]. *)
Inductive regex : Type :=
| Lit (l : char)                       (* a literal character *)
| Any                                  (* [.]: anything but a newline *)
| In (ls : list char)                  (* [[...]] of literal characters *)
| Space                                (* [\s] *)
| Digit                                (* [\d] *)
| Word                                 (* [\w] *)
| Boundary                             (* [\b] *)
| Empty                                (* the empty pattern *)
| Cat (r1 r2 : regex)                  (* [r1r2] *)
| Alt (r1 r2 : regex)                  (* [r1|r2] *)
| Star (greedy : bool) (r : regex)     (* [r*] and [r*?] *)
| Group (i : nat) (r : regex).         (* the i-th capturing group *)

(** [r+] and [r+?] *)
Definition Plus (greedy : bool) (r : regex) : regex := Cat r (Star greedy r).

(** a literal string *)
Definition lits (s : str) : regex := foldr (fun c r => Cat (Lit c) r) Empty s.

(** [r1|r2|...] *)
Fixpoint alts (rs : list regex) : regex :=
  match rs with
  | [] => Empty
  | [r] => r
  | r :: rs' => Alt r (alts rs')
  end.

(** [r1r2...] *)
Definition cats (rs : list regex) : regex := foldr Cat Empty rs.

(** A position in the subject: the text before it (reversed), the text from
    it on, and the groups closed so far with their spans. *)
Record state : Type := State {
  before : str;
  rest : str;
  groups : list (nat * (nat * nat))
}.

Definition pos (st : state) : nat := length (before st).

Definition advance (c : char) (rest' : str) (st : state) : state :=
  State (c :: before st) rest' (groups st).

Section Matcher.
Context {U : Unicode}.
Variable ignorecase : bool.

Definition lit_matches (l c : char) : bool :=
  if ignorecase then uc_caseless c l else N.eqb c l.

Definition is_word_at (o : option char) : bool :=
  match o with Some c => uc_word c | None => false end.

Definition at_boundary (st : state) : bool :=
  xorb (is_word_at (head (before st))) (is_word_at (head (rest st))).

(** one character of the class [p] *)
Definition one (p : char -> bool) (st : state) (k : state -> option state) : option state :=
  match rest st with
  | c :: rest' => if p c then k (advance c rest' st) else None
  | [] => None
  end.

(** The rounds of a star over [body], [n] at most, before the rest of the
    pattern [k]: a greedy star tries one more round before it leaves, a lazy
    star leaves before it tries one more round. A round must consume a
    character. *)
Fixpoint rounds (greedy : bool)
    (body : state -> (state -> option state) -> option state)
    (k : state -> option state) (n : nat) (st : state) {struct n} : option state :=
  match n with
  | O => k st
  | S n' =>
    let again :=
      body st (fun st1 =>
        if Nat.ltb (pos st) (pos st1) then rounds greedy body k n' st1 else None) in
    if greedy
    then match again with Some res => Some res | None => k st end
    else match k st with Some res => Some res | None => again end
  end.

(** Backtracking matching, first success wins: [k] is the rest of the
    pattern. [Alt] tries its left branch first; a star makes at most one
    round per remaining character. *)
Fixpoint run (r : regex) (st : state) (k : state -> option state) {struct r} : option state :=
  match r with
  | Lit l => one (lit_matches l) st k
  | Any => one (fun c => negb (N.eqb c PyStr.NEWLINE)) st k
  | In ls => one (fun c => existsb (fun l => lit_matches l c) ls) st k
  | Space => one PyStr.is_space st k
  | Digit => one uc_digit st k
  | Word => one uc_word st k
  | Boundary => if at_boundary st then k st else None
  | Empty => k st
  | Cat r1 r2 => run r1 st (fun st1 => run r2 st1 k)
  | Alt r1 r2 =>
    match run r1 st k with
    | Some res => Some res
    | None => run r2 st k
    end
  | Star greedy r1 => rounds greedy (run r1) k (length (rest st)) st
  | Group i r1 =>
    run r1 st (fun st1 =>
      k (State (before st1) (rest st1) ((i, (pos st, pos st1)) :: groups st1)))
  end.

(** [pattern.match] at one position. *)
Definition match_at (r : regex) (st : state) : option state := run r st Some.

End Matcher.

(** A match object: the subject, the span of the whole match and the spans
    of the groups. *)
Record Match : Type := MkMatch {
  subject : str;
  span : nat * nat;
  spans : list (nat * (nat * nat))
}.

Definition slice (s : str) (sp : nat * nat) : str :=
  take (snd sp - fst sp) (drop (fst sp) s).

(** [m.group()] *)
Definition group0 (m : Match) : str := slice (subject m) (span m).

(** [m.group(i)] for a group that took part in the match. *)
Definition group (m : Match) (i : nat) : option str :=
  match List.find (fun g => Nat.eqb (fst g) i) (spans m) with
  | Some g => Some (slice (subject m) (snd g))
  | None => None
  end.

Section Search.
Context {U : Unicode}.
Variable ignorecase : bool.
Variable r : regex.
Variable text : str.

Definition found (st st' : state) : Match :=
  MkMatch text (pos st, pos st') (groups st').

(** one step to the right *)
Definition shift (st : state) : option state :=
  match rest st with
  | c :: rest' => Some (State (c :: before st) rest' [])
  | [] => None
  end.

(** [re.search]: the match at the leftmost position that has one. *)
Fixpoint search_from (fuel : nat) (st : state) : option Match :=
  match match_at ignorecase r st with
  | Some st' => Some (found st st')
  | None =>
    match fuel, shift st with
    | S fuel', Some st1 => search_from fuel' st1
    | _, _ => None
    end
  end.

(** [re.finditer]: the matches from left to right, none overlapping; the
    search goes on where the last match ended (one character further after
    an empty match). *)
Fixpoint finditer_from (fuel : nat) (st : state) : list Match :=
  match fuel with
  | O => []
  | S fuel' =>
    match match_at ignorecase r st with
    | Some st' =>
      found st st' ::
        (if Nat.ltb (pos st) (pos st')
         then finditer_from fuel' (State (before st') (rest st') [])
         else match shift st with
              | Some st1 => finditer_from fuel' st1
              | None => []
              end)
    | None =>
      match shift st with
      | Some st1 => finditer_from fuel' st1
      | None => []
      end
    end
  end.

End Search.

Definition search {U : Unicode} (ignorecase : bool) (r : regex) (text : str) : option Match :=
  search_from ignorecase r text (length text) (State [] text []).

Definition finditer {U : Unicode} (ignorecase : bool) (r : regex) (text : str) : list Match :=
  finditer_from ignorecase r text (S (length text)) (State [] text []).

(** [re.findall] for a pattern without groups *)
Definition findall {U : Unicode} (ignorecase : bool) (r : regex) (text : str) : list str :=
  List.map group0 (finditer ignorecase r text).

End Re.

Module ReSub.

(** [re.sub(pattern, repl, text)]: every match, from left to right and none
    overlapping, is replaced by [repl]; the text between matches is kept. *)
Section Sub.
Context {U : Unicode}.
Variable ignorecase : bool.
Variable r : Re.regex.
Variable repl : str.

Fixpoint sub_from (fuel : nat) (st : Re.state) : str :=
  match fuel with
  | O => []
  | S fuel' =>
    let keep_one :=
      match Re.rest st with
      | c :: rest' => c :: sub_from fuel' (Re.State (c :: Re.before st) rest' [])
      | [] => []
      end in
    match Re.match_at ignorecase r st with
    | Some st' =>
      if Nat.ltb (Re.pos st) (Re.pos st')
      then repl ++ sub_from fuel' (Re.State (Re.before st') (Re.rest st') [])
      else repl ++ keep_one
    | None => keep_one
    end
  end.

Definition sub (text : str) : str :=
  sub_from (S (length text)) (Re.State [] text []).

End Sub.
End ReSub.

(* ===================================================================== *)
(** * The extractors *)
(* ===================================================================== *)

(** One of the given words, as in [(w1|w2|...)]. *)
Definition any_of (ws : list string) : Re.regex :=
  Re.alts (List.map (fun w => Re.lits (py w)) ws).

(** [.*?] *)
Definition lazy_any : Re.regex := Re.Star false Re.Any.

(** [\.] *)
Definition period : Re.regex := Re.Lit PyStr.PERIOD.

(** [[a-zA-Z]] *)
Definition ascii_letters : list char :=
  List.map N.of_nat (seq 97 26 ++ seq 65 26).

(** [\s+] *)
Definition whitespace_run : Re.regex := Re.Plus true Re.Space.

(** [clean_rule] (App.py, 161-166):
    [rule_text = re.sub(r"\s+", " ", rule_text).strip()], then a period is
    appended unless the text ends with one. *)
Definition clean_rule {U : Unicode} (rule_text : str) : str :=
  let rule_text := PyStr.strip (ReSub.sub false whitespace_run (py " ") rule_text) in
  if PyStr.endswith rule_text (py ".") then rule_text else rule_text ++ py ".".

(** The four patterns of [extract_business_rules] (App.py, 113-118). *)
Definition rule_patterns : list Re.regex :=
  [ Re.cats
      [ Re.Group 1 (any_of ["Si"; "Lorsqu'"; "Quand"; "Dès que"; "En cas de"]);
        lazy_any;
        Re.Group 2 (any_of ["alors"; "doit"; "devra"; "est tenu de"; "nécessite";
                            "implique"; "entraîne"; "peut"]);
        lazy_any; period ];
    Re.cats
      [ Re.Group 1 (Re.alts
          [ Re.lits (py "Tout utilisateur");
            Re.Cat (Re.lits (py "L'")) (Re.Plus true (Re.In ascii_letters));
            Re.lits (py "Un client"); Re.lits (py "Le système");
            Re.lits (py "Une demande") ]);
        lazy_any;
        Re.Group 2 (any_of ["doit"; "est tenu de"; "devra"; "ne peut pas";
                            "ne doit pas"; "est interdit de"]);
        lazy_any; period ];
    Re.cats
      [ Re.Group 1 (any_of ["Le non-respect"; "Toute infraction"; "Une violation"]);
        lazy_any;
        Re.Group 2 (any_of ["entraîne"; "provoque"; "peut entraîner"; "résulte en";
                            "sera soumis à"]);
        lazy_any; period ];
    Re.cats
      [ Re.Group 1 (any_of ["L'utilisateur"; "Le client"; "Le prestataire"; "L'agent";
                            "Le système"]);
        lazy_any;
        Re.Group 2 (any_of ["est autorisé à"; "peut"; "a le droit de"]);
        lazy_any; period ] ].

(** The keywords of the sentence filter (App.py, 132-133). *)
Definition rule_keywords : list str :=
  List.map py ["si "; "alors"; "doit"; "est tenu de"; "ne peut pas"; "entraîne";
               "provoque"; "peut entraîner"; "doit être"; "est obligatoire";
               "a le droit de"; "est autorisé à"].

(** ** The linguistic model (spaCy), a black box from text to annotated text *)

Record Token : Type := MkToken {
  tok_text : str;      (* token.text *)
  tok_pos : str;       (* token.pos_ *)
  tok_is_stop : bool;  (* token.is_stop *)
  tok_is_punct : bool; (* token.is_punct *)
  tok_lemma : str      (* token.lemma_ *)
}.

Record Doc : Type := MkDoc {
  doc_tokens : list Token;   (* iterating the document *)
  doc_sents : list str       (* [sent.text for sent in doc.sents] *)
}.

(** A loaded pipeline: [nlp(text)]. *)
Definition Language : Type := str -> Doc.

(** [sorted(xs, key=lambda x: len(x), reverse=True)] *)
Definition longer_first (x y : str) : Prop := (length y <= length x)%nat.

Global Instance longer_first_dec x y : Decision (longer_first x y).
Proof. unfold longer_first. apply _. Defined.

Global Instance longer_first_total : Total longer_first.
Proof. intros x y. unfold longer_first. lia. Qed.

Global Instance longer_first_trans : Transitive longer_first.
Proof. intros x y z. unfold longer_first. lia. Qed.

Definition sorted_by_len_desc (xs : list str) : list str :=
  merge_sort longer_first xs.

(** [set.add] over the matches of one pattern *)
Definition add_all (f : str -> gset str -> gset str) (xs : list str) (acc : gset str)
  : gset str :=
  fold_left (fun acc x => f x acc) xs acc.

(** [extract_business_rules(text, nlp_model, use_ai=False)] (App.py, 111-137). *)
Definition extract_business_rules_heuristic {U : Unicode}
    (text : str) (nlp_model : option Language) : list str :=
  let rules : gset str :=
    fold_left
      (fun rules pattern =>
         add_all (fun m rules => {[ clean_rule m ]} ∪ rules)
                 (Re.findall true pattern text) rules)
      rule_patterns ∅ in
  let rules :=
    match nlp_model with
    | Some nlp =>
      add_all
        (fun sent rules =>
           if existsb (fun keyword => PyStr.contains (lower sent) keyword) rule_keywords
           then if Nat.ltb 5 (length (PyStr.split sent))
                then {[ clean_rule sent ]} ∪ rules
                else rules
           else rules)
        (doc_sents (nlp text)) rules
    | None => rules
    end in
  sorted_by_len_desc (elements rules).

(** The two patterns of [extract_pdc_from_text] (App.py, 257-260). *)
Definition pdc_triggers : Re.regex :=
  Re.alts
    [ Re.lits (py "Vérifier");
      Re.Cat (Re.Lit 83) (Re.Cat (Re.In [39; 39]) (Re.lits (py "assurer")));
      Re.lits (py "Contrôler"); Re.lits (py "Vérification");
      Re.lits (py "Point de contrôle") ].

Definition pdc_patterns : list Re.regex :=
  [ Re.cats [ Re.Group 1 pdc_triggers; Re.Boundary; lazy_any;
              Re.In [PyStr.PERIOD; 59] ];
    Re.cats [ Re.Group 1 (any_of ["Le système doit"; "Il faut"; "Il est nécessaire de"]);
              lazy_any;
              Re.Group 2 (any_of ["vérifier"; "contrôler"; "s'assurer"]) ] ].

(** The body of the inner loop (App.py, 265-269). *)
Definition keep_pdc (matched : str) (pdc_list : gset str) : gset str :=
  let pdc := PyStr.strip matched in
  if Nat.ltb 3 (length (PyStr.split pdc))
  then {[ if PyStr.endswith pdc (py ".") then pdc else pdc ++ py "." ]} ∪ pdc_list
  else pdc_list.

(** [extract_pdc_from_text(text)] (App.py, 255-270). *)
Definition extract_pdc_from_text {U : Unicode} (text : str) : list str :=
  let pdc_list : gset str :=
    fold_left
      (fun pdc_list pattern => add_all keep_pdc (Re.findall true pattern text) pdc_list)
      pdc_patterns ∅ in
  sorted_by_len_desc (elements pdc_list).

(* ===================================================================== *)
(** * The session, the service and the random generator *)
(* ===================================================================== *)

(** A test case: the dictionary [create_test_case] returns, with its six
    keys "ID", "Type", "PDC", "Description", "Étapes", "Résultat attendu". *)
Record TestCase : Type := MkTestCase {
  tc_ID : str;
  tc_Type : str;
  tc_PDC : str;
  tc_Description : str;
  tc_Etapes : str;
  tc_Resultat_attendu : str
}.

(** What [st.session_state] holds under a key. *)
Inductive Value : Type :=
| VStr (s : str)                  (* text, text_clean *)
| VList (l : list str)            (* rules, pdc_list *)
| VFreq (f : list (str * nat))    (* freq *)
| VCases (l : list TestCase)      (* test_cases *)
| VWidget (v : str)               (* the value of a widget that was given a key *)
| VModel (nlp : Language).        (* a loaded spaCy pipeline *)

(** What the program does that is seen from outside a function. *)
Inductive Event : Type :=
| StError (msg : str)             (* st.error(msg) *)
| AzureSetup                      (* the body of setup_azure_openai ran *)
| AzureCompletion (prompt : str)  (* client.chat.completions.create(...) *)
| NlpCall (text : str).           (* the pipeline was run on a text *)

Inductive exn : Type :=
| TypeError (msg : str)
| ValueError (msg : str).

Inductive Result (A : Type) : Type :=
| Return (a : A)
| Raise (e : exn).
Arguments Return {A} a.
Arguments Raise {A} e.

(** The collaborators outside the program. Each answer depends on how many
    calls came before it, so that two calls need not agree. *)
Class Services := {
  (** the [n]-th run of the body of [setup_azure_openai]: a client, or the
      text of the exception raised on the way (no secrets, no network, a
      refused test request) *)
  azure_connect : forall (n : nat), str + unit;
  (** the [n]-th completion request: the content of the first choice, or the
      text of the exception (a content of [None] raises on [.strip()]) *)
  azure_complete : forall (n : nat) (prompt : str), str + str;
  (** the [n]-th draw of the random generator *)
  random_draw : forall (n : nat), nat
}.

Record World : Type := MkWorld {
  session_state : gmap string Value;
  events : list Event;          (* oldest first *)
  (* how often [setup_azure_openai] and [generate_with_azure_openai] ran so
     far: the index at which the service is asked next. A run of the setup
     counts whether or not its test request went out. *)
  azure_calls : nat;
  random_draws : nat
}.

(** Computations that read and change the world and may raise. *)
Definition M (A : Type) : Type := World -> Result A * World.

Definition ret {A} (a : A) : M A := fun w => (Return a, w).

Definition bind {A B} (c : M A) (k : A -> M B) : M B :=
  fun w =>
    match c w with
    | (Return a, w') => k a w'
    | (Raise e, w') => (Raise e, w')
    end.

Definition raise {A} (e : exn) : M A := fun w => (Raise e, w).

Notation "x <- c ;; k" := (bind c (fun x => k))
  (at level 100, c at next level, right associativity).
Notation "c ;;; k" := (bind c (fun _ => k))
  (at level 100, right associativity).

Definition emit (e : Event) : M unit :=
  fun w => (Return tt,
            MkWorld (session_state w) (events w ++ [e]) (azure_calls w) (random_draws w)).

(** [st.error(msg)] *)
Definition st_error (msg : str) : M unit := emit (StError msg).

(** [st.session_state.get(key)] *)
Definition session_get (key : string) : M (option Value) :=
  fun w => (Return (session_state w !! key), w).

(** [st.session_state.key = v] *)
Definition session_set (key : string) (v : Value) : M unit :=
  fun w => (Return tt,
            MkWorld (<[key := v]> (session_state w)) (events w)
                    (azure_calls w) (random_draws w)).

Definition next_azure_call : M nat :=
  fun w => (Return (azure_calls w),
            MkWorld (session_state w) (events w) (S (azure_calls w)) (random_draws w)).

Definition next_random_draw : M nat :=
  fun w => (Return (random_draws w),
            MkWorld (session_state w) (events w) (azure_calls w) (S (random_draws w))).

(** Lines of a triple-quoted string. *)
Definition join_lines (ls : list str) : str :=
  match ls with
  | [] => []
  | l :: ls' => l ++ flat_map (fun l' => PyStr.NEWLINE :: l') ls'
  end.

Section Program.
Context {U : Unicode} {Sv : Services}.

(** [random.choice(seq)] on a sequence that is not empty. *)
Definition random_choice (xs : list str) (default : str) : M str :=
  n <- next_random_draw ;;
  ret (nth (random_draw n mod length xs) xs default).

(** [setup_azure_openai()] (App.py, 49-91): the client, or [None] after the
    error was shown. *)
Definition setup_azure_openai : M (option unit) :=
  n <- next_azure_call ;;
  emit AzureSetup ;;;
  match azure_connect n with
  | inr client => ret (Some client)
  | inl e =>
    st_error (join_lines
      [ py "";
        py "        ❌ ERREUR CRITIQUE Azure OpenAI :";
        py "        " ++ e;
        py "        ";
        py "        🔍 Vérifiez que :";
        py "        1. Le fichier .streamlit/secrets.toml existe";
        py "        2. Les clés sont correctes";
        py "        3. Le endpoint est accessible";
        py "        4. La version de l'API est valide";
        py "        " ]) ;;;
    ret None
  end.

(** [generate_with_azure_openai(prompt, client)] (App.py, 93-105): the
    stripped content, or [None] after the error was shown. *)
Definition generate_with_azure_openai (prompt : str) (client : unit) : M (option str) :=
  n <- next_azure_call ;;
  emit (AzureCompletion prompt) ;;;
  match azure_complete n prompt with
  | inr content => ret (Some (PyStr.strip content))
  | inl e => st_error (py "Erreur avec Azure OpenAI: " ++ e) ;;; ret None
  end.

(** The truth value of an optional string: [None] and [""] are false. *)
Definition truthy (result : option str) : option str :=
  match result with
  | Some [] => None
  | _ => result
  end.

(** The prompt of [extract_business_rules] (App.py, 144-154). *)
Definition rules_prompt (text : str) : str :=
  join_lines
    [ py "";
      py "        Extrait les règles de gestion métier à partir du texte suivant en suivant ces consignes:";
      py "        1. Identifie toutes les règles fonctionnelles";
      py "        2. Formule-les de manière claire et concise";
      py "        3. Chaque règle doit être autonome et complète";
      py "        4. Conserve la formulation originale autant que possible";
      py "        5. Retourne uniquement les règles, une par ligne";
      py "        ";
      py "        Texte:";
      py "        " ++ take (N.to_nat 10000) text ++ py "  # Limite pour éviter les tokens excessifs";
      py "        " ].

(** [extract_business_rules(text, nlp_model, use_ai)] (App.py, 107-159). *)
Definition extract_business_rules (text : str) (nlp_model : option Language)
    (use_ai : bool) : M (list str) :=
  if negb use_ai then ret (extract_business_rules_heuristic text nlp_model)
  else
    client <- setup_azure_openai ;;
    match client with
    | None => ret []
    | Some client =>
      result <- generate_with_azure_openai (rules_prompt text) client ;;
      match truthy result with
      | Some result =>
        ret (List.map clean_rule
               (List.filter (fun rule => negb (bool_decide (PyStr.strip rule = [])))
                            (PyStr.split_on PyStr.NEWLINE result)))
      | None => ret []
      end
    end.

(** The fallback phrasing of a control point. *)
Definition verifier_que (rule : str) : str := py "Vérifier que " ++ rule.

(** [st.session_state.nlp(rule)] for the value stored under 'nlp'. *)
Definition call_nlp (v : Value) (text : str) : M Doc :=
  match v with
  | VModel nlp => emit (NlpCall text) ;;; ret (nlp text)
  | _ => raise (TypeError (py "object is not callable"))
  end.

(** [[token.text for token in doc if token.pos_ == "VERB"]] *)
Definition verbs_of (doc : Doc) : list str :=
  List.map tok_text
    (List.filter (fun token => bool_decide (tok_pos token = py "VERB")) (doc_tokens doc)).

(** The prompt of [generate_pdc_from_rule] (App.py, 288-298). *)
Definition pdc_prompt (rule : str) : str :=
  join_lines
    [ py "";
      py "        Transforme cette règle de gestion en Point de Contrôle (PDC) testable:";
      py "        - Commence par un verbe d'action (Vérifier, Contrôler, S'assurer...)";
      py "        - Doit être concret et mesurable";
      py "        - Doit couvrir l'intégralité de la règle";
      py "        - Formulation claire et concise";
      py "        ";
      py "        Règle: " ++ rule;
      py "        ";
      py "        Retourne uniquement le PDC sans commentaire.";
      py "        " ].

(** [generate_pdc_from_rule(rule, use_ai)] (App.py, 272-301). *)
Definition generate_pdc_from_rule (rule : str) (use_ai : bool) : M str :=
  nlp <- session_get "nlp" ;;
  if negb use_ai || negb (bool_decide (is_Some nlp)) then
    match nlp with
    | None =>
      st_error (py "Modèle NLP non chargé") ;;;
      ret (verifier_que rule)
    | Some model =>
      doc <- call_nlp model rule ;;
      let verbs := verbs_of doc in
      let action := match verbs with v :: _ => v | [] => py "vérifier" end in
      ret (capitalize action ++ py " que " ++ rule)
    end
  else
    client <- setup_azure_openai ;;
    match client with
    | None => ret (verifier_que rule)
    | Some client =>
      result <- generate_with_azure_openai (pdc_prompt rule) client ;;
      ret (match truthy result with
           | Some result => result
           | None => verifier_que rule
           end)
    end.

(** ** Test cases *)

(** The decimal digits of [n], most significant first ([fuel] bounds their
    number). *)
Fixpoint digits_go (fuel n : nat) (acc : str) : str :=
  match fuel with
  | O => acc
  | S fuel' =>
    let acc' := N.of_nat (48 + n mod 10) :: acc in
    if Nat.ltb n 10 then acc' else digits_go fuel' (n / 10) acc'
  end.

(** [str(n)] for [n >= 0] *)
Definition decimal (n : nat) : str := digits_go (S n) n [].

(** [f"{index:03d}"]: the decimal digits, with zeros on the left up to three
    characters. *)
Definition format_03d (index : nat) : str :=
  let ds := decimal index in
  repeat 48 (3 - length ds) ++ ds.

(** [f"CT-{index:03d}"] *)
Definition ct_id (index : nat) : str := py "CT-" ++ format_03d index.

(** ["Manuel" if is_manual else "Auto-généré"] *)
Definition type_of (is_manual : bool) : str :=
  if is_manual then py "Manuel" else py "Auto-généré".

(** The three steps and the expected result every template shares. *)
Definition default_steps (pdc : str) : str :=
  py "1. Préparer l'environnement" ++ [PyStr.NEWLINE] ++ py "2. Exécuter: " ++ pdc
    ++ [PyStr.NEWLINE] ++ py "3. Vérifier le résultat".

Definition default_expected (pdc : str) : str := pdc ++ py " est correctement implémenté".

(** The three descriptions of the heuristic mode (App.py, 313-317). *)
Definition templates (pdc : str) : list str :=
  [ py "Le système doit satisfaire : " ++ pdc;
    py "Confirmer que " ++ pdc;
    py "Tester la conformité de : " ++ pdc ].

(** The record of the branches that give up on the service (App.py, 329-336
    and 372-379): the control point is its own description. *)
Definition fallback_case (pdc : str) (index : nat) (is_manual : bool) : TestCase :=
  {| tc_ID := ct_id index;
     tc_Type := type_of is_manual;
     tc_PDC := pdc;
     tc_Description := pdc;
     tc_Etapes := default_steps pdc;
     tc_Resultat_attendu := default_expected pdc |}.

(** [Description:\s*(.+?)\n] *)
Definition desc_pattern : Re.regex :=
  Re.cats [ Re.lits (py "Description:"); Re.Star true Re.Space;
            Re.Group 1 (Re.Plus false Re.Any); Re.Lit PyStr.NEWLINE ].

(** [Étapes:\s*((?:\d\..+?\n)+)] *)
Definition steps_pattern : Re.regex :=
  Re.cats [ Re.lits (py "Étapes:"); Re.Star true Re.Space;
            Re.Group 1 (Re.Plus true
              (Re.cats [ Re.Digit; period; Re.Plus false Re.Any; Re.Lit PyStr.NEWLINE ])) ].

(** [Résultat attendu:\s*(.+)] *)
Definition expected_pattern : Re.regex :=
  Re.cats [ Re.lits (py "Résultat attendu:"); Re.Star true Re.Space;
            Re.Group 1 (Re.Plus true Re.Any) ].

(** [m.group(1).strip() if m else default] *)
Definition field (m : option Re.Match) (default : str) : str :=
  match m with
  | Some m => match Re.group m 1 with Some g => PyStr.strip g | None => default end
  | None => default
  end.

(** The record read off the answer of the service (App.py, 356-367). *)
Definition parsed_case (result pdc : str) (index : nat) (is_manual : bool) : TestCase :=
  let desc := Re.search true desc_pattern result in
  let steps := Re.search true steps_pattern result in
  let expected := Re.search true expected_pattern result in
  {| tc_ID := ct_id index;
     tc_Type := type_of is_manual;
     tc_PDC := pdc;
     tc_Description := field desc pdc;
     tc_Etapes := field steps (default_steps pdc);
     tc_Resultat_attendu := field expected (default_expected pdc) |}.

(** The prompt of [create_test_case] (App.py, 338-350). *)
Definition test_case_prompt (pdc : str) : str :=
  join_lines
    [ py "";
      py "        Crée un cas de test complet et détaillé à partir de ce PDC:";
      py "        " ++ pdc;
      py "        ";
      py "        Format de sortie:";
      py "        - ID: CT-XXX";
      py "        - Type: Manuel/Auto-généré";
      py "        - Description: description claire de l'objectif du test";
      py "        - Étapes: liste numérotée des actions à réaliser";
      py "        - Résultat attendu: résultat observable et vérifiable";
      py "        ";
      py "        Le cas de test doit être réaliste, précis et couvrir tous les aspects du PDC.";
      py "        " ].

(** [create_test_case(pdc, index, is_manual, use_ai)] (App.py, 310-379).
    Searching a string and stripping a group raise nothing, so the [except]
    of lines 368-369 has no run of its own: what follows it is the record
    for an answer that is missing or empty. *)
Definition create_test_case (pdc : str) (index : nat) (is_manual use_ai : bool)
  : M TestCase :=
  if negb use_ai then
    description <- (if negb is_manual then random_choice (templates pdc) pdc else ret pdc) ;;
    ret {| tc_ID := ct_id index;
           tc_Type := type_of is_manual;
           tc_PDC := pdc;
           tc_Description := description;
           tc_Etapes := default_steps pdc;
           tc_Resultat_attendu := default_expected pdc |}
  else
    client <- setup_azure_openai ;;
    match client with
    | None => ret (fallback_case pdc index is_manual)
    | Some client =>
      result <- generate_with_azure_openai (test_case_prompt pdc) client ;;
      match truthy result with
      | Some result => ret (parsed_case result pdc index is_manual)
      | None => ret (fallback_case pdc index is_manual)
      end
    end.

(** The loop of the fifth tab (App.py, 610-614), over
    [enumerate(st.session_state.pdc_list, 1)]: [n] is [len(pdc_list)], [i]
    the index of the first control point left, [test_cases] the list so far. *)
Fixpoint test_case_loop (has_pdc : str) (use_ai_tests : bool) (n : nat)
    (i : nat) (pdcs : list str) (test_cases : list TestCase) : M (list TestCase) :=
  match pdcs with
  | [] => ret test_cases
  | pdc :: pdcs' =>
    let is_manual := PyStr.startswith has_pdc (py "Oui") && Nat.leb i n in
    tc <- create_test_case pdc i is_manual use_ai_tests ;;
    test_case_loop has_pdc use_ai_tests n (S i) pdcs' (test_cases ++ [tc])
  end.

(** The button "Générer les Cas de Test": the list is rebuilt from the
    control points of the session and stored. *)
Definition generate_test_cases (has_pdc : str) (use_ai_tests : bool)
    (pdc_list : list str) : M (list TestCase) :=
  session_set "test_cases" (VCases []) ;;;
  test_cases <- test_case_loop has_pdc use_ai_tests (length pdc_list) 1 pdc_list [] ;;
  session_set "test_cases" (VCases test_cases) ;;;
  ret test_cases.

End Program.

(** ** Worlds to compute in *)

(** No service: every connection fails. *)
Definition offline : Services :=
  {| azure_connect := fun _ => inl (py "Connection error.");
     azure_complete := fun _ _ => inl (py "Connection error.");
     random_draw := fun n => n |}.

(** A service that answers every request with [answer]. *)
Definition answering (answer : str) : Services :=
  {| azure_connect := fun _ => inr tt;
     azure_complete := fun _ _ => inr answer;
     random_draw := fun n => n |}.

(** A pipeline that finds no verb: it cuts the text at whitespace and tags
    every token "X". *)
Definition tagless : Language :=
  fun text =>
    MkDoc (List.map (fun word => MkToken word (py "X") false false word) (PyStr.split text))
          [text].

(** A pipeline that cuts the text at whitespace too and tags as "VERB" the
    words of a list, "X" the others. *)
Definition tagging (verbs : list str) : Language :=
  fun text =>
    MkDoc (List.map (fun word =>
                       MkToken word (if bool_decide (word ∈ verbs) then py "VERB" else py "X")
                               false false word)
                    (PyStr.split text))
          [text].

(** The start of a session. *)
Definition new_session : World := MkWorld ∅ [] O O.

(** ** What the script stores in the session *)

(** The keys the script assigns: [st.session_state.<key> = ...] at lines 408
    (text), 423 (text_clean), 424 (freq), 483 (rules), 546, 555, 564 and 577
    (pdc_list, also appended to at 574), 610 (test_cases, appended to at
    614), and the keys given to widgets at lines 439-443 and 541. *)
Definition assigned_keys : list string :=
  [ "text"; "text_clean"; "freq"; "rules"; "pdc_list"; "test_cases";
    "wc_width"; "wc_height"; "wc_bg"; "wc_cmap"; "pdc_uploader" ]%string.

(** One assignment of the script, whatever the value. *)
Inductive assigns : gmap string Value -> gmap string Value -> Prop :=
| assigns_key (s : gmap string Value) (key : string) (v : Value) :
    In key assigned_keys -> assigns s (<[key := v]> s).

(** The sessions the script can reach: a session starts empty. *)
Inductive reachable : gmap string Value -> Prop :=
| reachable_fresh : reachable ∅
| reachable_step s s' : reachable s -> assigns s s' -> reachable s'.

(* ===================================================================== *)
(** * The matcher: TF-IDF vectors and cosine similarity *)
(* ===================================================================== *)

(** [TfidfVectorizer()] and [cosine_similarity] of scikit-learn with their
    default parameters, as their documentation gives them. The numbers are
    the program's: [float64], with the IEEE sum, product, quotient and
    square root of the kernel's binary64 floats. The matrices are sparse: a
    row holds the entries of the terms of its document, and the kernels add
    over the stored entries in the order in which they are stored, which is
    the order in which the vectorizer first saw the terms (in versions that
    store them in another order a sum of different numbers can differ in its
    last bit). What IEEE does not fix is a parameter: the logarithm. *)
Class Numpy := {
  (** [np.log] of one [float64] *)
  np_log : float -> float
}.

(** The [float64] of a count. *)
Definition float_of_nat (n : nat) : float :=
  PrimFloat.of_uint63 (Uint63.of_Z (Z.of_nat n)).

Module Sklearn.

(** The default [token_pattern], [(?u)\b\w\w+\b]: words of two or more
    characters. *)
Definition token_pattern : Re.regex :=
  Re.cats [ Re.Boundary; Re.Word; Re.Plus true Re.Word; Re.Boundary ].

(** A row of a sparse matrix: the stored entries, each with the term of its
    column, in the order in which they are stored. *)
Definition Row : Type := list (str * float).

(** The sum of the squares of the stored entries, added one by one to 0.0. *)
Definition sum_sq (row : Row) : float :=
  fold_left (fun sum entry => PrimFloat.add sum (PrimFloat.mul (snd entry) (snd entry)))
            row 0%float.

(** [normalize(X, norm="l2")] on one row: a row whose sum of squares is zero
    is left as it is. *)
Definition normalize (row : Row) : Row :=
  let sum := sum_sq row in
  if PrimFloat.eqb sum 0 then row
  else let norm := PrimFloat.sqrt sum in
       List.map (fun entry => (fst entry, PrimFloat.div (snd entry) norm)) row.

(** The entry a row stores for a term. *)
Definition entry (term : str) (row : Row) : option float :=
  match List.find (fun e => bool_decide (fst e = term)) row with
  | Some e => Some (snd e)
  | None => None
  end.

(** One entry of the product of a matrix with a transposed matrix: the
    products of the entries that both rows store for a term, added one by
    one to 0.0 in the order of the first row. *)
Definition dot (x y : Row) : float :=
  fold_left (fun sum e =>
               match entry (fst e) y with
               | Some b => PrimFloat.add sum (PrimFloat.mul (snd e) b)
               | None => sum
               end)
            x 0%float.

(** [cosine_similarity(X, Y)]: both arguments need one row at least
    ([check_pairwise_arrays]); the rows are normalised and multiplied. *)
Definition cosine_similarity (X Y : list Row) : Result (list (list float)) :=
  match X, Y with
  | [], _ | _, [] =>
    Raise (ValueError (py "Found array with 0 sample(s) while a minimum of 1 is required by check_pairwise_arrays."))
  | _, _ =>
    Return (List.map (fun x => List.map (fun y => dot (normalize x) (normalize y)) Y) X)
  end.

Section Vectorizer.
Context {U : Unicode} {Np : Numpy}.

(** The analyzer: the document in lower case, cut into tokens. *)
Definition analyze (doc : str) : list str :=
  Re.findall false token_pattern (lower doc).

(** The terms of the corpus, each once, in the order in which they are
    first seen. *)
Definition vocabulary (raw_documents : list str) : list str :=
  fold_left (fun seen term => if bool_decide (term ∈ seen) then seen else seen ++ [term])
            (concat (List.map analyze raw_documents)) [].

(** How often [term] occurs in [doc]. *)
Definition term_count (term doc : str) : nat :=
  length (List.filter (fun token => bool_decide (token = term)) (analyze doc)).

(** In how many documents [term] occurs. *)
Definition document_frequency (term : str) (raw_documents : list str) : nat :=
  length (List.filter (fun doc => Nat.ltb 0 (term_count term doc)) raw_documents).

(** [idf_], smoothed: [np.log((1 + n) / (df + 1.0)) + 1.0]. *)
Definition idf (term : str) (raw_documents : list str) : float :=
  PrimFloat.add
    (np_log (PrimFloat.div
               (float_of_nat (1 + length raw_documents))
               (PrimFloat.add (float_of_nat (document_frequency term raw_documents)) 1)))
    1.

(** One row of the matrix before it is normalised: for each term of the
    document, its count times its idf. *)
Definition tfidf_row (raw_documents : list str) (doc : str) : Row :=
  flat_map (fun term =>
              let count := term_count term doc in
              if Nat.ltb 0 count
              then [(term, PrimFloat.mul (float_of_nat count) (idf term raw_documents))]
              else [])
           (vocabulary raw_documents).

(** [TfidfVectorizer().fit_transform(raw_documents)]: a corpus without a
    single token has an empty vocabulary, which is an error. *)
Definition fit_transform (raw_documents : list str) : Result (list Row) :=
  match vocabulary raw_documents with
  | [] => Raise (ValueError (py "empty vocabulary; perhaps the documents only contain stop words"))
  | _ => Return (List.map (fun doc => normalize (tfidf_row raw_documents doc)) raw_documents)
  end.

End Vectorizer.
End Sklearn.

(** [compare_rules_pdc(rules, pdc_list)] (App.py, 303-308). *)
Definition compare_rules_pdc {U : Unicode} {Np : Numpy} (rules pdc_list : list str)
  : Result (list (list float)) :=
  match Sklearn.fit_transform (rules ++ pdc_list) with
  | Raise e => Raise e
  | Return tfidf_matrix =>
    Sklearn.cosine_similarity (take (length rules) tfidf_matrix)
                              (drop (length rules) tfidf_matrix)
  end.

(** ** A logarithm to compute with *)

Module Binary64.

(** The [float64] of an integer. *)
Definition of_Z (z : Z) : float :=
  if (z <? 0)%Z then PrimFloat.opp (PrimFloat.of_uint63 (Uint63.of_Z (- z)))
  else PrimFloat.of_uint63 (Uint63.of_Z z).

(** [power / odd + power * s2 / (odd + 2) + ...], [terms] terms, added from
    the last one on. *)
Fixpoint atanh_series (terms : nat) (s2 power : float) (odd : Z) : float :=
  match terms with
  | O => 0%float
  | S terms' =>
    PrimFloat.add (atanh_series terms' s2 (PrimFloat.mul power s2) (odd + 2)%Z)
                  (PrimFloat.div power (of_Z odd))
  end.

(** A natural logarithm, within a few units in the last place: [x] is
    [m * 2^e] with [m] between [sqrt(1/2)] and [sqrt(2)], and [ln m] is
    [2 * atanh((m - 1) / (m + 1))]. It is 0.0 at 1.0. *)
Definition ln (x : float) : float :=
  if PrimFloat.is_nan x then x
  else if PrimFloat.ltb x 0 then PrimFloat.nan
  else if PrimFloat.eqb x 0 then PrimFloat.neg_infinity
  else if PrimFloat.is_infinity x then x
  else
    let (m, e) := PrimFloat.frshiftexp x in
    let e := (Uint63.to_Z e - FloatOps.shift)%Z in
    let (m, e) := if PrimFloat.ltb m 0x1.6a09e667f3bcdp-1
                  then (PrimFloat.mul m 2, (e - 1)%Z) else (m, e) in
    let s := PrimFloat.div (PrimFloat.sub m 1) (PrimFloat.add m 1) in
    PrimFloat.add (PrimFloat.mul (of_Z e) 0x1.62e42fefa39efp-1)
                  (PrimFloat.mul 2 (atanh_series 14 (PrimFloat.mul s s) s 1)).

End Binary64.

(** numpy with this logarithm. *)
Definition series_log : Numpy := {| np_log := Binary64.ln |}.

(* ===================================================================== *)
(** * The vocabulary of the properties *)
(* ===================================================================== *)

(** Every whitespace character of [s] is a space (U+0020) that no whitespace
    follows: no run of whitespace is left in [s]. *)
Fixpoint single_spaced (s : str) : bool :=
  match s with
  | [] => true
  | c :: s' =>
    (if PyStr.is_space c
     then N.eqb c PyStr.SPACE
          && match s' with d :: _ => negb (PyStr.is_space d) | [] => true end
     else true)
    && single_spaced s'
  end.

Definition starts_with_space (s : str) : bool :=
  match s with c :: _ => PyStr.is_space c | [] => false end.

(** [s] neither starts nor ends with whitespace. *)
Definition trimmed (s : str) : bool :=
  negb (starts_with_space s) && negb (starts_with_space (rev s)).

Fixpoint leading_periods (s : str) : nat :=
  match s with
  | c :: s' => if N.eqb c PyStr.PERIOD then S (leading_periods s') else O
  | [] => O
  end.

(** How many periods [s] ends with. *)
Definition trailing_periods (s : str) : nat := leading_periods (rev s).

(** Each run of whitespace replaced by one space, read from left to right;
    [in_run] says that the last character read was whitespace. *)
Fixpoint collapse_go (in_run : bool) (s : str) : str :=
  match s with
  | [] => []
  | c :: s' =>
    if PyStr.is_space c
    then if in_run then collapse_go true s' else PyStr.SPACE :: collapse_go true s'
    else c :: collapse_go false s'
  end.

(** The text [clean_rule] works on: whitespace collapsed, then trimmed. *)
Definition squeeze {U : Unicode} (s : str) : str :=
  PyStr.strip (ReSub.sub false whitespace_run (py " ") s).

(** The number a string of decimal digits stands for. *)
Definition decimal_value (s : str) : nat :=
  fold_left (fun acc c => (10 * acc + (N.to_nat c - 48))%nat) s O.

Definition is_decimal_digit (c : char) : bool := (48 <=? c) && (c <=? 57).

(** The number of words of [s], as [len(s.split())] counts them. *)
Definition word_count (s : str) : nat := length (PyStr.split s).

(** [xs] is in the order of [sorted(..., key=len, reverse=True)]: no string
    is longer than one before it. *)
Definition sorted_longest_first (xs : list str) : Prop :=
  forall i j x y, (i < j)%nat -> xs !! i = Some x -> xs !! j = Some y ->
                  (length y <= length x)%nat.

(** [st'] is a position of the same subject, [w] further to the right than
    [st]. *)
Definition reaches (st : Re.state) (w : str) (st' : Re.state) : Prop :=
  Re.before st' = rev w ++ Re.before st /\ Re.rest st = w ++ Re.rest st'.

(** [st] is a position of the subject [text]. *)
Definition position_of (text : str) (st : Re.state) : Prop :=
  rev (Re.before st) ++ Re.rest st = text.

(** What [extract_pdc_from_text] makes of a match it keeps: the match
    stripped, with a period after it unless it ends with one. *)
Definition normalized_pdc (matched : str) : str :=
  if PyStr.endswith (PyStr.strip matched) (py ".")
  then PyStr.strip matched else PyStr.strip matched ++ py ".".

(* ===================================================================== *)
(** * The rest of the script *)
(* ===================================================================== *)

(** ** Pages of a list (App.py, 487-496 and 586-593) *)

Definition items_per_page : nat := 5.

(** [(len(items) + items_per_page - 1) // items_per_page] *)
Definition total_pages (n : nat) : nat := (n + items_per_page - 1) / items_per_page.

(** [(page - 1) * items_per_page], for a page from 1 on (the number input
    has 1 as its minimum). *)
Definition start_idx (page : nat) : nat := (page - 1) * items_per_page.

(** [min(start_idx + items_per_page, len(items))] *)
Definition end_idx (n page : nat) : nat := Nat.min (start_idx page + items_per_page) n.

(** The indices shown on a page: [range(start_idx, end_idx)]. *)
Definition page_indices (n page : nat) : list nat :=
  seq (start_idx page) (end_idx n page - start_idx page).

(** ** Reading an uploaded file *)

(** An uploaded file: its MIME type and its bytes. *)
Record UploadedFile : Type := MkUpload {
  upload_type : str;
  upload_value : list N
}.

(** The readers of the two formats, outside the program: on the left the
    text of the exception they raise. *)
Class Readers := {
  (** [pdfminer.high_level.extract_text(f)] *)
  pdfminer_extract_text : forall (data : list N), str + str;
  (** [[p.text for p in docx.Document(f).paragraphs]] *)
  docx_paragraphs : forall (data : list N), str + list str
}.

(** [sep.join(parts)] *)
Definition str_join (sep : str) (parts : list str) : str :=
  match parts with
  | [] => []
  | p :: ps => p ++ flat_map (fun q => sep ++ q) ps
  end.

(** The truth value of [s.strip()]. *)
Definition non_blank (s : str) : bool := negb (bool_decide (PyStr.strip s = [])).

Section Reading.
Context {Rd : Readers}.

(** [extract_text(uploaded_file)] (App.py, 168-187): the text, or [None]
    for a text that is empty or blank and after an error was shown. *)
Definition extract_text (uploaded_file : UploadedFile) : M (option str) :=
  let read :=
    if bool_decide (upload_type uploaded_file = py "application/pdf")
    then pdfminer_extract_text (upload_value uploaded_file)
    else if bool_decide (upload_type uploaded_file
                         = py "application/vnd.openxmlformats-officedocument.wordprocessingml.document")
    then match docx_paragraphs (upload_value uploaded_file) with
         | inr paragraphs => inr (str_join [PyStr.NEWLINE] (List.filter non_blank paragraphs))
         | inl e => inl e
         end
    else inl (py "Format non supporté") in
  match read with
  | inr text => ret (if non_blank text then Some text else None)
  | inl e => st_error (py "Erreur d'extraction : " ++ e) ;;; ret None
  end.

(** The button of the first tab (App.py, 403-408): the text is stored when
    there is one (the messages of success are display only). *)
Definition tab1_extract (uploaded_file : UploadedFile) : M unit :=
  extracted_text <- extract_text uploaded_file ;;
  match extracted_text with
  | Some text => session_set "text" (VStr text)
  | None => ret tt
  end.

End Reading.

(** ** Cleaning a text for the frequencies *)

(** The letters the first substitution of [clean_text] keeps besides [\w]
    and [\s]. *)
Definition accented_letters : str := py "àâäéèêëîïôöùûüç".

(** The parts of speech [clean_text] drops. *)
Definition dropped_pos : list str := List.map py ["DET"; "ADP"; "CCONJ"; "PRON"; "PART"].

Section CleanText.
Context {U : Unicode}.

(** A character outside the class [[^\w\sàâäéèêëîïôöùûüç]]. *)
Definition kept_char (c : char) : bool :=
  uc_word c || PyStr.is_space c || existsb (N.eqb c) accented_letters.

(** The text handed to the pipeline (App.py, 214-216): lower case, every
    other character replaced by a space ([re.sub] of a class of one
    character replaces each such character), the runs of whitespace
    collapsed, the ends stripped. *)
Definition prepared_text (text : str) : str :=
  let text := lower text in
  let text := List.map (fun c => if kept_char c then c else PyStr.SPACE) text in
  PyStr.strip (ReSub.sub false whitespace_run (py " ") text).

(** Whether the loop of [clean_text] skips a token (App.py, 223-227). *)
Definition skipped (min_word_length : nat) (token : Token) : bool :=
  tok_is_stop token || tok_is_punct token
  || Nat.ltb (length (tok_text token)) min_word_length
  || bool_decide (In (tok_pos token) dropped_pos).

(** The list [cleaned_tokens] the loop of [clean_text] builds (App.py,
    220-231). *)
Definition cleaned_tokens (min_word_length : nat) (doc : Doc) : list str :=
  flat_map (fun token =>
              if skipped min_word_length token then []
              else let lemma := PyStr.strip (tok_lemma token) in
                   match lemma with [] => [] | _ => [lemma] end)
           (doc_tokens doc).

(** [clean_text(text, nlp_model, min_word_length)] (App.py, 202-233). *)
Definition clean_text (text : str) (nlp_model : option Language) (min_word_length : nat)
  : str :=
  match text, nlp_model with
  | [], _ | _, None => []
  | _, Some nlp => str_join (py " ") (cleaned_tokens min_word_length (nlp (prepared_text text)))
  end.

End CleanText.

(** [[word for word in text.split() if len(word) > 2]] (App.py, 237), the
    words [calculate_frequencies] counts. *)
Definition counted_words (text : str) : list str :=
  List.filter (fun word => Nat.ltb 2 (length word)) (PyStr.split text).

(** ** Completing the control points (App.py, 560-579) *)

(** The larger of two [float64] as numpy takes it: a NaN wins. *)
Definition np_maximum (a b : float) : float :=
  if PrimFloat.is_nan a then a
  else if PrimFloat.is_nan b then b
  else if PrimFloat.ltb a b then b else a.

(** [row.max()]: the largest entry; a row without entry is an error. *)
Definition row_max (row : list float) : Result float :=
  match row with
  | [] => Raise (ValueError (py "zero-size array to reduction operation maximum which has no identity"))
  | x :: xs => Return (fold_left np_maximum xs x)
  end.

(** A computation without effect that may raise. *)
Definition lift {A} (r : Result A) : M A := fun w => (r, w).

(** The list stored under a key. The script stores nothing but lists under
    'rules' and 'pdc_list'; a value of another kind is an error here. *)
Definition session_list (key : string) : M (list str) :=
  v <- session_get key ;;
  match v with
  | Some (VList l) => ret l
  | _ => raise (TypeError (py "object is not iterable"))
  end.

Section Tab5.
Context {U : Unicode} {Sv : Services} {Np : Numpy}.

(** The loop over [enumerate(st.session_state.rules)] (App.py, 571-574):
    [similarity] holds the rows from the row of the first rule left on, and
    [pdc_list] the list of the session, appended to in place. *)
Fixpoint complete_loop (use_ai_pdc : bool) (threshold : float)
    (rules : list str) (similarity : list (list float)) (pdc_list : list str)
  : M (list str) :=
  match rules with
  | [] => ret pdc_list
  | rule :: rules' =>
    best <- lift (row_max (hd [] similarity)) ;;
    if PrimFloat.ltb best threshold
    then generated_pdc <- generate_pdc_from_rule rule use_ai_pdc ;;
         session_set "pdc_list" (VList (pdc_list ++ [generated_pdc])) ;;;
         complete_loop use_ai_pdc threshold rules' (tl similarity)
                       (pdc_list ++ [generated_pdc])
    else complete_loop use_ai_pdc threshold rules' (tl similarity) pdc_list
  end.

(** [[generate_pdc_from_rule(rule, use_ai=use_ai_pdc) for rule in rules]] *)
Fixpoint generate_all (use_ai_pdc : bool) (rules : list str) : M (list str) :=
  match rules with
  | [] => ret []
  | rule :: rules' =>
    pdc <- generate_pdc_from_rule rule use_ai_pdc ;;
    pdcs <- generate_all use_ai_pdc rules' ;;
    ret (pdc :: pdcs)
  end.

(** The second section of the fifth tab with its button pressed (App.py,
    559-579), for the answer [has_pdc] of the radio button, [pdc_file]
    saying whether a file was uploaded, and the threshold of the slider.
    The button is there when the answer starts with "Non", or starts with
    "Oui" and a file was uploaded. *)
Definition complete_pdcs (has_pdc : str) (pdc_file : bool) (use_ai_pdc : bool)
    (threshold : float) : M unit :=
  if PyStr.startswith has_pdc (py "Non") || (PyStr.startswith has_pdc (py "Oui") && pdc_file)
  then
    present <- session_get "pdc_list" ;;
    (match present with
     | None => session_set "pdc_list" (VList [])
     | Some _ => ret tt
     end) ;;;
    rules <- session_list "rules" ;;
    if PyStr.startswith has_pdc (py "Oui") && pdc_file then
      pdc_list <- session_list "pdc_list" ;;
      similarity <- lift (compare_rules_pdc rules pdc_list) ;;
      complete_loop use_ai_pdc threshold rules similarity pdc_list ;;;
      ret tt
    else
      pdc_list <- generate_all use_ai_pdc rules ;;
      session_set "pdc_list" (VList pdc_list)
  else ret tt.

End Tab5.

(** ** The documents to download *)

(** python-docx, which writes them: whether it takes a text as the text of
    a paragraph. It raises [ValueError] on a text that cannot stand in XML,
    as one that holds a control character. *)
Class Docx := {
  docx_accepts : str -> bool
}.

Section Documents.
Context {Dx : Docx}.

(** A document built paragraph by paragraph and saved: the texts written,
    or the error of the first one that python-docx refuses. *)
Definition write_document (texts : list str) : Result (list str) :=
  if forallb docx_accepts texts then Return texts
  else Raise (ValueError (py "All strings must be XML compatible: Unicode or ASCII, no NULL bytes or control characters")).

(** [[f"{i}. {item}" for i, item in enumerate(items, 1)]] *)
Definition numbered (items : list str) : list str :=
  List.map (fun numbered_item => decimal (fst numbered_item) ++ py ". " ++ snd numbered_item)
           (combine (seq 1 (length items)) items).

(** [create_rules_document(rules)] (App.py, 189-200): the heading, then one
    paragraph per rule. *)
Definition create_rules_document (rules : list str) : Result (list str) :=
  write_document (py "Règles de Gestion Identifiées" :: numbered rules).

End Documents.

(** A character of XML 1.0: tab, newline, carriage return, and from U+0020
    on what is no surrogate and none of U+FFFE and U+FFFF. *)
Definition xml_char (c : char) : bool :=
  (c =? 9) || (c =? 10) || (c =? 13)
  || ((32 <=? c) && (c <=? 55295)) || ((57344 <=? c) && (c <=? 65533))
  || ((65536 <=? c) && (c <=? 1114111)).

(** python-docx to compute with: it takes the texts of XML characters. *)
Definition xml_docx : Docx := {| docx_accepts := forallb xml_char |}.

(** ** The buttons that store rules and control points *)

Section Importing.
Context {U : Unicode} {Sv : Services} {Rd : Readers} {Dx : Docx}.

(** The button "Extraire les règles" of the fourth tab with what it shows
    (App.py, 466-512), for the result [nlp_model] of [load_nlp_model()]:
    the rules are stored when there are some, then their first page is
    shown and the document to download is built, which can raise. *)
Definition tab4_extract (nlp_model : option Language) (use_ai_rules : bool) : M unit :=
  text <- session_get "text" ;;
  match text with
  | None => ret tt
  | Some text =>
    if negb (bool_decide (is_Some nlp_model)) && negb use_ai_rules
    then st_error (py "Le traitement NLP n'est pas disponible")
    else match text with
         | VStr text =>
           rules <- extract_business_rules text nlp_model use_ai_rules ;;
           match rules with
           | [] => ret tt
           | _ =>
             session_set "rules" (VList rules) ;;;
             lift (create_rules_document rules) ;;;
             ret tt
           end
         | _ => raise (TypeError (py "expected string or bytes-like object"))
         end
  end.

(** The upload of a file of control points (App.py, 543-555):
    [extract_pdc_from_text] is given what [extract_text] returns, and
    [re.finditer] raises on [None]. *)
Definition import_pdcs (pdc_file : UploadedFile) : M unit :=
  pdc_text <- extract_text pdc_file ;;
  match pdc_text with
  | None => raise (TypeError (py "expected string or bytes-like object"))
  | Some pdc_text => session_set "pdc_list" (VList (extract_pdc_from_text pdc_text))
  end.

End Importing.

(** Readers to compute with: the bytes of the file are the code points of
    its text, and a paragraph is a line. *)
Definition plain_reader : Readers :=
  {| pdfminer_extract_text := fun data => inr data;
     docx_paragraphs := fun data => inr (PyStr.split_on PyStr.NEWLINE data) |}.

(** ** More vocabulary *)

(** [part] stands in [text], as a run of consecutive characters. *)
Definition part_of (part text : str) : Prop :=
  exists before after, text = before ++ part ++ after.

(** Where a rule of the heuristic mode comes from: a match of one of the
    four patterns, or a sentence of the pipeline with a keyword and more
    than five words. *)
Definition rule_source {U : Unicode} (text : str) (nlp_model : option Language) (m : str)
  : Prop :=
  (exists pattern, In pattern rule_patterns /\ In m (Re.findall true pattern text))
  \/ (exists nlp, nlp_model = Some nlp /\ In m (doc_sents (nlp text))
                  /\ existsb (fun keyword => PyStr.contains (lower m) keyword) rule_keywords
                     = true
                  /\ (5 < word_count m)%nat).

(** The entry of the similarity matrix for two texts of a corpus: the
    product of their rows, each normalised by the vectorizer and again by
    [cosine_similarity]. *)
Definition score {U : Unicode} {Np : Numpy} (raw_documents : list str) (a b : str) : float :=
  Sklearn.dot
    (Sklearn.normalize (Sklearn.normalize (Sklearn.tfidf_row raw_documents a)))
    (Sklearn.normalize (Sklearn.normalize (Sklearn.tfidf_row raw_documents b))).

(** Every score of the row is below the threshold. *)
Definition all_below (threshold : float) (row : list float) : bool :=
  forallb (fun score => PrimFloat.ltb score threshold) row.

(** The rules whose row of the matrix has every score below the threshold,
    in their order. *)
Definition unmatched (threshold : float) (rules : list str) (similarity : list (list float))
  : list str :=
  List.map fst (List.filter (fun rule_row => all_below threshold (snd rule_row))
                            (combine rules similarity)).


(** The message of [generate_pdc_from_rule] without a model. *)
Definition no_model_error : Event := StError (py "Modèle NLP non chargé").

(** What the script relies on in the session: a text under 'text' is not
    blank, and a list under 'rules' is not empty and holds rules in the
    normal form of [clean_rule]. *)
Definition well_stored {U : Unicode} (s : gmap string Value) : Prop :=
  (forall v, s !! "text"%string = Some v -> exists text, v = VStr text /\ non_blank text = true)
  /\ (forall v, s !! "rules"%string = Some v ->
        exists rules, v = VList rules /\ rules <> []
                      /\ Forall (fun rule => clean_rule rule = rule) rules).

(** The MIME types [extract_text] reads. *)
Definition readable (mime : str) : Prop :=
  mime = py "application/pdf"
  \/ mime = py "application/vnd.openxmlformats-officedocument.wordprocessingml.document".

(** Every match of [r] holds a character that matches the literal [l]: a
    sufficient test, read off the pattern. *)
Fixpoint demands (l : char) (r : Re.regex) : bool :=
  match r with
  | Re.Lit l' => N.eqb l l'
  | Re.Cat r1 r2 => demands l r1 || demands l r2
  | Re.Alt r1 r2 => demands l r1 && demands l r2
  | Re.Group _ r1 => demands l r1
  | _ => false
  end.

(* ===================================================================== *)
(** * Properties *)
(* ===================================================================== *)
(* ===================================================================== *)
(** * Strings: stripping and whitespace *)
(* ===================================================================== *)

Lemma py_space : py " " = [PyStr.SPACE].
Proof. reflexivity. Qed.

Lemma py_period : py "." = [PyStr.PERIOD].
Proof. reflexivity. Qed.

Lemma period_not_space : PyStr.is_space PyStr.PERIOD = false.
Proof. reflexivity. Qed.

Lemma space_is_space : PyStr.is_space PyStr.SPACE = true.
Proof. reflexivity. Qed.

Lemma lstrip_suffix s : exists ws, s = ws ++ PyStr.lstrip s /\ forallb PyStr.is_space ws = true.
Proof.
  induction s as [|c s IH]; simpl.
  - exists []. split; reflexivity.
  - destruct (PyStr.is_space c) eqn:Hc.
    + destruct IH as [ws [Heq Hws]]. exists (c :: ws). simpl. rewrite Hc, Hws.
      split; [congruence | reflexivity].
    + exists []. split; reflexivity.
Qed.

Lemma lstrip_head s : starts_with_space (PyStr.lstrip s) = false.
Proof.
  induction s as [|c s IH]; simpl; [reflexivity|].
  destruct (PyStr.is_space c) eqn:Hc; [exact IH | simpl; exact Hc].
Qed.

Lemma lstrip_id s : starts_with_space s = false -> PyStr.lstrip s = s.
Proof. destruct s as [|c s]; simpl; [reflexivity|]. intros ->. reflexivity. Qed.

Lemma rstrip_prefix s : exists ws, s = PyStr.rstrip s ++ ws /\ forallb PyStr.is_space ws = true.
Proof.
  unfold PyStr.rstrip. destruct (lstrip_suffix (rev s)) as [ws [Heq Hws]].
  exists (rev ws). split.
  - rewrite <- rev_app_distr, <- Heq, rev_involutive. reflexivity.
  - rewrite forallb_forall in *. intros x Hx. apply Hws. now apply in_rev.
Qed.

Lemma rstrip_last s : starts_with_space (rev (PyStr.rstrip s)) = false.
Proof. unfold PyStr.rstrip. rewrite rev_involutive. apply lstrip_head. Qed.

Lemma rstrip_id s : starts_with_space (rev s) = false -> PyStr.rstrip s = s.
Proof. intros Hs. unfold PyStr.rstrip. rewrite lstrip_id by exact Hs. apply rev_involutive. Qed.

Lemma rstrip_head s : starts_with_space s = false -> starts_with_space (PyStr.rstrip s) = false.
Proof.
  intros Hs. destruct (rstrip_prefix s) as [ws [Heq _]].
  destruct (PyStr.rstrip s) as [|c r]; [reflexivity|].
  rewrite Heq in Hs. exact Hs.
Qed.

Lemma strip_trimmed s : trimmed (PyStr.strip s) = true.
Proof.
  unfold trimmed, PyStr.strip.
  rewrite rstrip_head by apply lstrip_head. rewrite rstrip_last. reflexivity.
Qed.

Lemma strip_id s : trimmed s = true -> PyStr.strip s = s.
Proof.
  unfold trimmed, PyStr.strip. intros Ht.
  apply andb_prop in Ht as [H1 H2]. apply negb_true_iff in H1, H2.
  rewrite lstrip_id by exact H1. now apply rstrip_id.
Qed.

(** [s.strip()] cuts whitespace off both ends and nothing else. *)
Lemma strip_middle s :
  exists ws1 ws2, s = ws1 ++ PyStr.strip s ++ ws2
                  /\ forallb PyStr.is_space ws1 = true /\ forallb PyStr.is_space ws2 = true.
Proof.
  destruct (lstrip_suffix s) as [ws1 [H1 Hw1]].
  destruct (rstrip_prefix (PyStr.lstrip s)) as [ws2 [H2 Hw2]].
  exists ws1, ws2. unfold PyStr.strip. rewrite <- H2. auto.
Qed.

Lemma single_spaced_tail c s : single_spaced (c :: s) = true -> single_spaced s = true.
Proof. simpl. intros Hs. now apply andb_prop in Hs as [_ Hs]. Qed.

Lemma single_spaced_suffix a b : single_spaced (a ++ b) = true -> single_spaced b = true.
Proof. induction a as [|c a IH]; simpl app; [auto|]. intros Hs. apply IH. eapply single_spaced_tail, Hs. Qed.

Lemma single_spaced_prefix a b : single_spaced (a ++ b) = true -> single_spaced a = true.
Proof.
  induction a as [|c a IH]; [reflexivity|]. simpl app. simpl single_spaced.
  intros Hs. apply andb_prop in Hs as [Hc Hs]. rewrite (IH Hs), andb_true_r.
  destruct (PyStr.is_space c); [|reflexivity].
  apply andb_prop in Hc as [Hc Hd]. rewrite Hc. simpl.
  destruct a as [|d a]; [reflexivity | exact Hd].
Qed.

Lemma single_spaced_strip s : single_spaced s = true -> single_spaced (PyStr.strip s) = true.
Proof.
  intros Hs. destruct (strip_middle s) as [ws1 [ws2 [Heq _]]]. rewrite Heq in Hs.
  eapply single_spaced_prefix, single_spaced_suffix, Hs.
Qed.

(** A character that is no whitespace may be put after a text that does not
    end with whitespace. *)
Lemma single_spaced_snoc s c :
  single_spaced s = true -> starts_with_space (rev s) = false -> PyStr.is_space c = false ->
  single_spaced (s ++ [c]) = true.
Proof.
  intros Hs Hl Hc. induction s as [|d s IH]; simpl.
  - now rewrite Hc.
  - simpl in Hs. apply andb_prop in Hs as [Hd Hs].
    destruct s as [|e s].
    + simpl in *. rewrite Hl in *. now rewrite Hc.
    + rewrite IH; [|exact Hs|].
      * rewrite andb_true_r. exact Hd.
      * simpl in Hl |- *. destruct (rev s ++ [e]) eqn:Hr; [now destruct (rev s)|].
        simpl in Hl |- *. exact Hl.
Qed.

Lemma collapse_go_shape b s :
  single_spaced (collapse_go b s) = true
  /\ (b = true -> starts_with_space (collapse_go b s) = false).
Proof.
  revert b. induction s as [|c s IH]; intros b; simpl; [auto|].
  destruct (PyStr.is_space c) eqn:Hc.
  - destruct (IH true) as [Hs Hh]. specialize (Hh eq_refl).
    destruct b; [auto|]. split; [|discriminate].
    cbn [single_spaced]. rewrite space_is_space, Hs, N.eqb_refl. simpl.
    destruct (collapse_go true s); [reflexivity|]. simpl in Hh. now rewrite Hh.
  - destruct (IH false) as [Hs _]. split.
    + simpl. now rewrite Hc, Hs.
    + intros _. simpl. exact Hc.
Qed.

Lemma collapse_go_head s :
  starts_with_space s = false -> collapse_go true s = collapse_go false s.
Proof. destruct s as [|c s]; simpl; [reflexivity|]. now intros ->. Qed.

Lemma collapse_go_id s : single_spaced s = true -> collapse_go false s = s.
Proof.
  induction s as [|c s IH]; simpl; [reflexivity|].
  intros Hs. apply andb_prop in Hs as [Hc Hs].
  destruct (PyStr.is_space c) eqn:Hsp.
  - apply andb_prop in Hc as [Hc Hd]. apply N.eqb_eq in Hc. subst c.
    rewrite collapse_go_head, IH; [reflexivity | exact Hs |].
    destruct s; [reflexivity|]. simpl. now apply negb_true_iff.
  - now rewrite IH.
Qed.

Lemma collapse_go_lstrip s : collapse_go true s = collapse_go false (PyStr.lstrip s).
Proof.
  induction s as [|c s IH]; simpl; [reflexivity|].
  destruct (PyStr.is_space c) eqn:Hc; [exact IH|]. simpl. now rewrite Hc.
Qed.

Lemma lstrip_length s : (length (PyStr.lstrip s) <= length s)%nat.
Proof.
  induction s as [|c s IH]; simpl; [lia|].
  destruct (PyStr.is_space c); simpl; lia.
Qed.

Section CleanRule.
Context {U : Unicode}.

(** A greedy [\s*] takes the whole run of whitespace in front of it. *)
Lemma rounds_space n b r g :
  (length r <= n)%nat ->
  exists b', Re.rounds true (Re.run false Re.Space) Some n (Re.State b r g)
             = Some (Re.State b' (PyStr.lstrip r) g)
             /\ (length b <= length b')%nat.
Proof.
  revert b r. induction n as [|n IH]; intros b r Hn.
  - destruct r; [|simpl in Hn; lia]. exists b. split; [reflexivity | lia].
  - destruct r as [|c r].
    + exists b. split; [reflexivity | lia].
    + cbn [Re.rounds].
      change (Re.run false Re.Space (Re.State b (c :: r) g))
        with (Re.one PyStr.is_space (Re.State b (c :: r) g)).
      unfold Re.one. cbn [Re.rest PyStr.lstrip].
      destruct (PyStr.is_space c) eqn:Hc.
      * unfold Re.advance, Re.pos. cbn [Re.before Re.groups length].
        replace (Nat.ltb (length b) (S (length b))) with true
          by (symmetry; apply Nat.ltb_lt; lia).
        destruct (IH (c :: b) r) as [b' [Hr Hb']]; [simpl in Hn; lia|].
        exists b'. rewrite Hr. split; [reflexivity | simpl in Hb'; lia].
      * exists b. split; [reflexivity | lia].
Qed.

(** [\s+] at a position: nothing unless whitespace stands there, else the
    whole run. *)
Lemma match_whitespace_run b r g :
  match r with
  | c :: r' =>
    if PyStr.is_space c
    then exists b', Re.match_at false whitespace_run (Re.State b r g)
                    = Some (Re.State b' (PyStr.lstrip r') g)
                    /\ (length b < length b')%nat
    else Re.match_at false whitespace_run (Re.State b r g) = None
  | [] => Re.match_at false whitespace_run (Re.State b r g) = None
  end.
Proof.
  destruct r as [|c r']; [reflexivity|].
  unfold Re.match_at, whitespace_run, Re.Plus.
  change (Re.run false (Re.Cat Re.Space (Re.Star true Re.Space)) (Re.State b (c :: r') g) Some)
    with (Re.one PyStr.is_space (Re.State b (c :: r') g)
            (fun st1 => Re.rounds true (Re.run false Re.Space) Some (length (Re.rest st1)) st1)).
  unfold Re.one. cbn [Re.rest].
  destruct (PyStr.is_space c); [|reflexivity].
  unfold Re.advance. cbn [Re.rest Re.before Re.groups].
  destruct (rounds_space (length r') (c :: b) r' g) as [b' [Hr Hb']]; [lia|].
  exists b'. split; [exact Hr | simpl in Hb'; lia].
Qed.

(** [re.sub(r"\s+", " ", s)] replaces each run of whitespace by one space. *)
Lemma sub_from_whitespace fuel b r g :
  (length r < fuel)%nat ->
  ReSub.sub_from false whitespace_run (py " ") fuel (Re.State b r g) = collapse_go false r.
Proof.
  revert b r g. induction fuel as [|fuel IH]; intros b r g Hf; [lia|].
  cbn [ReSub.sub_from]. pose proof (match_whitespace_run b r g) as Hm.
  destruct r as [|c r'].
  - rewrite Hm. reflexivity.
  - cbn [collapse_go]. destruct (PyStr.is_space c).
    + destruct Hm as [b' [-> Hb']]. unfold Re.pos. cbn [Re.before Re.rest].
      replace (Nat.ltb (length b) (length b')) with true
        by (symmetry; apply Nat.ltb_lt; lia).
      rewrite IH.
      * rewrite collapse_go_lstrip. reflexivity.
      * pose proof (lstrip_length r'). simpl in Hf. lia.
    + rewrite Hm. cbn [Re.rest Re.before]. rewrite IH; [reflexivity | simpl in Hf; lia].
Qed.

Lemma sub_whitespace s :
  ReSub.sub false whitespace_run (py " ") s = collapse_go false s.
Proof. unfold ReSub.sub. apply sub_from_whitespace. lia. Qed.

Lemma squeeze_collapse s : squeeze s = PyStr.strip (collapse_go false s).
Proof. unfold squeeze. now rewrite sub_whitespace. Qed.

Lemma clean_rule_squeeze s :
  clean_rule s = if PyStr.endswith (squeeze s) (py ".") then squeeze s else squeeze s ++ py ".".
Proof. reflexivity. Qed.

End CleanRule.

Lemma endswith_period s :
  PyStr.endswith s (py ".") = match rev s with c :: _ => N.eqb c PyStr.PERIOD | [] => false end.
Proof.
  unfold PyStr.endswith. rewrite py_period.
  destruct s as [|c s] using rev_ind; [reflexivity|].
  rewrite rev_app_distr, length_app. simpl.
  replace (length s + 1 - 1)%nat with (length s) by lia.
  rewrite drop_app_length.
  destruct (N.eqb_spec c PyStr.PERIOD) as [->|Hne].
  - now apply bool_decide_eq_true.
  - apply bool_decide_eq_false. congruence.
Qed.

Lemma endswith_trailing s :
  PyStr.endswith s (py ".") = Nat.ltb 0 (trailing_periods s).
Proof.
  rewrite endswith_period. unfold trailing_periods.
  destruct (rev s) as [|c r]; [reflexivity|]. simpl.
  now destruct (N.eqb c PyStr.PERIOD).
Qed.

Lemma trailing_periods_snoc s :
  trailing_periods (s ++ py ".") = S (trailing_periods s).
Proof. unfold trailing_periods. now rewrite py_period, rev_app_distr. Qed.

Lemma trimmed_snoc s c :
  trimmed s = true -> PyStr.is_space c = false -> trimmed (s ++ [c]) = true.
Proof.
  unfold trimmed. intros Hs Hc. apply andb_prop in Hs as [Hs _].
  rewrite rev_app_distr. simpl. rewrite Hc.
  destruct s; simpl in *; [now rewrite Hc | now rewrite Hs].
Qed.

Section CleanRuleShape.
Context {U : Unicode}.

Lemma squeeze_single_spaced s : single_spaced (squeeze s) = true.
Proof. rewrite squeeze_collapse. apply single_spaced_strip, collapse_go_shape. Qed.

Lemma squeeze_trimmed s : trimmed (squeeze s) = true.
Proof. unfold squeeze. apply strip_trimmed. Qed.

(** A text in normal form is left as it is. *)
Lemma squeeze_id s : single_spaced s = true -> trimmed s = true -> squeeze s = s.
Proof.
  intros Hs Ht. rewrite squeeze_collapse, collapse_go_id by exact Hs. now apply strip_id.
Qed.

Lemma clean_rule_cases s :
  (PyStr.endswith (squeeze s) (py ".") = true /\ clean_rule s = squeeze s)
  \/ (PyStr.endswith (squeeze s) (py ".") = false /\ clean_rule s = squeeze s ++ py ".").
Proof.
  rewrite clean_rule_squeeze. destruct (PyStr.endswith (squeeze s) (py ".")); auto.
Qed.

Lemma clean_rule_single_spaced s : single_spaced (clean_rule s) = true.
Proof.
  destruct (clean_rule_cases s) as [[_ ->]|[_ ->]]; [apply squeeze_single_spaced|].
  rewrite py_period. apply single_spaced_snoc; [apply squeeze_single_spaced | | reflexivity].
  pose proof (squeeze_trimmed s) as Ht. unfold trimmed in Ht.
  apply andb_prop in Ht as [_ Ht]. now apply negb_true_iff in Ht.
Qed.

Lemma clean_rule_trimmed s : trimmed (clean_rule s) = true.
Proof.
  destruct (clean_rule_cases s) as [[_ ->]|[_ ->]]; [apply squeeze_trimmed|].
  rewrite py_period. apply trimmed_snoc; [apply squeeze_trimmed | reflexivity].
Qed.

Lemma clean_rule_trailing s :
  trailing_periods (clean_rule s) = Nat.max 1 (trailing_periods (squeeze s)).
Proof.
  destruct (clean_rule_cases s) as [[He ->]|[He ->]]; rewrite endswith_trailing in He.
  - apply Nat.ltb_lt in He. lia.
  - apply Nat.ltb_ge in He. rewrite trailing_periods_snoc. lia.
Qed.

Lemma clean_rule_endswith s : PyStr.endswith (clean_rule s) (py ".") = true.
Proof. rewrite endswith_trailing, clean_rule_trailing. apply Nat.ltb_lt. lia. Qed.

Lemma clean_rule_fixed s :
  single_spaced s = true -> trimmed s = true -> PyStr.endswith s (py ".") = true ->
  clean_rule s = s.
Proof.
  intros Hs Ht He. rewrite clean_rule_squeeze, squeeze_id by assumption. now rewrite He.
Qed.

End CleanRuleShape.

(** C1, as amended. [clean_rule] is idempotent on every string; its result
    has no whitespace but single spaces, starts and ends with no whitespace
    and ends with a period. The period is added to the collapsed and trimmed
    text only when that text ends with none, and no period is taken away:
    the result ends with as many periods as the text did, and with one when
    the text had none. *)
Theorem clean_rule_normal_form {U : Unicode} (x : str) :
  clean_rule (clean_rule x) = clean_rule x
  /\ single_spaced (clean_rule x) = true
  /\ trimmed (clean_rule x) = true
  /\ PyStr.endswith (clean_rule x) (py ".") = true
  /\ trailing_periods (clean_rule x) = Nat.max 1 (trailing_periods (squeeze x))
  /\ (clean_rule x = squeeze x \/ clean_rule x = squeeze x ++ py ".").
Proof.
  split; [|split; [|split; [|split; [|split]]]].
  - apply clean_rule_fixed.
    + apply clean_rule_single_spaced.
    + apply clean_rule_trimmed.
    + apply clean_rule_endswith.
  - apply clean_rule_single_spaced.
  - apply clean_rule_trimmed.
  - apply clean_rule_endswith.
  - apply clean_rule_trailing.
  - destruct (clean_rule_cases x) as [[_ ->]|[_ ->]]; auto.
Qed.

(** C1, the claim as it stands fails: a text that ends with two periods keeps
    both. *)
Lemma clean_rule_keeps_two_periods :
  clean_rule (U := latin1) (py "a..") = py "a.."
  /\ trailing_periods (clean_rule (U := latin1) (py "a..")) = 2%nat.
Proof. split; vm_compute; reflexivity. Qed.

(* ===================================================================== *)
(** * Test cases *)
(* ===================================================================== *)

Section TestCases.
Context {U : Unicode} {Sv : Services}.

(** Whatever the mode and whatever the service does, [create_test_case]
    returns a record with the identifier of its index, the type of its flag
    and its control point. *)
Lemma create_test_case_returns pdc index is_manual use_ai w :
  exists tc w',
    create_test_case pdc index is_manual use_ai w = (Return tc, w')
    /\ tc_ID tc = ct_id index
    /\ tc_Type tc = type_of is_manual
    /\ tc_PDC tc = pdc.
Proof.
  unfold create_test_case, setup_azure_openai, generate_with_azure_openai, random_choice,
    st_error, next_azure_call, next_random_draw, emit, bind, ret.
  destruct use_ai, is_manual; cbv beta iota zeta delta [negb];
    repeat match goal with
           | |- context [azure_connect ?n] => destruct (azure_connect n); cbv beta iota zeta
           | |- context [azure_complete ?n ?p] =>
             destruct (azure_complete n p); cbv beta iota zeta
           | |- context [truthy ?r] => destruct (truthy r); cbv beta iota zeta
           end;
    eauto 10.
Qed.

Lemma test_case_loop_returns has_pdc use_ai n pdcs : forall i acc w,
  exists new w',
    test_case_loop has_pdc use_ai n i pdcs acc w = (Return (acc ++ new), w')
    /\ List.map tc_ID new = List.map ct_id (seq i (length pdcs))
    /\ List.map tc_PDC new = pdcs
    /\ List.map tc_Type new
       = List.map (fun j => type_of (PyStr.startswith has_pdc (py "Oui") && Nat.leb j n))
                  (seq i (length pdcs)).
Proof.
  induction pdcs as [|pdc pdcs IH]; intros i acc w.
  - exists [], w. cbn. rewrite app_nil_r. auto.
  - cbn [test_case_loop]. unfold bind at 1.
    destruct (create_test_case_returns pdc i
                (PyStr.startswith has_pdc (py "Oui") && Nat.leb i n) use_ai w)
      as [tc [w1 [-> [Hid [Hty Hpdc]]]]].
    destruct (IH (S i) (acc ++ [tc]) w1) as [new [w2 [-> [Hids [Hpdcs Htys]]]]].
    exists (tc :: new), w2. rewrite <- app_assoc. cbn.
    rewrite Hid, Hty, Hpdc, Hids, Hpdcs, Htys. auto.
Qed.

Lemma generate_test_cases_returns has_pdc use_ai pdc_list w :
  exists test_cases w',
    generate_test_cases has_pdc use_ai pdc_list w = (Return test_cases, w')
    /\ List.map tc_ID test_cases = List.map ct_id (seq 1 (length pdc_list))
    /\ List.map tc_PDC test_cases = pdc_list
    /\ List.map tc_Type test_cases
       = List.map (fun j => type_of (PyStr.startswith has_pdc (py "Oui")
                                     && Nat.leb j (length pdc_list)))
                  (seq 1 (length pdc_list)).
Proof.
  unfold generate_test_cases, bind at 1, session_set at 1.
  unfold bind at 1.
  destruct (test_case_loop_returns has_pdc use_ai (length pdc_list) pdc_list 1 []
              (MkWorld (<["test_cases" := VCases []]> (session_state w)) (events w)
                       (azure_calls w) (random_draws w)))
    as [new [w1 [-> H]]].
  unfold bind, session_set, ret. cbn. eauto.
Qed.

End TestCases.

(** ** Decimal numbers *)

Lemma decimal_value_acc s : forall a,
  fold_left (fun acc c => (10 * acc + (N.to_nat c - 48))%nat) s a
  = (a * 10 ^ length s + decimal_value s)%nat.
Proof.
  unfold decimal_value. induction s as [|c s IH]; intros a; cbn [fold_left length].
  - cbn. lia.
  - rewrite IH, (IH (10 * 0 + _)%nat). cbn [Nat.pow]. lia.
Qed.

Lemma decimal_value_cons c s :
  decimal_value (c :: s) = ((N.to_nat c - 48) * 10 ^ length s + decimal_value s)%nat.
Proof. unfold decimal_value at 1. cbn [fold_left]. rewrite decimal_value_acc. lia. Qed.

Lemma digit_char n : (N.to_nat (N.of_nat (48 + n mod 10)) - 48 = n mod 10)%nat.
Proof. rewrite Nat2N.id. lia. Qed.

Lemma digit_char_is_digit n : is_decimal_digit (N.of_nat (48 + n mod 10)) = true.
Proof.
  unfold is_decimal_digit. pose proof (Nat.mod_upper_bound n 10).
  apply andb_true_intro. split; apply N.leb_le; lia.
Qed.

Lemma digits_go_value fuel : forall n acc,
  (n < fuel)%nat ->
  decimal_value (digits_go fuel n acc) = (n * 10 ^ length acc + decimal_value acc)%nat.
Proof.
  induction fuel as [|fuel IH]; intros n acc Hn; [lia|].
  cbn [digits_go]. destruct (Nat.ltb_spec n 10) as [Hlt|Hge].
  - rewrite decimal_value_cons, digit_char, Nat.mod_small by lia. reflexivity.
  - rewrite IH.
    + rewrite decimal_value_cons, digit_char. cbn [length Nat.pow].
      pose proof (Nat.div_mod_eq n 10). nia.
    + pose proof (Nat.div_lt n 10). lia.
Qed.

Lemma digits_go_digits fuel : forall n acc,
  forallb is_decimal_digit acc = true ->
  forallb is_decimal_digit (digits_go fuel n acc) = true.
Proof.
  induction fuel as [|fuel IH]; intros n acc Hacc; [exact Hacc|].
  cbn [digits_go].
  assert (forallb is_decimal_digit (N.of_nat (48 + n mod 10) :: acc) = true) as H1
    by (cbn [forallb]; now rewrite digit_char_is_digit, Hacc).
  destruct (Nat.ltb n 10); [exact H1 | now apply IH].
Qed.

Lemma decimal_value_decimal n : decimal_value (decimal n) = n.
Proof. unfold decimal. rewrite digits_go_value by lia. cbn. lia. Qed.

Lemma decimal_value_zeros k s : decimal_value (repeat 48 k ++ s) = decimal_value s.
Proof.
  induction k as [|k IH]; [reflexivity|].
  cbn [repeat app]. rewrite decimal_value_cons, IH. cbn. lia.
Qed.

Lemma format_03d_value index : decimal_value (format_03d index) = index.
Proof. unfold format_03d. now rewrite decimal_value_zeros, decimal_value_decimal. Qed.

Lemma format_03d_digits index : forallb is_decimal_digit (format_03d index) = true.
Proof.
  unfold format_03d. rewrite forallb_app. apply andb_true_intro. split.
  - induction (3 - length (decimal index))%nat; [reflexivity | exact IHn].
  - apply digits_go_digits. reflexivity.
Qed.

Lemma format_03d_length index :
  length (format_03d index) = Nat.max 3 (length (decimal index)).
Proof. unfold format_03d. rewrite length_app, repeat_length. lia. Qed.

Lemma format_03d_three index :
  (index < 1000)%nat -> length (format_03d index) = 3%nat.
Proof.
  intros Hi.
  assert (forallb (fun i => Nat.eqb (length (format_03d i)) 3) (seq 0 1000) = true) as Hall
    by (vm_compute; reflexivity).
  rewrite forallb_forall in Hall. apply Nat.eqb_eq, Hall, in_seq. lia.
Qed.

(** C7. Whatever the mode (heuristic or with the service, and whatever the
    service answers or fails to answer), the test cases generated for a list
    of N control points carry the identifiers of 1, 2, ..., N in this order,
    one per control point: "CT-" and the decimal digits of the index, with
    zeros on the left up to three digits ("CT-001", "CT-002", ...). *)
Theorem test_case_ids_contiguous {U : Unicode} {Sv : Services}
    (has_pdc : str) (use_ai_tests : bool) (pdc_list : list str) (w : World) :
  exists test_cases w',
    generate_test_cases has_pdc use_ai_tests pdc_list w = (Return test_cases, w')
    /\ List.map tc_ID test_cases = List.map ct_id (seq 1 (length pdc_list))
    /\ List.map tc_PDC test_cases = pdc_list
    /\ (forall index,
          ct_id index = py "CT-" ++ format_03d index
          /\ forallb is_decimal_digit (format_03d index) = true
          /\ decimal_value (format_03d index) = index
          /\ length (format_03d index) = Nat.max 3 (length (decimal index))
          /\ ((index < 1000)%nat -> length (format_03d index) = 3%nat))
    /\ ct_id 1 = py "CT-001" /\ ct_id 2 = py "CT-002" /\ ct_id 10 = py "CT-010".
Proof.
  destruct (generate_test_cases_returns has_pdc use_ai_tests pdc_list w)
    as [test_cases [w' [Hrun [Hids [Hpdcs _]]]]].
  exists test_cases, w'. repeat split; try assumption; try reflexivity.
  - apply format_03d_digits.
  - apply format_03d_value.
  - apply format_03d_length.
  - apply format_03d_three.
Qed.

Lemma seq_all_le n : Forall (fun i => Nat.leb i n = true) (seq 1 n).
Proof. apply List.Forall_forall. intros i Hi. apply in_seq in Hi. apply Nat.leb_le. lia. Qed.

(** C6. In the loop of the fifth tab the flag [is_manual] is
    [has_pdc.startswith("Oui") and i <= len(pdc_list)] with [i] from 1 to
    [len(pdc_list)]: the comparison holds for every item, so once the user
    said that control points are imported, every test case is of type
    "Manuel", in every mode. *)
Theorem imported_pdcs_all_manual {U : Unicode} {Sv : Services}
    (has_pdc : str) (use_ai_tests : bool) (pdc_list : list str) (w : World) :
  PyStr.startswith has_pdc (py "Oui") = true ->
  exists test_cases w',
    generate_test_cases has_pdc use_ai_tests pdc_list w = (Return test_cases, w')
    /\ length test_cases = length pdc_list
    /\ Forall (fun i => Nat.leb i (length pdc_list) = true) (seq 1 (length pdc_list))
    /\ Forall (fun tc => tc_Type tc = py "Manuel") test_cases.
Proof.
  intros Houi.
  destruct (generate_test_cases_returns has_pdc use_ai_tests pdc_list w)
    as [test_cases [w' [Hrun [Hids [Hpdcs Htypes]]]]].
  exists test_cases, w'. split; [exact Hrun|]. split; [|split].
  - rewrite <- (length_map tc_PDC test_cases). now rewrite Hpdcs.
  - apply seq_all_le.
  - apply List.Forall_forall. intros tc Htc.
    apply (in_map tc_Type) in Htc. rewrite Htypes in Htc.
    apply in_map_iff in Htc as [i [Hi Hin]].
    rewrite Houi in Hi. apply in_seq in Hin.
    replace (Nat.leb i (length pdc_list)) with true in Hi
      by (symmetry; apply Nat.leb_le; lia).
    now rewrite <- Hi.
Qed.

(** C6, at work: one imported control point, no service. *)
Lemma imported_pdcs_all_manual_witness :
  exists test_cases w',
    generate_test_cases (U := latin1) (Sv := offline)
      (py "Oui, j'ai des PDC existants") false
      [py "Vérifier que le compte est actif."] new_session = (Return test_cases, w')
    /\ length test_cases = 1%nat
    /\ Forall (fun i => Nat.leb i 1 = true) (seq 1 1)
    /\ Forall (fun tc => tc_Type tc = py "Manuel") test_cases.
Proof.
  apply (imported_pdcs_all_manual (U := latin1) (Sv := offline)
           (py "Oui, j'ai des PDC existants") false
           [py "Vérifier que le compte est actif."] new_session).
  vm_compute. reflexivity.
Defined.

(* ===================================================================== *)
(** * The test case for an answer that cannot be read *)
(* ===================================================================== *)

Lemma templates_longer pdc d : In d (templates pdc) -> (length pdc < length d)%nat.
Proof.
  unfold templates. intros [<-|[<-|[<-|[]]]]; rewrite length_app;
    match goal with |- (_ < length (py ?s) + _)%nat =>
      let n := eval vm_compute in (length (py s)) in
      change (length (py s)) with n end; lia.
Qed.

Section Fallback.
Context {U : Unicode} {Sv : Services}.

(** When no field is found, every field takes its default. *)
Lemma parsed_case_no_match result pdc index is_manual :
  Re.search true desc_pattern result = None ->
  Re.search true steps_pattern result = None ->
  Re.search true expected_pattern result = None ->
  parsed_case result pdc index is_manual = fallback_case pdc index is_manual.
Proof. unfold parsed_case. now intros -> -> ->. Qed.

Lemma create_test_case_heuristic pdc index is_manual w :
  exists tc w',
    create_test_case pdc index is_manual false w = (Return tc, w')
    /\ tc_ID tc = ct_id index /\ tc_Type tc = type_of is_manual /\ tc_PDC tc = pdc
    /\ tc_Etapes tc = default_steps pdc
    /\ tc_Resultat_attendu tc = default_expected pdc
    /\ (is_manual = true -> tc_Description tc = pdc)
    /\ (is_manual = false -> In (tc_Description tc) (templates pdc)).
Proof.
  unfold create_test_case, random_choice, next_random_draw, bind, ret.
  destruct is_manual; cbv beta iota zeta delta [negb].
  - eexists _, _. repeat split. discriminate.
  - eexists _, _. split; [reflexivity|]. cbn [tc_ID tc_Type tc_PDC tc_Etapes
      tc_Resultat_attendu tc_Description]. repeat split; [discriminate|].
    intros _. apply nth_In. apply Nat.mod_upper_bound. discriminate.
Qed.

End Fallback.

(** C3, as amended. An answer of the service in which none of the three
    fields is found gives the fallback record: identifier, type and control
    point as asked, the control point itself as description, the three
    standard steps and the standard expected result. The heuristic mode
    gives that same record when [is_manual] is true. When [is_manual] is
    false its description is one of the three templates, which is never the
    control point itself: the two records then agree on every field but the
    description. (Searching a string raises nothing, so no answer makes the
    parsing raise.) *)
Theorem unparseable_answer_fallback {U : Unicode} {Sv : Services}
    (pdc : str) (index : nat) (is_manual : bool) (w : World) (answer : str) :
  azure_connect (azure_calls w) = inr tt ->
  azure_complete (S (azure_calls w)) (test_case_prompt pdc) = inr answer ->
  Re.search true desc_pattern (PyStr.strip answer) = None ->
  Re.search true steps_pattern (PyStr.strip answer) = None ->
  Re.search true expected_pattern (PyStr.strip answer) = None ->
  (exists w', create_test_case pdc index is_manual true w
              = (Return (fallback_case pdc index is_manual), w'))
  /\ (exists tc w',
        create_test_case pdc index is_manual false w = (Return tc, w')
        /\ tc_ID tc = tc_ID (fallback_case pdc index is_manual)
        /\ tc_Type tc = tc_Type (fallback_case pdc index is_manual)
        /\ tc_PDC tc = tc_PDC (fallback_case pdc index is_manual)
        /\ tc_Etapes tc = tc_Etapes (fallback_case pdc index is_manual)
        /\ tc_Resultat_attendu tc = tc_Resultat_attendu (fallback_case pdc index is_manual)
        /\ (is_manual = true -> tc = fallback_case pdc index is_manual)
        /\ (is_manual = false ->
            In (tc_Description tc) (templates pdc)
            /\ tc_Description tc <> tc_Description (fallback_case pdc index is_manual))).
Proof.
  intros Hconnect Hanswer Hdesc Hsteps Hexpected. split.
  - unfold create_test_case, setup_azure_openai, generate_with_azure_openai,
      st_error, next_azure_call, emit, bind, ret.
    cbv beta iota zeta delta [negb]. rewrite Hconnect. cbv beta iota zeta.
    cbn [azure_calls]. rewrite Hanswer. cbv beta iota zeta.
    destruct (truthy (Some (PyStr.strip answer))) as [result|] eqn:Hres.
    + assert (result = PyStr.strip answer) as ->
        by (destruct (PyStr.strip answer); simpl in Hres; congruence).
      rewrite parsed_case_no_match by assumption. eauto.
    + eauto.
  - destruct (create_test_case_heuristic pdc index is_manual w)
      as [tc [w' [Hrun [Hid [Hty [Hpdc [Hst [Hex [Hman Hauto]]]]]]]]].
    exists tc, w'. split; [exact Hrun|]. cbn [fallback_case tc_ID tc_Type tc_PDC
      tc_Etapes tc_Resultat_attendu tc_Description].
    do 5 (split; [assumption|]). split.
    + intros Hm. specialize (Hman Hm). destruct tc; cbn in *. unfold fallback_case.
      congruence.
    + intros Hm. specialize (Hauto Hm). split; [exact Hauto|].
      intros Heq. apply templates_longer in Hauto. rewrite Heq in Hauto. lia.
Qed.

(** C3, at work: the service answers "n/a" for an automatic test case. *)
Lemma unparseable_answer_fallback_witness :
  (exists w', create_test_case (U := latin1) (Sv := answering (py "n/a"))
                (py "Vérifier que le compte est actif.") 1 false true new_session
              = (Return (fallback_case (py "Vérifier que le compte est actif.") 1 false), w'))
  /\ (exists tc w',
        create_test_case (U := latin1) (Sv := answering (py "n/a"))
          (py "Vérifier que le compte est actif.") 1 false false new_session = (Return tc, w')
        /\ tc_ID tc = tc_ID (fallback_case (py "Vérifier que le compte est actif.") 1 false)
        /\ tc_Type tc = tc_Type (fallback_case (py "Vérifier que le compte est actif.") 1 false)
        /\ tc_PDC tc = tc_PDC (fallback_case (py "Vérifier que le compte est actif.") 1 false)
        /\ tc_Etapes tc
           = tc_Etapes (fallback_case (py "Vérifier que le compte est actif.") 1 false)
        /\ tc_Resultat_attendu tc
           = tc_Resultat_attendu (fallback_case (py "Vérifier que le compte est actif.") 1 false)
        /\ (false = true ->
            tc = fallback_case (py "Vérifier que le compte est actif.") 1 false)
        /\ (false = false ->
            In (tc_Description tc) (templates (py "Vérifier que le compte est actif."))
            /\ tc_Description tc
               <> tc_Description (fallback_case (py "Vérifier que le compte est actif.") 1 false))).
Proof.
  refine (unparseable_answer_fallback (U := latin1) (Sv := answering (py "n/a"))
            (py "Vérifier que le compte est actif.") 1 false new_session (py "n/a") _ _ _ _ _);
    vm_compute; reflexivity.
Defined.

(** C3, the claim as it stands fails: for an automatic test case the answer
    "n/a" gives the control point as description, while the heuristic mode
    gives a template around it, whichever of the three is drawn. *)
Lemma unparseable_answer_differs :
  fst (create_test_case (U := latin1) (Sv := answering (py "n/a"))
         (py "Vérifier que le compte est actif.") 1 false true new_session)
  = Return {| tc_ID := py "CT-001";
              tc_Type := py "Auto-généré";
              tc_PDC := py "Vérifier que le compte est actif.";
              tc_Description := py "Vérifier que le compte est actif.";
              tc_Etapes := default_steps (py "Vérifier que le compte est actif.");
              tc_Resultat_attendu := py "Vérifier que le compte est actif. est correctement implémenté" |}
  /\ fst (create_test_case (U := latin1) (Sv := answering (py "n/a"))
            (py "Vérifier que le compte est actif.") 1 false false new_session)
     = Return {| tc_ID := py "CT-001";
                 tc_Type := py "Auto-généré";
                 tc_PDC := py "Vérifier que le compte est actif.";
                 tc_Description := py "Le système doit satisfaire : Vérifier que le compte est actif.";
                 tc_Etapes := default_steps (py "Vérifier que le compte est actif.");
                 tc_Resultat_attendu := py "Vérifier que le compte est actif. est correctement implémenté" |}
  /\ forallb (fun d => negb (bool_decide (d = py "Vérifier que le compte est actif.")))
             (templates (py "Vérifier que le compte est actif.")) = true.
Proof. split; [|split]; vm_compute; reflexivity. Qed.

(* ===================================================================== *)
(** * Control points from rules *)
(* ===================================================================== *)

(** The script never stores anything under the key 'nlp'. *)
Lemma reachable_no_nlp s : reachable s -> s !! "nlp"%string = None.
Proof.
  induction 1 as [|s s' _ IH Hstep]; [apply lookup_empty|].
  destruct Hstep as [s key v Hkey].
  rewrite lookup_insert_ne; [exact IH|].
  intros ->. cbn in Hkey.
  repeat (destruct Hkey as [Hkey|Hkey]; [discriminate Hkey|]). exact Hkey.
Qed.

Section GeneratePdc.
Context {U : Unicode} {Sv : Services}.

(** Without a value under 'nlp' the function shows the error and returns
    the fallback phrasing, whatever [use_ai] says; nothing else changes. *)
Lemma generate_pdc_no_model rule use_ai w :
  session_state w !! "nlp"%string = None ->
  generate_pdc_from_rule rule use_ai w
  = (Return (py "Vérifier que " ++ rule),
     MkWorld (session_state w) (events w ++ [StError (py "Modèle NLP non chargé")])
             (azure_calls w) (random_draws w)).
Proof.
  intros Hnlp. unfold generate_pdc_from_rule, session_get, bind at 1. rewrite Hnlp.
  rewrite (bool_decide_eq_false_2 (is_Some None)) by (intros [? ?]; discriminate).
  rewrite orb_true_r. reflexivity.
Qed.

Lemma generate_pdc_with_model rule nlp w :
  session_state w !! "nlp"%string = Some (VModel nlp) ->
  generate_pdc_from_rule rule false w
  = (Return (capitalize (match verbs_of (nlp rule) with
                         | verb :: _ => verb
                         | [] => py "vérifier"
                         end) ++ py " que " ++ rule),
     MkWorld (session_state w) (events w ++ [NlpCall rule])
             (azure_calls w) (random_draws w)).
Proof.
  intros Hnlp. unfold generate_pdc_from_rule, session_get, bind at 1. rewrite Hnlp.
  reflexivity.
Qed.

End GeneratePdc.

(** C10. In every session the script can reach, nothing is stored under the
    key 'nlp' (no statement assigns it), and [generate_pdc_from_rule] takes
    the branch without a model for every rule and both values of [use_ai]:
    it shows "Modèle NLP non chargé" and returns "Vérifier que <rule>". The
    world it leaves differs from the one it found by that message alone: no
    request went to the service and the pipeline was not run. *)
Theorem generate_pdc_without_model {U : Unicode} {Sv : Services}
    (rule : str) (use_ai : bool) (w : World) :
  reachable (session_state w) ->
  session_state w !! "nlp"%string = None
  /\ generate_pdc_from_rule rule use_ai w
     = (Return (py "Vérifier que " ++ rule),
        MkWorld (session_state w) (events w ++ [StError (py "Modèle NLP non chargé")])
                (azure_calls w) (random_draws w)).
Proof.
  intros Hreach. pose proof (reachable_no_nlp _ Hreach) as Hnlp.
  split; [exact Hnlp | now apply generate_pdc_no_model].
Qed.

(** C10, at work: a session that holds an extracted text, a service that
    would answer, and [use_ai] set. *)
Lemma generate_pdc_without_model_witness :
  session_state (MkWorld (<["text"%string := VStr (py "Le client doit payer la facture.")]> ∅)
                         [] O O) !! "nlp"%string = None
  /\ generate_pdc_from_rule (U := latin1) (Sv := answering (py "Contrôler le paiement."))
       (py "Le client doit payer la facture.") true
       (MkWorld (<["text"%string := VStr (py "Le client doit payer la facture.")]> ∅) [] O O)
     = (Return (py "Vérifier que " ++ py "Le client doit payer la facture."),
        MkWorld (session_state
                   (MkWorld (<["text"%string := VStr (py "Le client doit payer la facture.")]> ∅)
                            [] O O))
                (events (MkWorld (<["text"%string := VStr (py "Le client doit payer la facture.")]> ∅)
                                 [] O O)
                 ++ [StError (py "Modèle NLP non chargé")])
                (azure_calls
                   (MkWorld (<["text"%string := VStr (py "Le client doit payer la facture.")]> ∅)
                            [] O O))
                (random_draws
                   (MkWorld (<["text"%string := VStr (py "Le client doit payer la facture.")]> ∅)
                            [] O O))).
Proof.
  refine (generate_pdc_without_model (U := latin1)
            (Sv := answering (py "Contrôler le paiement."))
            (py "Le client doit payer la facture.") true
            (MkWorld (<["text"%string := VStr (py "Le client doit payer la facture.")]> ∅) [] O O)
            _).
  cbn [session_state]. eapply reachable_step; [apply reachable_fresh|].
  constructor. cbn. auto.
Defined.

(** The verbs of a document are the texts of its tokens tagged "VERB", in
    their order. *)
Lemma verbs_of_first doc before verb after :
  doc_tokens doc = before ++ verb :: after ->
  Forall (fun token => tok_pos token <> py "VERB") before ->
  tok_pos verb = py "VERB" ->
  exists others, verbs_of doc = tok_text verb :: others.
Proof.
  intros Htokens Hbefore Hverb. unfold verbs_of. rewrite Htokens, List.filter_app.
  assert (List.filter (fun token => bool_decide (tok_pos token = py "VERB")) before = [])
    as ->.
  { clear Htokens. induction Hbefore as [|token before Htoken _ IH]; [reflexivity|].
    cbn [List.filter]. rewrite bool_decide_eq_false_2 by exact Htoken. exact IH. }
  cbn [app List.filter]. rewrite bool_decide_eq_true_2 by exact Hverb.
  cbn [List.map]. eauto.
Qed.

Lemma verbs_of_none doc :
  Forall (fun token => tok_pos token <> py "VERB") (doc_tokens doc) -> verbs_of doc = [].
Proof.
  intros Hnone. unfold verbs_of.
  induction Hnone as [|token tokens Htoken _ IH]; [reflexivity|].
  cbn [List.filter]. rewrite bool_decide_eq_false_2 by exact Htoken. exact IH.
Qed.

(** C9. With a pipeline stored under 'nlp' and [use_ai] off, the control
    point is "<Action> que <rule>", where the action is the text of the
    first token that the pipeline tags "VERB", capitalized, or "vérifier"
    capitalized when it tags none so. With Python's case tables, which
    capitalize "vérifier" as "Vérifier", a rule without a detected verb
    gives "Vérifier que <rule>"; so does "Le client doit payer la
    facture.". *)
Theorem generate_pdc_heuristic {U : Unicode} {Sv : Services}
    (rule : str) (nlp : Language) (w : World) :
  session_state w !! "nlp"%string = Some (VModel nlp) ->
  (forall before verb after,
     doc_tokens (nlp rule) = before ++ verb :: after ->
     Forall (fun token => tok_pos token <> py "VERB") before ->
     tok_pos verb = py "VERB" ->
     fst (generate_pdc_from_rule rule false w)
     = Return (capitalize (tok_text verb) ++ py " que " ++ rule))
  /\ (Forall (fun token => tok_pos token <> py "VERB") (doc_tokens (nlp rule)) ->
      fst (generate_pdc_from_rule rule false w)
      = Return (capitalize (py "vérifier") ++ py " que " ++ rule))
  /\ (Forall (fun token => tok_pos token <> py "VERB") (doc_tokens (nlp rule)) ->
      capitalize (py "vérifier") = py "Vérifier" ->
      fst (generate_pdc_from_rule rule false w) = Return (py "Vérifier que " ++ rule))
  /\ (Forall (fun token => tok_pos token <> py "VERB") (doc_tokens (nlp rule)) ->
      capitalize (py "vérifier") = py "Vérifier" ->
      rule = py "Le client doit payer la facture." ->
      fst (generate_pdc_from_rule rule false w)
      = Return (py "Vérifier que Le client doit payer la facture.")).
Proof.
  intros Hnlp. rewrite (generate_pdc_with_model rule nlp w Hnlp). cbn [fst].
  assert (forall r : str, py "Vérifier" ++ py " que " ++ r = py "Vérifier que " ++ r) as Hcat
    by (intros r; vm_compute; reflexivity).
  split; [|split; [|split]].
  - intros before verb after Htokens Hbefore Hverb.
    destruct (verbs_of_first _ _ _ _ Htokens Hbefore Hverb) as [others ->]. reflexivity.
  - intros Hnone. rewrite (verbs_of_none _ Hnone). reflexivity.
  - intros Hnone Hcap. rewrite (verbs_of_none _ Hnone), Hcap, Hcat. reflexivity.
  - intros Hnone Hcap ->. rewrite (verbs_of_none _ Hnone), Hcap, Hcat.
    assert (py "Vérifier que " ++ py "Le client doit payer la facture."
            = py "Vérifier que Le client doit payer la facture.") as ->
      by (vm_compute; reflexivity).
    reflexivity.
Qed.

(** C9, at work: a pipeline that tags "payer" as a verb, and one that tags
    no verb. *)
Lemma generate_pdc_heuristic_witness :
  fst (generate_pdc_from_rule (U := latin1) (Sv := offline)
         (py "Le client doit payer la facture.") false
         (MkWorld (<["nlp"%string := VModel (tagging [py "payer"])]> ∅) [] O O))
  = Return (py "Payer que Le client doit payer la facture.")
  /\ fst (generate_pdc_from_rule (U := latin1) (Sv := offline)
            (py "Le client doit payer la facture.") false
            (MkWorld (<["nlp"%string := VModel tagless]> ∅) [] O O))
     = Return (py "Vérifier que Le client doit payer la facture.").
Proof.
  split.
  - rewrite (proj1 (generate_pdc_heuristic (U := latin1) (Sv := offline)
                      (py "Le client doit payer la facture.") (tagging [py "payer"])
                      (MkWorld (<["nlp"%string := VModel (tagging [py "payer"])]> ∅) [] O O)
                      (lookup_insert_eq _ _ _))
               [ MkToken (py "Le") (py "X") false false (py "Le");
                 MkToken (py "client") (py "X") false false (py "client");
                 MkToken (py "doit") (py "X") false false (py "doit") ]
               (MkToken (py "payer") (py "VERB") false false (py "payer"))
               [ MkToken (py "la") (py "X") false false (py "la");
                 MkToken (py "facture.") (py "X") false false (py "facture.") ]).
    + vm_compute. reflexivity.
    + vm_compute. reflexivity.
    + repeat constructor; cbn [tok_pos]; intros Heq; vm_compute in Heq; discriminate Heq.
    + reflexivity.
  - refine (proj2 (proj2 (proj2
              (generate_pdc_heuristic (U := latin1) (Sv := offline)
                 (py "Le client doit payer la facture.") tagless
                 (MkWorld (<["nlp"%string := VModel tagless]> ∅) [] O O)
                 (lookup_insert_eq _ _ _)))) _ _ _).
    + vm_compute. repeat constructor; intros Heq; discriminate Heq.
    + vm_compute. reflexivity.
    + reflexivity.
Defined.

(* ===================================================================== *)
(** * The extractors: order and duplicates *)
(* ===================================================================== *)

Lemma strongly_sorted_longest_first xs :
  StronglySorted longer_first xs -> sorted_longest_first xs.
Proof.
  induction 1 as [|x xs Hs IH Hall]; intros i j a b Hij Ha Hb.
  - rewrite lookup_nil in Ha. discriminate.
  - destruct j as [|j]; [lia|]. cbn in Hb.
    destruct i as [|i].
    + cbn in Ha. injection Ha as <-.
      rewrite List.Forall_forall in Hall. apply Hall.
      apply list_elem_of_In. eapply list_elem_of_lookup_2, Hb.
    + cbn in Ha. apply (IH i j a b); [lia | assumption..].
Qed.

(** [sorted(xs, key=len, reverse=True)] brings the elements of [xs], each as
    often as it was there, into an order where no string is longer than one
    before it. *)
Lemma sorted_by_len_desc_spec xs :
  sorted_by_len_desc xs ≡ₚ xs /\ sorted_longest_first (sorted_by_len_desc xs).
Proof.
  unfold sorted_by_len_desc. split.
  - apply merge_sort_Permutation.
  - apply strongly_sorted_longest_first, StronglySorted_merge_sort; apply _.
Qed.

(** The sorted list of a set has no string twice. *)
Lemma sorted_set_NoDup (X : gset (list N)) : List.NoDup (sorted_by_len_desc (elements X)).
Proof.
  apply NoDup_ListNoDup.
  rewrite (proj1 (sorted_by_len_desc_spec (elements X))). apply NoDup_elements.
Qed.

Lemma elem_of_sorted_set (X : gset (list N)) x : In x (sorted_by_len_desc (elements X)) <-> x ∈ X.
Proof.
  rewrite <- list_elem_of_In, (proj1 (sorted_by_len_desc_spec (elements X))).
  apply elem_of_elements.
Qed.

(* ===================================================================== *)
(** * Regular expressions: what a match consumed *)
(* ===================================================================== *)

Lemma reaches_refl st : reaches st [] st.
Proof. split; reflexivity. Qed.

Lemma reaches_trans st1 w1 st2 w2 st3 :
  reaches st1 w1 st2 -> reaches st2 w2 st3 -> reaches st1 (w1 ++ w2) st3.
Proof.
  intros [Hb1 Hr1] [Hb2 Hr2]. split.
  - rewrite Hb2, Hb1, rev_app_distr, app_assoc. reflexivity.
  - rewrite Hr1, Hr2, app_assoc. reflexivity.
Qed.

Lemma reaches_pos st w st' : reaches st w st' -> Re.pos st' = (Re.pos st + length w)%nat.
Proof. intros [Hb _]. unfold Re.pos. rewrite Hb, length_app, length_rev. lia. Qed.

Lemma reaches_position text st w st' :
  position_of text st -> reaches st w st' -> position_of text st'.
Proof.
  unfold position_of. intros <- [Hb Hr].
  rewrite Hb, Hr, rev_app_distr, rev_involutive, app_assoc. reflexivity.
Qed.

(** The text between two positions of a subject. *)
Lemma slice_reaches text st w st' :
  position_of text st -> reaches st w st' ->
  Re.slice text (Re.pos st, Re.pos st') = w.
Proof.
  intros Hp Hr. rewrite (reaches_pos _ _ _ Hr). unfold Re.slice, position_of in *.
  cbn [fst snd]. replace (Re.pos st + length w - Re.pos st)%nat with (length w) by lia.
  destruct Hr as [_ Hr]. rewrite <- Hp, Hr.
  unfold Re.pos. rewrite <- (length_rev (Re.before st)), drop_app_length.
  apply take_app_length.
Qed.

Section RunFacts.
Context {U : Unicode}.
Variable ignorecase : bool.

Lemma one_inv p st k res :
  Re.one p st k = Some res ->
  exists c rest', Re.rest st = c :: rest' /\ p c = true
                  /\ k (Re.advance c rest' st) = Some res.
Proof.
  unfold Re.one. destruct (Re.rest st) as [|c rest']; [discriminate|].
  destruct (p c) eqn:Hp; [|discriminate]. eauto.
Qed.

Lemma reaches_advance st c rest' :
  Re.rest st = c :: rest' -> reaches st [c] (Re.advance c rest' st).
Proof. intros Hr. split; [reflexivity | exact Hr]. Qed.

Lemma one_reaches p st k res :
  Re.one p st k = Some res ->
  exists w st1, reaches st w st1 /\ k st1 = Some res.
Proof.
  intros Hone. apply one_inv in Hone as [c [rest' [Hr [_ Hk]]]].
  exists [c], (Re.advance c rest' st). split; [now apply reaches_advance | exact Hk].
Qed.

(** A star hands over to the rest of the pattern at a position further to
    the right, if its body does. *)
Lemma rounds_reaches greedy body k :
  (forall st k' res', body st k' = Some res' ->
     exists w st1, reaches st w st1 /\ k' st1 = Some res') ->
  forall n st res, Re.rounds greedy body k n st = Some res ->
  exists w st1, reaches st w st1 /\ k st1 = Some res.
Proof.
  intros Hbody. induction n as [|n IH]; intros st res Hrun; cbn [Re.rounds] in Hrun.
  - exists [], st. split; [apply reaches_refl | exact Hrun].
  - assert (forall x, body st (fun st1 =>
              if Nat.ltb (Re.pos st) (Re.pos st1)
              then Re.rounds greedy body k n st1 else None) = Some x ->
            exists w st1, reaches st w st1 /\ k st1 = Some x) as Hagain.
    { intros x Hx. apply Hbody in Hx as [w1 [st1 [Hr1 Hx]]].
      destruct (Nat.ltb (Re.pos st) (Re.pos st1)); [|discriminate].
      apply IH in Hx as [w2 [st2 [Hr2 Hx]]].
      exists (w1 ++ w2), st2. split; [eapply reaches_trans; eassumption | exact Hx]. }
    destruct greedy.
    + destruct (body st _) as [x|] eqn:Hb.
      * injection Hrun as <-. now apply Hagain.
      * exists [], st. split; [apply reaches_refl | exact Hrun].
    + destruct (k st) as [x|] eqn:Hk.
      * injection Hrun as <-. exists [], st. split; [apply reaches_refl | exact Hk].
      * now apply Hagain.
Qed.

(** Whatever [run] returns came from the rest of the pattern, called at a
    position further to the right in the same subject. *)
Lemma run_reaches r : forall st k res,
  Re.run ignorecase r st k = Some res -> exists w st1, reaches st w st1 /\ k st1 = Some res.
Proof.
  induction r as [l| |ls| | | | | |r1 IH1 r2 IH2|r1 IH1 r2 IH2|greedy r1 IH1|i r1 IH1];
    intros st k res Hrun; cbn [Re.run] in Hrun;
    try (now apply one_reaches in Hrun).
  - destruct (Re.at_boundary st); [|discriminate].
    exists [], st. split; [apply reaches_refl | exact Hrun].
  - exists [], st. split; [apply reaches_refl | exact Hrun].
  - apply IH1 in Hrun as [w1 [st1 [Hr1 Hrun]]].
    apply IH2 in Hrun as [w2 [st2 [Hr2 Hrun]]].
    exists (w1 ++ w2), st2. split; [eapply reaches_trans; eassumption | exact Hrun].
  - destruct (Re.run ignorecase r1 st k) as [x|] eqn:H1.
    + injection Hrun as <-. now apply IH1.
    + now apply IH2.
  - eapply rounds_reaches; [|exact Hrun]. exact IH1.
  - apply IH1 in Hrun as [w1 [st1 [[Hb Hr] Hrun]]].
    eexists w1, _. split; [|exact Hrun]. split; [exact Hb | exact Hr].
Qed.

Lemma match_at_reaches r st st' :
  Re.match_at ignorecase r st = Some st' -> exists w, reaches st w st'.
Proof.
  unfold Re.match_at. intros Hm. apply run_reaches in Hm as [w [st1 [Hr Hk]]].
  injection Hk as <-. eauto.
Qed.

Lemma shift_position text st st1 :
  position_of text st -> Re.shift st = Some st1 -> position_of text st1.
Proof.
  unfold Re.shift, position_of. destruct (Re.rest st) as [|c rest'] eqn:Hr; [discriminate|].
  intros <- [= <-]. cbn. rewrite <- app_assoc. reflexivity.
Qed.

(** Every match [re.finditer] yields is what the pattern consumed from some
    position of the text. *)
Lemma finditer_from_matches r text fuel : forall st m,
  position_of text st ->
  In m (Re.finditer_from ignorecase r text fuel st) ->
  exists st0 w st',
    position_of text st0 /\ Re.match_at ignorecase r st0 = Some st'
    /\ reaches st0 w st' /\ Re.group0 m = w.
Proof.
  induction fuel as [|fuel IH]; intros st m Hp Hin; [destruct Hin|].
  cbn [Re.finditer_from] in Hin.
  assert (forall x, match Re.shift st with
                    | Some st1 => Re.finditer_from ignorecase r text fuel st1
                    | None => []
                    end = x -> In m x ->
          exists st0 w st',
            position_of text st0 /\ Re.match_at ignorecase r st0 = Some st'
            /\ reaches st0 w st' /\ Re.group0 m = w) as Hshift.
  { intros x <- Hx. destruct (Re.shift st) as [st1|] eqn:Hs; [|destruct Hx].
    eapply IH; [|exact Hx]. eapply shift_position; eassumption. }
  destruct (Re.match_at ignorecase r st) as [st'|] eqn:Hm.
  - destruct (match_at_reaches _ _ _ Hm) as [w Hr].
    destruct Hin as [<-|Hin].
    + exists st, w, st'. repeat split; try assumption; try apply Hr.
      unfold Re.group0, Re.found. cbn [Re.subject Re.span]. now apply slice_reaches.
    + destruct (Nat.ltb (Re.pos st) (Re.pos st')).
      * eapply IH; [|exact Hin]. unfold position_of. cbn [Re.before Re.rest].
        eapply reaches_position; eassumption.
      * eapply Hshift; [reflexivity | exact Hin].
  - eapply Hshift; [reflexivity | exact Hin].
Qed.

Lemma findall_matches r text m :
  In m (Re.findall ignorecase r text) ->
  exists st0 st', position_of text st0 /\ Re.match_at ignorecase r st0 = Some st'
                  /\ reaches st0 m st'.
Proof.
  unfold Re.findall, Re.finditer. intros Hin. apply in_map_iff in Hin as [mo [<- Hin]].
  apply finditer_from_matches in Hin as [st0 [w [st' [Hp [Hm [Hr <-]]]]]]; [eauto|].
  reflexivity.
Qed.

End RunFacts.

(* ===================================================================== *)
(** * The control-point extractor *)
(* ===================================================================== *)

(** A character that is no whitespace, put after a text that ends in a word,
    makes that word longer and no new one. *)
Lemma split_go_snoc c : PyStr.is_space c = false -> forall s cur,
  (s = [] -> cur <> []) ->
  starts_with_space (rev s) = false ->
  length (PyStr.split_go cur (s ++ [c])) = length (PyStr.split_go cur s).
Proof.
  intros Hc. induction s as [|d s IH]; intros cur Hcur Hlast.
  - cbn [app PyStr.split_go]. rewrite Hc. destruct cur; [now contradiction Hcur | reflexivity].
  - cbn [app PyStr.split_go].
    assert (s <> [] -> starts_with_space (rev s) = false) as Hlast'.
    { intros Hs. cbn [rev] in Hlast. destruct (rev s) eqn:Hr; [|exact Hlast].
      apply (f_equal (@rev N)) in Hr. rewrite rev_involutive in Hr. now contradiction Hs. }
    destruct (PyStr.is_space d) eqn:Hd.
    + destruct s as [|e s]; [cbn [rev app starts_with_space] in Hlast; congruence|].
      assert (length (PyStr.split_go [] ((e :: s) ++ [c]))
              = length (PyStr.split_go [] (e :: s))) as Heq
        by (apply IH; [discriminate | now apply Hlast']).
      destruct cur; cbn [length]; now rewrite Heq.
    + apply IH; [discriminate|].
      destruct s; [reflexivity | now apply Hlast'].
Qed.

Lemma word_count_snoc s c :
  PyStr.is_space c = false -> trimmed s = true -> s <> [] ->
  word_count (s ++ [c]) = word_count s.
Proof.
  intros Hc Ht Hs. unfold word_count, PyStr.split. apply split_go_snoc; [exact Hc | tauto |].
  unfold trimmed in Ht. apply andb_prop in Ht as [_ Ht]. now apply negb_true_iff in Ht.
Qed.

Lemma leading_periods_app a b :
  match b with c :: _ => c <> PyStr.PERIOD | [] => True end ->
  leading_periods (a ++ b) = leading_periods a.
Proof.
  intros Hb. induction a as [|d a IH]; cbn.
  - destruct b as [|c b]; [reflexivity|]. cbn. now destruct (N.eqb_spec c PyStr.PERIOD).
  - now rewrite IH.
Qed.


Lemma add_all_keep_pdc ms : forall (acc : gset (list N)) x,
  x ∈ add_all keep_pdc ms acc ->
  x ∈ acc \/ exists m, In m ms /\ (3 < word_count (PyStr.strip m))%nat /\ x = normalized_pdc m.
Proof.
  unfold add_all. induction ms as [|m ms IH]; intros acc x Hx; cbn [fold_left] in Hx; [auto|].
  apply IH in Hx as [Hx|[m' [Hin Hm']]].
  - unfold keep_pdc in Hx. fold (word_count (PyStr.strip m)) in Hx.
    destruct (Nat.ltb_spec 3 (word_count (PyStr.strip m))) as [Hwc|Hwc]; [|auto].
    apply elem_of_union in Hx as [Hx|Hx]; [|auto].
    apply elem_of_singleton in Hx. right. exists m. cbn. auto.
  - right. exists m'. cbn. auto.
Qed.

(** Every control point returned is a match of one of the two patterns, of
    more than three words, stripped and closed by a period. *)
Lemma extract_pdc_from_text_inv {U : Unicode} text x :
  In x (extract_pdc_from_text text) ->
  exists pattern m,
    In pattern pdc_patterns /\ In m (Re.findall true pattern text)
    /\ (3 < word_count (PyStr.strip m))%nat /\ x = normalized_pdc m.
Proof.
  unfold extract_pdc_from_text. rewrite elem_of_sorted_set.
  unfold pdc_patterns. cbn [fold_left]. intros Hx.
  apply add_all_keep_pdc in Hx as [Hx|[m [Hin Hm]]].
  - apply add_all_keep_pdc in Hx as [Hx|[m [Hin Hm]]].
    + now apply elem_of_empty in Hx.
    + eexists _, m. split; [left; reflexivity | auto].
  - eexists _, m. split; [right; left; reflexivity | auto].
Qed.

Lemma word_count_nil : word_count [] = O.
Proof. reflexivity. Qed.

(** What the extractor does to a match keeps its words. *)
Lemma normalized_pdc_shape m :
  (3 < word_count (PyStr.strip m))%nat ->
  word_count (normalized_pdc m) = word_count (PyStr.strip m)
  /\ trimmed (normalized_pdc m) = true
  /\ PyStr.endswith (normalized_pdc m) (py ".") = true.
Proof.
  intros Hwc. unfold normalized_pdc.
  destruct (PyStr.endswith (PyStr.strip m) (py ".")) eqn:He.
  - split; [reflexivity|]. split; [apply strip_trimmed | exact He].
  - rewrite py_period. split; [|split].
    + apply word_count_snoc; [reflexivity | apply strip_trimmed|].
      intros Hnil. rewrite Hnil, word_count_nil in Hwc. lia.
    + apply trimmed_snoc; [apply strip_trimmed | reflexivity].
    + rewrite <- py_period, endswith_trailing, trailing_periods_snoc. reflexivity.
Qed.

Lemma reaches_unique st w w' st' : reaches st w st' -> reaches st w' st' -> w = w'.
Proof. intros [_ H1] [_ H2]. rewrite H1 in H2. now apply app_inv_tail in H2. Qed.

Section PatternFacts.
Context {U : Unicode}.
Variable ignorecase : bool.

(** A lazy [.*?] before one character of a class stops at the first
    character of the class. *)
Lemma lazy_any_then p n : forall st res,
  Re.rounds false (Re.run ignorecase Re.Any) (fun s => Re.one p s Some) n st = Some res ->
  exists w c, reaches st (w ++ [c]) res /\ p c = true /\ Forall (fun d => p d = false) w.
Proof.
  induction n as [|n IH]; intros st res Hrun; cbn [Re.rounds] in Hrun.
  - apply one_inv in Hrun as [c [rest' [Hr [Hp [= <-]]]]].
    exists [], c. split; [now apply reaches_advance | auto].
  - destruct (Re.one p st Some) as [x|] eqn:Hone.
    + injection Hrun as <-. apply one_inv in Hone as [c [rest' [Hr [Hp [= <-]]]]].
      exists [], c. split; [now apply reaches_advance | auto].
    + cbn [Re.run] in Hrun. apply one_inv in Hrun as [d [rest' [Hr [_ Hrun]]]].
      destruct (Nat.ltb (Re.pos st) (Re.pos (Re.advance d rest' st))); [|discriminate].
      apply IH in Hrun as [w [c [Hreach [Hp Hw]]]].
      exists (d :: w), c. split; [|split; [exact Hp|]].
      * apply (reaches_trans st [d] (Re.advance d rest' st) (w ++ [c]) res);
          [now apply reaches_advance | exact Hreach].
      * constructor; [|exact Hw]. unfold Re.one in Hone. rewrite Hr in Hone.
        now destruct (p d).
Qed.

(** A literal string consumes as many characters, each matching its own. *)
Lemma lits_inv s : forall st k res,
  Re.run ignorecase (Re.lits s) st k = Some res ->
  exists w st1, reaches st w st1 /\ k st1 = Some res
                /\ Forall2 (fun c l => Re.lit_matches ignorecase l c = true) w s.
Proof.
  induction s as [|l s IH]; intros st k res Hrun; cbn [Re.lits foldr Re.run] in Hrun.
  - exists [], st. split; [apply reaches_refl | auto].
  - apply one_inv in Hrun as [c [rest' [Hr [Hc Hrun]]]].
    apply IH in Hrun as [w [st1 [Hreach [Hk Hw]]]].
    exists (c :: w), st1. split; [|auto].
    apply (reaches_trans st [c] (Re.advance c rest' st) w st1);
      [now apply reaches_advance | exact Hreach].
Qed.

Lemma Forall2_last {A B} (R : A -> B -> Prop) w s s0 l :
  Forall2 R w s -> s = s0 ++ [l] -> exists w0 c, w = w0 ++ [c] /\ R c l.
Proof.
  intros HF ->. apply Forall2_app_inv_r in HF as [w0 [w1 [H0 [H1 ->]]]].
  inversion H1 as [|c ? w2 ? Hc H2]; subst. inversion H2; subst. eauto.
Qed.

(** A literal string that ends with [l] consumes a text that ends with a
    character matching [l]. *)
Lemma lits_last s s0 l st k res :
  s = s0 ++ [l] ->
  Re.run ignorecase (Re.lits s) st k = Some res ->
  exists w c st1, reaches st (w ++ [c]) st1 /\ k st1 = Some res
                  /\ Re.lit_matches ignorecase l c = true.
Proof.
  intros Hs Hrun. apply lits_inv in Hrun as [w [st1 [Hreach [Hk Hw]]]].
  destruct (Forall2_last _ _ _ _ _ Hw Hs) as [w0 [c [-> Hc]]]. eauto 6.
Qed.

End PatternFacts.

Lemma is_space_whitespace c : PyStr.is_space c = true -> In c PyStr.whitespace.
Proof.
  unfold PyStr.is_space. intros Hc. apply existsb_exists in Hc as [x [Hin Hx]].
  apply N.eqb_eq in Hx. now subst.
Qed.

Section PdcPatterns.
Context {U : Unicode}.

(** No whitespace matches a period, a semicolon or an "r" when case is
    ignored. *)
Hypothesis whitespace_uncased :
  forallb (fun c => negb (uc_caseless c PyStr.PERIOD || uc_caseless c 59 || uc_caseless c 114))
          PyStr.whitespace = true.
(** A period matches itself and no "r". *)
Hypothesis period_period : uc_caseless PyStr.PERIOD PyStr.PERIOD = true.
Hypothesis period_r : uc_caseless PyStr.PERIOD 114 = false.

Lemma uncased_not_space c :
  uc_caseless c PyStr.PERIOD || uc_caseless c 59 || uc_caseless c 114 = true ->
  PyStr.is_space c = false.
Proof.
  intros Hc. destruct (PyStr.is_space c) eqn:Hs; [|reflexivity].
  apply is_space_whitespace in Hs. rewrite forallb_forall in whitespace_uncased.
  apply whitespace_uncased in Hs. rewrite Hc in Hs. discriminate.
Qed.

(** The first pattern: the match ends with the first period or semicolon
    after the trigger, and no period stands before a final period. *)
Lemma first_pattern_end st m st' :
  Re.match_at true
    (Re.cats [Re.Group 1 pdc_triggers; Re.Boundary; lazy_any; Re.In [PyStr.PERIOD; 59]])
    st = Some st' ->
  reaches st m st' ->
  exists a c, m = a ++ [c] /\ PyStr.is_space c = false
              /\ (c = PyStr.PERIOD -> forall a0 d, a = a0 ++ [d] -> d <> PyStr.PERIOD).
Proof.
  unfold Re.match_at, lazy_any. cbn [Re.cats foldr Re.run]. intros Hrun Hm.
  apply run_reaches in Hrun as [w1 [st1 [Hr1 Hrun]]].
  destruct (Re.at_boundary _) eqn:Hb; [|discriminate].
  cbn [Re.rest Re.before] in Hrun.
  apply (lazy_any_then true) in Hrun as [w [c [Hr2 [Hc Hw]]]].
  assert (reaches st (w1 ++ w ++ [c]) st') as Hall
    by (apply (reaches_trans st w1 st1 (w ++ [c]) st' Hr1); exact Hr2).
  rewrite (reaches_unique _ _ _ _ Hm Hall), app_assoc.
  exists (w1 ++ w), c. split; [reflexivity|]. split.
  - apply uncased_not_space. unfold Re.lit_matches in Hc. cbn [existsb] in Hc.
    rewrite orb_false_r in Hc. rewrite Hc. reflexivity.
  - intros -> a0 d Ha ->.
    destruct w as [|e w] using rev_ind.
    + rewrite app_nil_r in Ha. subst w1.
      unfold Re.at_boundary in Hb. cbn [Re.rest Re.before] in Hb.
      destruct Hr1 as [Hb1 Hs1], Hr2 as [_ Hs2]. cbn [Re.rest Re.before app] in *.
      rewrite Hb1, Hs2, rev_app_distr in Hb. cbn in Hb.
      now destruct (uc_word PyStr.PERIOD).
    + rewrite app_assoc in Ha. apply app_inj_tail in Ha as [_ ->].
      apply Forall_app in Hw as [_ Hw]. inversion Hw as [|? ? He _]; subst.
      unfold Re.lit_matches in He. cbn [existsb] in He. rewrite period_period in He.
      discriminate.
Qed.

Lemma uncased_r_end m0 c :
  uc_caseless c 114 = true ->
  PyStr.is_space c = false
  /\ (c = PyStr.PERIOD -> forall a0 d, m0 = a0 ++ [d] -> d <> PyStr.PERIOD).
Proof.
  intros Hc. split.
  - apply uncased_not_space. rewrite Hc. now rewrite orb_true_r.
  - intros ->. rewrite period_r in Hc. discriminate.
Qed.

(** The second pattern: the match ends with the "r" of one of its three
    verbs, in either case. *)
Lemma second_pattern_end st m st' :
  Re.match_at true
    (Re.cats [Re.Group 1 (any_of ["Le système doit"; "Il faut"; "Il est nécessaire de"]);
              lazy_any;
              Re.Group 2 (any_of ["vérifier"; "contrôler"; "s'assurer"])])
    st = Some st' ->
  reaches st m st' ->
  exists a c, m = a ++ [c] /\ PyStr.is_space c = false
              /\ (c = PyStr.PERIOD -> forall a0 d, a = a0 ++ [d] -> d <> PyStr.PERIOD).
Proof.
  unfold Re.match_at, lazy_any. cbn [Re.cats foldr Re.run]. intros Hrun Hm.
  apply run_reaches in Hrun as [w1 [st1 [Hr1 Hrun]]].
  apply rounds_reaches in Hrun as [w2 [st2 [Hr2 Hrun]]];
    [|intros ? ? ?; apply one_reaches].
  assert (exists w c st3, reaches st2 (w ++ [c]) st3
            /\ Re.before st' = Re.before st3 /\ Re.rest st' = Re.rest st3
            /\ uc_caseless c 114 = true) as [w [c [st3 [Hr3 [Hb3 [Hs3 Hc]]]]]].
  { unfold any_of in Hrun. cbn [List.map Re.alts Re.run] in Hrun.
    assert (forall s, Re.run true (Re.lits (py s)) st2
              (fun st4 => Some (Re.State (Re.before st4) (Re.rest st4)
                                  ((2%nat, (Re.pos st2, Re.pos st4)) :: Re.groups st4)))
              = Some st' ->
            List.last (py s) 0 = 114 -> py s <> [] ->
            exists w c st3, reaches st2 (w ++ [c]) st3
              /\ Re.before st' = Re.before st3 /\ Re.rest st' = Re.rest st3
              /\ uc_caseless c 114 = true) as Hverb.
    { intros s Hs Hlast Hne.
      apply (lits_last true (py s) (removelast (py s)) 114) in Hs
        as [w [c [st3 [Hr3 [[= <-] Hc]]]]].
      - exists w, c, st3. auto.
      - rewrite <- Hlast. now apply app_removelast_last. }
    destruct (Re.run true (Re.lits (py "vérifier")) st2 _) as [x|] eqn:H1.
    - injection Hrun as ->. apply (Hverb _ H1); [vm_compute; reflexivity | discriminate].
    - destruct (Re.run true (Re.lits (py "contrôler")) st2 _) as [x|] eqn:H2.
      + injection Hrun as ->. apply (Hverb _ H2); [vm_compute; reflexivity | discriminate].
      + apply (Hverb _ Hrun); [vm_compute; reflexivity | discriminate]. }
  assert (reaches st ((w1 ++ w2) ++ w ++ [c]) st') as Hall.
  { apply (reaches_trans st (w1 ++ w2) st2 (w ++ [c]) st').
    - apply (reaches_trans st w1 st1 w2 st2 Hr1). exact Hr2.
    - destruct Hr3 as [Hb4 Hs4]. split; congruence. }
  rewrite (reaches_unique _ _ _ _ Hm Hall), app_assoc.
  eexists _, c. split; [reflexivity|]. now apply uncased_r_end.
Qed.

(** Either pattern: a match ends with a character that is no whitespace, and
    with a single period if with a period. *)
Lemma pdc_match_end pattern text m :
  In pattern pdc_patterns -> In m (Re.findall true pattern text) ->
  exists a c, m = a ++ [c] /\ PyStr.is_space c = false
              /\ (c = PyStr.PERIOD -> forall a0 d, a = a0 ++ [d] -> d <> PyStr.PERIOD).
Proof.
  intros Hp Hm. apply findall_matches in Hm as [st0 [st' [_ [Hm Hr]]]].
  destruct Hp as [<-|[<-|[]]].
  - eapply first_pattern_end; eassumption.
  - eapply second_pattern_end; eassumption.
Qed.

End PdcPatterns.

Lemma lstrip_snoc c : PyStr.is_space c = false -> forall a,
  exists ws a', a = ws ++ a' /\ PyStr.lstrip (a ++ [c]) = a' ++ [c].
Proof.
  intros Hc. induction a as [|d a IH].
  - exists [], []. cbn [app PyStr.lstrip]. now rewrite Hc.
  - cbn [app PyStr.lstrip]. destruct (PyStr.is_space d).
    + destruct IH as [ws [a' [-> Hl]]]. exists (d :: ws), a'. auto.
    + exists [], (d :: a). auto.
Qed.

Lemma strip_snoc c a :
  PyStr.is_space c = false ->
  exists ws a', a = ws ++ a' /\ PyStr.strip (a ++ [c]) = a' ++ [c].
Proof.
  intros Hc. destruct (lstrip_snoc c Hc a) as [ws [a' [Ha Hl]]].
  exists ws, a'. split; [exact Ha|]. unfold PyStr.strip. rewrite Hl.
  apply rstrip_id. rewrite rev_app_distr. exact Hc.
Qed.

(** A match that ends with no whitespace and with no two periods becomes a
    control point that ends with one period. *)
Lemma normalized_pdc_one_period a c :
  PyStr.is_space c = false ->
  (c = PyStr.PERIOD -> forall a0 d, a = a0 ++ [d] -> d <> PyStr.PERIOD) ->
  trailing_periods (normalized_pdc (a ++ [c])) = 1%nat.
Proof.
  intros Hc Hdot. unfold normalized_pdc.
  destruct (strip_snoc c a Hc) as [ws [a' [Ha ->]]].
  rewrite endswith_period, rev_app_distr. cbn [rev app].
  destruct (N.eqb_spec c PyStr.PERIOD) as [->|Hne].
  - unfold trailing_periods. rewrite rev_app_distr. cbn.
    destruct a' as [|d a'] using rev_ind; [reflexivity|].
    rewrite rev_app_distr. cbn.
    destruct (N.eqb_spec d PyStr.PERIOD) as [->|_]; [|reflexivity].
    exfalso. apply (Hdot eq_refl (ws ++ a') PyStr.PERIOD); [|reflexivity].
    rewrite Ha, app_assoc. reflexivity.
  - rewrite trailing_periods_snoc. unfold trailing_periods. rewrite rev_app_distr. cbn.
    now destruct (N.eqb_spec c PyStr.PERIOD).
Qed.

(** C5, as amended. Every control point the extractor returns has more than
    three words, starts and ends with no whitespace and ends with a period;
    with case tables in which, as in Python's, whitespace and the period are
    uncased, it ends with exactly one period. The whitespace inside a match
    is kept as the text has it: unlike a rule, a control point may contain
    runs of blanks. *)
Theorem extracted_pdc_shape {U : Unicode} (text x : str) :
  In x (extract_pdc_from_text text) ->
  (3 < word_count x)%nat
  /\ trimmed x = true
  /\ PyStr.endswith x (py ".") = true
  /\ (forallb (fun c => negb (uc_caseless c PyStr.PERIOD || uc_caseless c 59
                             || uc_caseless c 114)) PyStr.whitespace = true ->
      uc_caseless PyStr.PERIOD PyStr.PERIOD = true ->
      uc_caseless PyStr.PERIOD 114 = false ->
      trailing_periods x = 1%nat).
Proof.
  intros Hx. apply extract_pdc_from_text_inv in Hx as [pattern [m [Hp [Hm [Hwc ->]]]]].
  destruct (normalized_pdc_shape m Hwc) as [Hw [Ht He]].
  split; [lia|]. split; [exact Ht|]. split; [exact He|].
  intros Hws Hpp Hpr.
  destruct (pdc_match_end Hws Hpp Hpr pattern text m Hp Hm) as [a [c [-> [Hc Hdot]]]].
  now apply normalized_pdc_one_period.
Qed.

(** C5, at work, with the tables of Latin-1. *)
Lemma extracted_pdc_shape_witness :
  (3 < word_count (py "Vérifier que le compte est actif."))%nat
  /\ trimmed (py "Vérifier que le compte est actif.") = true
  /\ PyStr.endswith (py "Vérifier que le compte est actif.") (py ".") = true
  /\ trailing_periods (py "Vérifier que le compte est actif.") = 1%nat.
Proof.
  destruct (extracted_pdc_shape (U := latin1)
              (py "Il faut agir. Vérifier que le compte est actif. Merci.")
              (py "Vérifier que le compte est actif."))
    as [Hwords [Htrim [Hend Hone]]].
  - vm_compute. left. reflexivity.
  - split; [exact Hwords|]. split; [exact Htrim|]. split; [exact Hend|].
    apply Hone; vm_compute; reflexivity.
Defined.

(** C5, the claim as it stands fails: two blanks in a row stay in the
    control point. *)
Lemma extracted_pdc_keeps_blanks :
  extract_pdc_from_text (U := latin1) (py "Vérifier  que le compte est actif.")
  = [py "Vérifier  que le compte est actif."]
  /\ single_spaced (py "Vérifier  que le compte est actif.") = false.
Proof. split; vm_compute; reflexivity. Qed.

(* ===================================================================== *)
(** * The matcher *)
(* ===================================================================== *)

Section Matcher.
Context {U : Unicode} {Np : Numpy}.

Lemma fit_transform_cases raw_documents :
  (Sklearn.vocabulary raw_documents = []
   /\ exists e, Sklearn.fit_transform raw_documents = Raise e)
  \/ (Sklearn.vocabulary raw_documents <> []
      /\ Sklearn.fit_transform raw_documents
         = Return (List.map (fun doc => Sklearn.normalize (Sklearn.tfidf_row raw_documents doc))
                            raw_documents)).
Proof.
  unfold Sklearn.fit_transform.
  destruct (Sklearn.vocabulary raw_documents) eqn:Hv; [left; eauto | right].
  split; [discriminate | reflexivity].
Qed.

Lemma cosine_similarity_empty X Y :
  X = [] \/ Y = [] -> exists e, Sklearn.cosine_similarity X Y = Raise e.
Proof.
  unfold Sklearn.cosine_similarity. intros [->| ->]; [eauto|].
  destruct X; eauto.
Qed.

Lemma cosine_similarity_rows X Y :
  X <> [] -> Y <> [] ->
  Sklearn.cosine_similarity X Y
  = Return (List.map (fun x => List.map (fun y =>
              Sklearn.dot (Sklearn.normalize x) (Sklearn.normalize y)) Y) X).
Proof.
  intros HX HY. unfold Sklearn.cosine_similarity.
  destruct X; [contradiction|]. destruct Y; [contradiction | reflexivity].
Qed.

Lemma take_map_app {A B} (f : A -> B) (xs ys : list A) :
  take (length xs) (List.map f (xs ++ ys)) = List.map f xs.
Proof.
  rewrite List.map_app.
  rewrite <- (length_map f xs) at 1. apply take_app_length.
Qed.

Lemma drop_map_app {A B} (f : A -> B) (xs ys : list A) :
  drop (length xs) (List.map f (xs ++ ys)) = List.map f ys.
Proof.
  rewrite List.map_app.
  rewrite <- (length_map f xs) at 1. apply drop_app_length.
Qed.

(** What [compare_rules_pdc] computes when it computes something. *)
Lemma compare_rules_pdc_value rules pdc_list :
  rules <> [] -> pdc_list <> [] -> Sklearn.vocabulary (rules ++ pdc_list) <> [] ->
  compare_rules_pdc rules pdc_list
  = Return (List.map (fun rule => List.map (fun pdc => score (rules ++ pdc_list) rule pdc)
                                           pdc_list) rules).
Proof.
  intros Hr Hp Hv. unfold compare_rules_pdc.
  destruct (fit_transform_cases (rules ++ pdc_list)) as [[Hv' _]|[_ ->]]; [contradiction|].
  rewrite take_map_app, drop_map_app, cosine_similarity_rows.
  - rewrite List.map_map. apply f_equal, List.map_ext. intros rule.
    rewrite List.map_map. reflexivity.
  - destruct rules; [contradiction | discriminate].
  - destruct pdc_list; [contradiction | discriminate].
Qed.

Lemma compare_rules_pdc_raises rules pdc_list :
  rules = [] \/ pdc_list = [] -> exists e, compare_rules_pdc rules pdc_list = Raise e.
Proof.
  intros Hempty. unfold compare_rules_pdc.
  destruct (fit_transform_cases (rules ++ pdc_list)) as [[_ [e ->]]|[_ ->]]; [eauto|].
  apply cosine_similarity_empty. destruct Hempty as [->| ->].
  - left. reflexivity.
  - right. rewrite app_nil_r. rewrite <- (length_map
      (fun doc => Sklearn.normalize (Sklearn.tfidf_row rules doc)) rules) at 1.
    apply drop_all.
Qed.

(** A matrix that is returned has a row per rule and a column per control
    point, and neither list is empty. *)
Lemma compare_rules_pdc_shape rules pdc_list matrix :
  compare_rules_pdc rules pdc_list = Return matrix ->
  rules <> [] /\ pdc_list <> []
  /\ matrix = List.map (fun rule => List.map (fun pdc => score (rules ++ pdc_list) rule pdc)
                                             pdc_list) rules.
Proof.
  intros Hrun.
  assert (rules <> []) as Hr.
  { intros ->. destruct (compare_rules_pdc_raises [] pdc_list) as [e He]; [now left|].
    rewrite He in Hrun. discriminate. }
  assert (pdc_list <> []) as Hp.
  { intros ->. destruct (compare_rules_pdc_raises rules []) as [e He]; [now right|].
    rewrite He in Hrun. discriminate. }
  split; [exact Hr|]. split; [exact Hp|].
  destruct (fit_transform_cases (rules ++ pdc_list)) as [[_ [e He]]|[Hv _]].
  - unfold compare_rules_pdc in Hrun. rewrite He in Hrun. discriminate.
  - rewrite compare_rules_pdc_value in Hrun by assumption. now injection Hrun as <-.
Qed.

End Matcher.

(** C2. [compare_rules_pdc] raises whenever the rule list or the list of
    control points is empty, whatever the other list holds: either the
    vocabulary is empty, which [fit_transform] refuses, or one side of the
    matrix has no row, which [cosine_similarity] refuses. *)
Theorem compare_rules_pdc_empty {U : Unicode} {Np : Numpy} (rules pdc_list : list str) :
  rules = [] \/ pdc_list = [] ->
  exists e, compare_rules_pdc rules pdc_list = Raise e.
Proof.
  intros Hempty. unfold compare_rules_pdc.
  destruct (fit_transform_cases (rules ++ pdc_list)) as [[_ [e ->]]|[_ ->]]; [eauto|].
  apply cosine_similarity_empty. destruct Hempty as [->| ->].
  - left. reflexivity.
  - right. rewrite app_nil_r. rewrite <- (length_map
      (fun doc => Sklearn.normalize (Sklearn.tfidf_row rules doc)) rules) at 1.
    apply drop_all.
Qed.

(** C2, at work: rules but no control point. *)
Lemma compare_rules_pdc_empty_witness :
  exists e, compare_rules_pdc (U := latin1) (Np := series_log)
              [py "Le client doit payer la facture."] []
            = Raise e.
Proof.
  apply (compare_rules_pdc_empty (U := latin1) (Np := series_log)
           [py "Le client doit payer la facture."] []).
  right. reflexivity.
Defined.

(** ** The terms of a row *)

Section Rows.
Context {U : Unicode} {Np : Numpy}.









End Rows.




(* ===================================================================== *)
(** * Further properties of the script *)
(* ===================================================================== *)

(** ** Pages *)

Lemma pages_up_to n k :
  concat (List.map (page_indices n) (seq 1 k)) = seq 0 (Nat.min (k * items_per_page) n).
Proof.
  induction k as [|k IH]; [reflexivity|].
  rewrite seq_S, List.map_app, concat_app, IH. cbn [List.map concat]. rewrite app_nil_r.
  unfold page_indices, end_idx, start_idx, items_per_page.
  replace (1 + k - 1)%nat with k by lia.
  destruct (Nat.le_gt_cases n (k * 5)) as [Hle|Hgt].
  - replace (Nat.min (k * 5 + 5) n - k * 5)%nat with O by lia.
    cbn [seq]. rewrite app_nil_r. f_equal. lia.
  - replace (Nat.min (k * 5) n) with (k * 5)%nat by lia.
    rewrite <- seq_app. f_equal. lia.
Qed.

Lemma total_pages_covers n : (n <= total_pages n * items_per_page)%nat.
Proof.
  unfold total_pages, items_per_page.
  pose proof (Nat.div_mod_eq (n + 5 - 1) 5). pose proof (Nat.mod_upper_bound (n + 5 - 1) 5).
  lia.
Qed.

(** The pages of a list of [n] items show every index from 0 to [n - 1]
    once and in order; each page shows between one and five items, and
    there is no page only when there is no item. *)
Theorem pages_show_each_item_once (n : nat) :
  concat (List.map (page_indices n) (seq 1 (total_pages n))) = seq 0 n
  /\ (forall page, (1 <= page <= total_pages n)%nat ->
        (1 <= length (page_indices n page) <= items_per_page)%nat)
  /\ (total_pages n = 0%nat <-> n = 0%nat).
Proof.
  split; [|split].
  - rewrite pages_up_to. f_equal. pose proof (total_pages_covers n). lia.
  - intros page [H1 Hp]. unfold page_indices. rewrite length_seq.
    unfold end_idx, start_idx, total_pages, items_per_page in *.
    pose proof (Nat.div_mod_eq (n + 5 - 1) 5). pose proof (Nat.mod_upper_bound (n + 5 - 1) 5).
    nia.
  - unfold total_pages, items_per_page. split.
    + intros Hz. pose proof (Nat.div_mod_eq (n + 5 - 1) 5).
      pose proof (Nat.mod_upper_bound (n + 5 - 1) 5). lia.
    + intros ->. reflexivity.
Qed.

(** ** Identifiers *)

Lemma ct_id_inj i j : ct_id i = ct_id j -> i = j.
Proof.
  unfold ct_id. intros Heq. apply app_inv_head in Heq.
  rewrite <- (format_03d_value i), <- (format_03d_value j). now rewrite Heq.
Qed.

Lemma NoDup_map_injective {A B} (f : A -> B) (l : list A) :
  (forall x y, f x = f y -> x = y) -> List.NoDup l -> List.NoDup (List.map f l).
Proof.
  intros Hinj. induction 1 as [|x l Hx _ IH]; cbn [List.map]; constructor; [|exact IH].
  intros Hin. apply in_map_iff in Hin as [y [Hy Hin]]. apply Hinj in Hy. now subst.
Qed.

(** No two test cases of one run have the same identifier, in any mode and
    whatever the service answers. *)
Theorem test_case_ids_unique {U : Unicode} {Sv : Services}
    (has_pdc : str) (use_ai_tests : bool) (pdc_list : list str) (w : World) :
  exists test_cases w',
    generate_test_cases has_pdc use_ai_tests pdc_list w = (Return test_cases, w')
    /\ List.NoDup (List.map tc_ID test_cases)
    /\ (forall i j, ct_id i = ct_id j -> i = j).
Proof.
  destruct (generate_test_cases_returns has_pdc use_ai_tests pdc_list w)
    as [test_cases [w' [Hrun [Hids _]]]].
  exists test_cases, w'. split; [exact Hrun|]. split; [|exact ct_id_inj].
  rewrite Hids. apply NoDup_map_injective; [exact ct_id_inj | apply List.seq_NoDup].
Qed.

(** ** Where the extracted strings come from *)

Lemma part_of_refl s : part_of s s.
Proof. exists [], []. now rewrite app_nil_r. Qed.

Lemma part_of_trans a b c : part_of a b -> part_of b c -> part_of a c.
Proof.
  intros [b1 [b2 ->]] [c1 [c2 ->]]. exists (c1 ++ b1), (b2 ++ c2).
  now rewrite <- !app_assoc.
Qed.

Lemma strip_part_of s : part_of (PyStr.strip s) s.
Proof. destruct (strip_middle s) as [ws1 [ws2 [Heq _]]]. now exists ws1, ws2. Qed.

(** A match of [re.findall] stands in the text. *)
Lemma findall_part_of {U : Unicode} ignorecase r text m :
  In m (Re.findall ignorecase r text) -> part_of m text.
Proof.
  intros Hin. apply findall_matches in Hin as [st0 [st' [Hp [_ [_ Hr]]]]].
  exists (rev (Re.before st0)), (Re.rest st'). unfold position_of in Hp.
  now rewrite <- Hr.
Qed.

Lemma add_all_inv {A} (f : A -> gset (list N) -> gset (list N)) (P : list N -> Prop) xs :
  (forall a acc x, In a xs -> x ∈ f a acc -> x ∈ acc \/ P x) ->
  forall acc x, x ∈ fold_left (fun acc a => f a acc) xs acc -> x ∈ acc \/ P x.
Proof.
  induction xs as [|a xs IH]; intros Hf acc x Hx; cbn [fold_left] in Hx; [auto|].
  apply IH in Hx as [Hx|Hx]; [|auto|].
  - apply (Hf a acc x); [now left | exact Hx].
  - intros a' acc' x' Hin. apply Hf. now right.
Qed.

Section RuleExtractor.
Context {U : Unicode}.

Lemma extract_business_rules_heuristic_inv text nlp_model x :
  In x (extract_business_rules_heuristic text nlp_model) ->
  exists m, x = clean_rule m /\ rule_source text nlp_model m.
Proof.
  unfold extract_business_rules_heuristic. rewrite elem_of_sorted_set.
  set (by_patterns := fold_left _ rule_patterns ∅).
  assert (forall y, y ∈ by_patterns ->
            exists m, y = clean_rule m
                      /\ exists pattern, In pattern rule_patterns
                                         /\ In m (Re.findall true pattern text)) as Hpat.
  { intros y Hy. unfold by_patterns in Hy.
    apply (add_all_inv (fun pattern rules =>
             add_all (fun m rules => {[ clean_rule m ]} ∪ rules)
                     (Re.findall true pattern text) rules)
             (fun y => exists m, y = clean_rule m
                       /\ exists pattern, In pattern rule_patterns
                                          /\ In m (Re.findall true pattern text)))
      in Hy as [Hy|Hy]; [now apply elem_of_empty in Hy | exact Hy |].
    intros pattern acc z Hpattern Hz. unfold add_all in Hz.
    apply (add_all_inv (fun m rules => {[ clean_rule m ]} ∪ rules)
             (fun z => exists m, z = clean_rule m
                       /\ exists pattern, In pattern rule_patterns
                                          /\ In m (Re.findall true pattern text)))
      in Hz; [exact Hz|].
    intros m acc' z' Hm Hz'. apply elem_of_union in Hz' as [Hz'|Hz']; [|auto].
    apply elem_of_singleton in Hz'. right. exists m. split; [exact Hz' | eauto]. }
  destruct nlp_model as [nlp|].
  - intros Hx. unfold add_all in Hx.
    apply (add_all_inv _ (fun y => exists m, y = clean_rule m
                                     /\ rule_source text (Some nlp) m)) in Hx as [Hx|Hx].
    + apply Hpat in Hx as [m [-> Hm]]. exists m. split; [reflexivity | now left].
    + exact Hx.
    + intros sent acc z Hsent Hz.
      destruct (existsb _ rule_keywords) eqn:Hkey; [|auto].
      fold (word_count sent) in Hz.
      destruct (Nat.ltb_spec 5 (word_count sent)) as [Hwc|Hwc]; [|auto].
      apply elem_of_union in Hz as [Hz|Hz]; [|auto].
      apply elem_of_singleton in Hz. right. exists sent. split; [exact Hz|].
      right. exists nlp. auto.
  - intros Hx. apply Hpat in Hx as [m [-> Hm]]. exists m. split; [reflexivity | now left].
Qed.

End RuleExtractor.

(** What a loop over [set.add] puts into the set. *)
Lemma add_all_grows {A} (f : A -> gset (list N) -> gset (list N)) xs :
  (forall a acc x, x ∈ acc -> x ∈ f a acc) ->
  forall acc x, x ∈ acc -> x ∈ fold_left (fun acc a => f a acc) xs acc.
Proof.
  intros Hf. induction xs as [|a xs IH]; intros acc x Hx; cbn [fold_left]; [exact Hx|].
  apply IH. now apply Hf.
Qed.

Lemma add_all_adds {A} (f : A -> gset (list N) -> gset (list N)) xs a x :
  (forall a acc x, x ∈ acc -> x ∈ f a acc) ->
  In a xs -> (forall acc, x ∈ f a acc) ->
  forall acc, x ∈ fold_left (fun acc a => f a acc) xs acc.
Proof.
  intros Hf Hin Hadd. induction xs as [|b xs IH]; intros acc; [destruct Hin|].
  cbn [fold_left]. destruct Hin as [->|Hin]; [|now apply IH].
  apply add_all_grows; [exact Hf | apply Hadd].
Qed.

Section ExtractorsComplete.
Context {U : Unicode}.

Lemma extract_business_rules_heuristic_complete text nlp_model m :
  rule_source text nlp_model m ->
  In (clean_rule m) (extract_business_rules_heuristic text nlp_model).
Proof.
  intros Hm. unfold extract_business_rules_heuristic. rewrite elem_of_sorted_set.
  set (by_patterns := fold_left _ rule_patterns ∅).
  assert (forall pattern, In pattern rule_patterns -> In m (Re.findall true pattern text) ->
            clean_rule m ∈ by_patterns) as Hpat.
  { intros pattern Hp Hin. unfold by_patterns.
    apply (add_all_adds (fun pattern rules =>
             add_all (fun m rules => {[ clean_rule m ]} ∪ rules)
                     (Re.findall true pattern text) rules) rule_patterns pattern).
    - intros p acc x Hx. unfold add_all. apply add_all_grows; [|exact Hx].
      intros m' acc' x' Hx'. apply elem_of_union. now right.
    - exact Hp.
    - intros acc. unfold add_all.
      apply (add_all_adds (fun m rules => {[ clean_rule m ]} ∪ rules)
               (Re.findall true pattern text) m).
      + intros m' acc' x' Hx'. apply elem_of_union. now right.
      + exact Hin.
      + intros acc'. apply elem_of_union. left. now apply elem_of_singleton. }
  assert (forall (nlp : Language) (sent : str) (acc : gset str) (x : str), x ∈ acc ->
            x ∈ (if existsb (fun keyword => PyStr.contains (lower sent) keyword) rule_keywords
                 then if Nat.ltb 5 (length (PyStr.split sent))
                      then {[ clean_rule sent ]} ∪ acc else acc
                 else acc)) as Hgrow.
  { intros _ sent acc x Hx. destruct (existsb _ _); [|exact Hx].
    destruct (Nat.ltb _ _); [|exact Hx]. apply elem_of_union. now right. }
  destruct Hm as [[pattern [Hp Hin]]|[nlp [-> [Hsent [Hkey Hwords]]]]].
  - destruct nlp_model as [nlp|]; [|now apply (Hpat pattern)].
    unfold add_all. apply add_all_grows; [apply (Hgrow nlp) | now apply (Hpat pattern)].
  - unfold add_all.
    apply (add_all_adds _ (doc_sents (nlp text)) m); [apply (Hgrow nlp) | exact Hsent |].
    intros acc. rewrite Hkey. fold (word_count m).
    replace (Nat.ltb 5 (word_count m)) with true by (symmetry; now apply Nat.ltb_lt).
    apply elem_of_union. left. now apply elem_of_singleton.
Qed.

Lemma keep_pdc_grows (m : str) (acc : gset str) (x : str) : x ∈ acc -> x ∈ keep_pdc m acc.
Proof.
  intros Hx. unfold keep_pdc. destruct (Nat.ltb _ _); [|exact Hx].
  apply elem_of_union. now right.
Qed.

Lemma extract_pdc_from_text_complete text pattern m :
  In pattern pdc_patterns -> In m (Re.findall true pattern text) ->
  (3 < word_count (PyStr.strip m))%nat ->
  In (normalized_pdc m) (extract_pdc_from_text text).
Proof.
  intros Hp Hin Hwords. unfold extract_pdc_from_text. rewrite elem_of_sorted_set.
  apply (add_all_adds (fun pattern pdc_list =>
           add_all keep_pdc (Re.findall true pattern text) pdc_list) pdc_patterns pattern).
  - intros p acc x Hx. unfold add_all. apply add_all_grows; [|exact Hx].
    intros m' acc' x'. apply keep_pdc_grows.
  - exact Hp.
  - intros acc. unfold add_all.
    apply (add_all_adds keep_pdc (Re.findall true pattern text) m).
    + intros m' acc' x'. apply keep_pdc_grows.
    + exact Hin.
    + intros acc'. unfold keep_pdc. fold (word_count (PyStr.strip m)).
      replace (Nat.ltb 3 (word_count (PyStr.strip m))) with true
        by (symmetry; now apply Nat.ltb_lt).
      apply elem_of_union. left. now apply elem_of_singleton.
Qed.

End ExtractorsComplete.

(** C8. The rule extractor in heuristic mode and the control-point extractor
    return, for every text, a list without duplicates in which no string is
    longer than one before it (strings of equal length come in no stated
    order). The list holds what the extractor found and nothing else: every
    cleaned match of a rule pattern and every cleaned sentence that
    qualifies is a rule returned, every match of a control-point pattern of
    more than three words is returned in its normal form. So a qualifying
    sentence that stands twice in the text is returned, and returned
    once. *)
Theorem extractors_dedup_sorted {U : Unicode} (text : str) (nlp_model : option Language) :
  List.NoDup (extract_business_rules_heuristic text nlp_model)
  /\ sorted_longest_first (extract_business_rules_heuristic text nlp_model)
  /\ List.NoDup (extract_pdc_from_text text)
  /\ sorted_longest_first (extract_pdc_from_text text)
  /\ (forall rule,
        In rule (extract_business_rules_heuristic text nlp_model)
        <-> exists m, rule = clean_rule m /\ rule_source text nlp_model m)
  /\ (forall pdc,
        In pdc (extract_pdc_from_text text)
        <-> exists pattern m,
              In pattern pdc_patterns /\ In m (Re.findall true pattern text)
              /\ (3 < word_count (PyStr.strip m))%nat /\ pdc = normalized_pdc m)
  /\ extract_business_rules_heuristic (U := latin1)
       (py "Si le client ne paie pas, alors le compte est suspendu. Si le client ne paie pas, alors le compte est suspendu.")
       None
     = [py "Si le client ne paie pas, alors le compte est suspendu."]
  /\ extract_pdc_from_text (U := latin1)
       (py "Vérifier que le client paie. Vérifier que le client paie.")
     = [py "Vérifier que le client paie."].
Proof.
  split; [apply sorted_set_NoDup|].
  split; [apply sorted_by_len_desc_spec|].
  split; [apply sorted_set_NoDup|].
  split; [apply sorted_by_len_desc_spec|].
  split; [|split].
  - intros rule. split.
    + apply extract_business_rules_heuristic_inv.
    + intros [m [-> Hm]]. now apply extract_business_rules_heuristic_complete.
  - intros pdc. split.
    + apply extract_pdc_from_text_inv.
    + intros [pattern [m [Hp [Hin [Hwords ->]]]]].
      now apply (extract_pdc_from_text_complete text pattern).
  - split; vm_compute; reflexivity.
Qed.

(** Every rule of the heuristic mode is the cleaning of a match of one of
    the four patterns, which stands in the text as it is, or of a sentence
    of the pipeline that has a keyword and more than five words. It is in
    the normal form of [clean_rule]: cleaning it again changes nothing. With
    an empty text and no pipeline there is no rule. *)
Theorem extracted_rules_are_clean {U : Unicode} (text : str) (nlp_model : option Language) :
  Forall (fun rule =>
            clean_rule rule = rule
            /\ single_spaced rule = true /\ trimmed rule = true
            /\ PyStr.endswith rule (py ".") = true
            /\ exists m, rule = clean_rule m /\ rule_source text nlp_model m
                         /\ (nlp_model = None -> part_of m text))
         (extract_business_rules_heuristic text nlp_model)
  /\ extract_business_rules_heuristic [] None = [].
Proof.
  split; [|vm_compute; reflexivity].
  apply List.Forall_forall. intros rule Hrule.
  apply extract_business_rules_heuristic_inv in Hrule as [m [-> Hm]].
  split; [|split; [|split; [|split]]].
  - apply clean_rule_fixed; [apply clean_rule_single_spaced | apply clean_rule_trimmed
                            | apply clean_rule_endswith].
  - apply clean_rule_single_spaced.
  - apply clean_rule_trimmed.
  - apply clean_rule_endswith.
  - exists m. split; [reflexivity|]. split; [exact Hm|].
    intros ->. destruct Hm as [[pattern [_ Hin]]|[nlp [Hnlp _]]]; [|discriminate].
    eapply findall_part_of, Hin.
Qed.

(** Every control point returned stands in the text as it is, but for the
    period put after it when it ends with none: the extractor adds no other
    character and changes none. An empty text gives no control point. *)
Theorem extracted_pdcs_stand_in_text {U : Unicode} (text : str) :
  Forall (fun pdc => exists core,
            part_of core text /\ trimmed core = true
            /\ (pdc = core \/ pdc = core ++ py "."))
         (extract_pdc_from_text text)
  /\ extract_pdc_from_text [] = [].
Proof.
  split; [|vm_compute; reflexivity].
  apply List.Forall_forall. intros pdc Hpdc.
  apply extract_pdc_from_text_inv in Hpdc as [pattern [m [_ [Hm [_ ->]]]]].
  exists (PyStr.strip m). split; [|split].
  - eapply part_of_trans; [apply strip_part_of | eapply findall_part_of, Hm].
  - apply strip_trimmed.
  - unfold normalized_pdc. destruct (PyStr.endswith _ _); auto.
Qed.

(** ** What the service modes return *)

Ltac run_service :=
  unfold setup_azure_openai, generate_with_azure_openai, random_choice, st_error,
    next_azure_call, next_random_draw, emit, session_get, bind, ret;
  cbv beta iota zeta delta [negb];
  cbn [session_state events azure_calls random_draws];
  repeat match goal with
         | |- context [azure_connect ?n] =>
           destruct (azure_connect n); cbv beta iota zeta;
           cbn [session_state events azure_calls random_draws]
         | |- context [azure_complete ?n ?p] =>
           destruct (azure_complete n p); cbv beta iota zeta;
           cbn [session_state events azure_calls random_draws]
         end.

Section ServiceModes.
Context {U : Unicode} {Sv : Services}.

Lemma no_rule_of_blank_answer content :
  PyStr.strip content = [] ->
  List.map clean_rule
    (List.filter non_blank (PyStr.split_on PyStr.NEWLINE (PyStr.strip content))) = [].
Proof. intros ->. reflexivity. Qed.

(** With the service, [extract_business_rules] never raises and leaves the
    session as it is. It returns no rule when the client cannot be set up,
    when the completion fails and when the answer is blank; otherwise the
    rules are the lines of the stripped answer that are not blank, each
    cleaned, in their order, whatever the text holds. It runs the setup
    once and asks for one completion at most: the counter of the calls goes
    up by one or by two. *)
Theorem rules_from_service (text : str) (nlp_model : option Language) (w : World) :
  exists rules w',
    extract_business_rules text nlp_model true w = (Return rules, w')
    /\ session_state w' = session_state w
    /\ (azure_calls w < azure_calls w' <= azure_calls w + 2)%nat
    /\ Forall (fun rule => clean_rule rule = rule) rules
    /\ match azure_connect (azure_calls w) with
       | inl _ => rules = []
       | inr _ =>
         match azure_complete (S (azure_calls w)) (rules_prompt text) with
         | inl _ => rules = []
         | inr content =>
           rules = List.map clean_rule
                     (List.filter non_blank
                        (PyStr.split_on PyStr.NEWLINE (PyStr.strip content)))
         end
       end.
Proof.
  assert (forall lines : list (list N),
            Forall (fun rule => clean_rule rule = rule) (List.map clean_rule lines)) as Hclean.
  { intros lines. apply List.Forall_forall. intros rule Hrule.
    apply in_map_iff in Hrule as [line [<- _]].
    apply clean_rule_fixed; [apply clean_rule_single_spaced | apply clean_rule_trimmed
                            | apply clean_rule_endswith]. }
  unfold extract_business_rules. run_service.
  - eexists _, _. split; [reflexivity|]. cbn [session_state azure_calls].
    repeat (split; [first [reflexivity | lia | constructor]|]). reflexivity.
  - eexists _, _. split; [reflexivity|]. cbn [session_state azure_calls].
    repeat (split; [first [reflexivity | lia | constructor]|]). reflexivity.
  - destruct (PyStr.strip l) as [|c content] eqn:Hstrip; cbn [truthy].
    + eexists _, _. split; [reflexivity|]. cbn [session_state azure_calls].
      repeat (split; [first [reflexivity | lia | constructor]|]). reflexivity.
    + eexists _, _. split; [reflexivity|]. cbn [session_state azure_calls].
      split; [reflexivity|]. split; [lia|]. split; [apply Hclean | reflexivity].
Qed.

End ServiceModes.

Section ServiceModesPdc.
Context {U : Unicode} {Sv : Services}.

Lemma verifier_que_not_empty rule : verifier_que rule <> [].
Proof. unfold verifier_que. now vm_compute. Qed.

(** With [use_ai] and a value under 'nlp', [generate_pdc_from_rule] does
    not use that value: it never raises and never runs the pipeline. It
    returns the stripped answer of the service when the client is set up,
    the request succeeds and the answer is not blank, and "Vérifier que
    <rule>" otherwise; the control point is never empty. *)
Theorem pdc_from_service (rule : str) (model : Value) (w : World) :
  session_state w !! "nlp"%string = Some model ->
  exists pdc w',
    generate_pdc_from_rule rule true w = (Return pdc, w')
    /\ pdc <> []
    /\ session_state w' = session_state w
    /\ Forall (fun e => match e with NlpCall _ => False | _ => True end)
              (drop (length (events w)) (events w'))
    /\ match azure_connect (azure_calls w) with
       | inl _ => pdc = verifier_que rule
       | inr _ =>
         match azure_complete (S (azure_calls w)) (pdc_prompt rule) with
         | inl _ => pdc = verifier_que rule
         | inr content =>
           pdc = match PyStr.strip content with
                 | [] => verifier_que rule
                 | answer => answer
                 end
         end
       end.
Proof.
  intros Hnlp. unfold generate_pdc_from_rule, session_get, bind at 1. rewrite Hnlp.
  rewrite (bool_decide_eq_true_2 (is_Some (Some model))) by eauto.
  cbn [negb orb]. run_service.
  - eexists _, _. split; [reflexivity|]. split; [apply verifier_que_not_empty|].
    cbn [session_state events]. split; [reflexivity|]. split; [|reflexivity].
    rewrite <- ?app_assoc, drop_app_length. repeat constructor.
  - eexists _, _. split; [reflexivity|]. split; [apply verifier_que_not_empty|].
    cbn [session_state events]. split; [reflexivity|]. split; [|reflexivity].
    rewrite <- ?app_assoc, drop_app_length. repeat constructor.
  - destruct (PyStr.strip l) as [|c answer] eqn:Hstrip; cbn [truthy].
    + eexists _, _. split; [reflexivity|]. split; [apply verifier_que_not_empty|].
      cbn [session_state events]. split; [reflexivity|]. split; [|reflexivity].
      rewrite <- ?app_assoc, drop_app_length. repeat constructor.
    + eexists _, _. split; [reflexivity|]. split; [discriminate|].
      cbn [session_state events]. split; [reflexivity|]. split; [|reflexivity].
      rewrite <- ?app_assoc, drop_app_length. repeat constructor.
Qed.

(** What [create_test_case] leaves behind, mode by mode. *)
Lemma create_test_case_frame (pdc : str) (index : nat) (is_manual use_ai : bool)
    (w : World) :
  exists tc w',
    create_test_case pdc index is_manual use_ai w = (Return tc, w')
    /\ session_state w' = session_state w
    /\ (if use_ai
        then random_draws w' = random_draws w
             /\ (azure_calls w < azure_calls w' <= azure_calls w + 2)%nat
        else azure_calls w' = azure_calls w
             /\ events w' = events w
             /\ random_draws w' = (random_draws w + if is_manual then 0 else 1)%nat).
Proof.
  unfold create_test_case. destruct use_ai, is_manual; run_service;
    repeat match goal with
           | |- context [truthy ?r] => destruct (truthy r); cbv beta iota zeta
           end;
    eexists _, _; (split; [reflexivity|]);
    cbn [session_state events azure_calls random_draws];
    (split; [reflexivity|]); repeat split; lia.
Qed.

End ServiceModesPdc.

(** [pdc_from_service], at work: the value under 'nlp' is not even a
    pipeline, and the service answers. *)
Lemma pdc_from_service_witness :
  exists pdc w',
    generate_pdc_from_rule (U := latin1) (Sv := answering (py "  Contrôler le paiement. "))
      (py "Le client doit payer la facture.") true
      (MkWorld (<["nlp"%string := VStr (py "fr_core_news_md")]> ∅) [] O O) = (Return pdc, w')
    /\ pdc = py "Contrôler le paiement.".
Proof.
  destruct (pdc_from_service (U := latin1) (Sv := answering (py "  Contrôler le paiement. "))
              (py "Le client doit payer la facture.") (VStr (py "fr_core_news_md"))
              (MkWorld (<["nlp"%string := VStr (py "fr_core_news_md")]> ∅) [] O O))
    as [pdc [w' [Hrun [_ [_ [_ Hpdc]]]]]].
  - apply lookup_insert_eq.
  - exists pdc, w'. split; [exact Hrun|]. rewrite Hpdc. vm_compute. reflexivity.
Defined.

(** ** The largest score of a row *)

Ltac sf_step :=
  match goal with
  | |- context [Pos.compare_cont Eq ?x ?y] =>
    change (Pos.compare_cont Eq x y) with (Pos.compare x y)
  | H : context [Pos.compare_cont Eq ?x ?y] |- _ =>
    change (Pos.compare_cont Eq x y) with (Pos.compare x y) in H
  | |- context [Z.compare ?x ?x] => rewrite (Z.compare_refl x)
  | H : context [Z.compare ?x ?x] |- _ => rewrite (Z.compare_refl x) in H
  | |- context [Pos.compare ?x ?x] => rewrite (Pos.compare_refl x)
  | H : context [Pos.compare ?x ?x] |- _ => rewrite (Pos.compare_refl x) in H
  | |- context [Z.compare ?x ?y] => destruct (Z.compare_spec x y); subst
  | H : context [Z.compare ?x ?y] |- _ => destruct (Z.compare_spec x y); subst
  | |- context [Pos.compare ?x ?y] => destruct (Pos.compare_spec x y); subst
  | H : context [Pos.compare ?x ?y] |- _ => destruct (Pos.compare_spec x y); subst
  end.

Ltac sf_order :=
  repeat match goal with
         | s : bool |- _ => destruct s
         end;
  cbn; try reflexivity;
  repeat (sf_step; cbn in *; try reflexivity; try discriminate; try lia).

(** In the specification of the binary64 comparisons: the larger of two
    numbers, a NaN winning, is below a third exactly when both are. *)
Lemma SF_maximum_below (a b t : spec_float) :
  SFltb (if negb (SFeqb a a) then a
         else if negb (SFeqb b b) then b
         else if SFltb a b then b else a) t
  = SFltb a t && SFltb b t.
Proof.
  unfold SFltb, SFeqb.
  destruct a as [sa|sa| |sa ma ea], b as [sb|sb| |sb mb eb], t as [st|st| |st mt et];
    sf_order.
Qed.

Lemma np_maximum_below a b t :
  PrimFloat.ltb (np_maximum a b) t = PrimFloat.ltb a t && PrimFloat.ltb b t.
Proof.
  rewrite !FloatAxioms.ltb_spec.
  etransitivity; [|apply SF_maximum_below]. f_equal.
  unfold np_maximum, PrimFloat.is_nan. rewrite !FloatAxioms.eqb_spec, FloatAxioms.ltb_spec.
  destruct (negb (SFeqb (Prim2SF a) (Prim2SF a))); [reflexivity|].
  destruct (negb (SFeqb (Prim2SF b) (Prim2SF b))); [reflexivity|].
  now destruct (SFltb (Prim2SF a) (Prim2SF b)).
Qed.

(** [row.max() < threshold] holds exactly when every score of the row is
    below the threshold, whatever the numbers are (with a NaN in the row it
    is false, as every comparison with a NaN is). *)
Lemma row_max_all_below threshold row :
  row <> [] ->
  exists best, row_max row = Return best
               /\ PrimFloat.ltb best threshold = all_below threshold row.
Proof.
  destruct row as [|x xs]; [contradiction|]. intros _. cbn [row_max].
  eexists. split; [reflexivity|]. unfold all_below.
  revert x. induction xs as [|y xs IH]; intros x; cbn [fold_left forallb].
  - now rewrite andb_true_r.
  - rewrite IH. cbn [forallb]. rewrite np_maximum_below. now rewrite andb_assoc.
Qed.

(** ** Completing the control points *)

Section Completing.
Context {U : Unicode} {Sv : Services} {Np : Numpy}.

Lemma bind_return {A B} (c : M A) (k : A -> M B) w a w1 :
  c w = (Return a, w1) -> bind c k w = k a w1.
Proof. unfold bind. now intros ->. Qed.

Lemma generate_pdc_no_model' rule use_ai w :
  session_state w !! "nlp"%string = None ->
  generate_pdc_from_rule rule use_ai w
  = (Return (verifier_que rule),
     MkWorld (session_state w) (events w ++ [no_model_error])
             (azure_calls w) (random_draws w)).
Proof. apply generate_pdc_no_model. Qed.

(** Without a model every rule gets the fallback phrasing and one message. *)
Lemma generate_all_no_model use_ai rules : forall w,
  session_state w !! "nlp"%string = None ->
  generate_all use_ai rules w
  = (Return (List.map verifier_que rules),
     MkWorld (session_state w) (events w ++ repeat no_model_error (length rules))
             (azure_calls w) (random_draws w)).
Proof.
  induction rules as [|rule rules IH]; intros w Hnlp.
  - cbn. rewrite app_nil_r. now destruct w.
  - cbn [generate_all]. erewrite bind_return by now apply generate_pdc_no_model'.
    erewrite bind_return by now apply IH.
    unfold ret. cbn [session_state events azure_calls random_draws List.map length repeat].
    now rewrite <- app_assoc.
Qed.

Lemma session_list_stored key l w :
  session_state w !! key = Some (VList l) -> session_list key w = (Return l, w).
Proof. intros Hl. unfold session_list, session_get, bind. now rewrite Hl. Qed.

Lemma unmatched_cons threshold rule rules row similarity :
  unmatched threshold (rule :: rules) (row :: similarity)
  = if all_below threshold row then rule :: unmatched threshold rules similarity
    else unmatched threshold rules similarity.
Proof.
  unfold unmatched. cbn [combine List.filter snd].
  now destruct (all_below threshold row).
Qed.

Lemma complete_loop_no_model use_ai (threshold : float) :
  forall rules similarity acc w,
    length similarity = length rules ->
    Forall (fun row => row <> []) similarity ->
    session_state w !! "nlp"%string = None ->
    session_state w !! "pdc_list"%string = Some (VList acc) ->
    complete_loop use_ai threshold rules similarity acc w
    = (Return (acc ++ List.map verifier_que (unmatched threshold rules similarity)),
       MkWorld (<["pdc_list"%string
                  := VList (acc ++ List.map verifier_que
                                     (unmatched threshold rules similarity))]>
                  (session_state w))
               (events w ++ repeat no_model_error
                              (length (unmatched threshold rules similarity)))
               (azure_calls w) (random_draws w)).
Proof.
  induction rules as [|rule rules IH]; intros similarity acc w Hlen Hrows Hnlp Hacc.
  - unfold unmatched. cbn. rewrite !app_nil_r, insert_id by exact Hacc. now destruct w.
  - destruct similarity as [|row similarity]; [discriminate Hlen|].
    injection Hlen as Hlen. inversion Hrows as [|? ? Hrow Hrows']; subst.
    cbn [complete_loop hd tl]. rewrite unmatched_cons.
    destruct (row_max_all_below threshold row Hrow) as [best [Hbest Hbelow]].
    unfold lift at 1. unfold bind at 1. rewrite Hbest, Hbelow.
    destruct (all_below threshold row).
    + erewrite bind_return by now apply generate_pdc_no_model'.
      unfold bind at 1, session_set at 1.
      cbn [session_state events azure_calls random_draws].
      rewrite IH.
      * cbn [session_state events azure_calls random_draws List.map length repeat].
        rewrite insert_insert_eq, <- !app_assoc. reflexivity.
      * exact Hlen.
      * exact Hrows'.
      * cbn [session_state]. rewrite lookup_insert_ne by discriminate. exact Hnlp.
      * cbn [session_state]. apply lookup_insert_eq.
    + now apply IH.
Qed.

Lemma startswith_non_not_oui has_pdc :
  PyStr.startswith has_pdc (py "Non") = true -> PyStr.startswith has_pdc (py "Oui") = false.
Proof.
  unfold PyStr.startswith. intros Hn. apply bool_decide_eq_true_1 in Hn.
  apply bool_decide_eq_false_2. intros Ho.
  assert (length (py "Oui") = length (py "Non")) as Hlen by (vm_compute; reflexivity).
  rewrite Hlen, Hn in Ho. vm_compute in Ho. discriminate Ho.
Qed.

Lemma complete_pdcs_generated (has_pdc : str) (pdc_file use_ai_pdc : bool)
    (threshold : float) (rules : list str) (w : World) :
  PyStr.startswith has_pdc (py "Non") = true ->
  session_state w !! "nlp"%string = None ->
  session_state w !! "rules"%string = Some (VList rules) ->
  complete_pdcs has_pdc pdc_file use_ai_pdc threshold w
  = (Return tt,
     MkWorld (<["pdc_list"%string := VList (List.map verifier_que rules)]> (session_state w))
             (events w ++ repeat no_model_error (length rules))
             (azure_calls w) (random_draws w)).
Proof.
  intros Hnon Hnlp Hrules. unfold complete_pdcs.
  rewrite Hnon, (startswith_non_not_oui has_pdc Hnon). cbn [orb andb].
  unfold bind at 1, session_get at 1. unfold bind at 1.
  assert (exists w1,
    (match session_state w !! "pdc_list"%string with
     | None => session_set "pdc_list" (VList [])
     | Some _ => ret tt
     end) w = (Return tt, w1)
    /\ <["pdc_list"%string := VList (List.map verifier_que rules)]> (session_state w1)
       = <["pdc_list"%string := VList (List.map verifier_que rules)]> (session_state w)
    /\ session_state w1 !! "nlp"%string = None
    /\ session_state w1 !! "rules"%string = Some (VList rules)
    /\ events w1 = events w /\ azure_calls w1 = azure_calls w
    /\ random_draws w1 = random_draws w) as [w1 [-> [Hs [Hnlp1 [Hrules1 [He [Ha Hd]]]]]]].
  { destruct (session_state w !! "pdc_list"%string).
    - exists w. unfold ret. auto 10.
    - eexists. unfold session_set. split; [reflexivity|].
      cbn [session_state events azure_calls random_draws].
      rewrite insert_insert_eq, !lookup_insert_ne by discriminate. auto 10. }
  erewrite bind_return by (apply session_list_stored; exact Hrules1).
  erewrite bind_return by (apply generate_all_no_model; exact Hnlp1).
  unfold session_set. cbn [session_state events azure_calls random_draws].
  now rewrite Hs, He, Ha, Hd.
Qed.

(** The button "Générer/Compléter les PDC" when the user has no control
    point to import, in a session without a value under 'nlp' (every
    session the script reaches): the list stored under 'pdc_list' is
    replaced by "Vérifier que <rule>" for each stored rule, in their order,
    one message "Modèle NLP non chargé" is shown per rule, and no request
    goes to the service, whether the box "Utiliser Azure OpenAI pour les
    PDC" is ticked or not. *)
Theorem generated_pdcs_ignore_service (has_pdc : str) (pdc_file use_ai_pdc : bool)
    (threshold : float) (rules : list str) (w : World) :
  PyStr.startswith has_pdc (py "Non") = true ->
  session_state w !! "nlp"%string = None ->
  session_state w !! "rules"%string = Some (VList rules) ->
  complete_pdcs has_pdc pdc_file use_ai_pdc threshold w
  = (Return tt,
     MkWorld (<["pdc_list"%string := VList (List.map verifier_que rules)]> (session_state w))
             (events w ++ repeat no_model_error (length rules))
             (azure_calls w) (random_draws w)).
Proof. apply complete_pdcs_generated. Qed.

(** The same button after a file was imported in which no control point was
    found (the list stored under 'pdc_list' is empty): the comparison
    raises, no control point is generated and the session stays as it was. *)
Theorem completion_without_pdc_raises (has_pdc : str) (use_ai_pdc : bool)
    (threshold : float) (rules : list str) (w : World) :
  PyStr.startswith has_pdc (py "Oui") = true ->
  session_state w !! "rules"%string = Some (VList rules) ->
  session_state w !! "pdc_list"%string = Some (VList []) ->
  exists e, complete_pdcs has_pdc true use_ai_pdc threshold w = (Raise e, w).
Proof.
  intros Houi Hrules Hpdc. unfold complete_pdcs. rewrite Houi, orb_true_r. cbn [andb].
  unfold bind at 1, session_get at 1. unfold bind at 1. rewrite Hpdc. unfold ret at 1.
  erewrite bind_return by (apply session_list_stored; exact Hrules).
  erewrite bind_return by (apply session_list_stored; exact Hpdc).
  destruct (compare_rules_pdc_raises rules [] (or_intror eq_refl)) as [e He].
  exists e. unfold bind at 1, bind at 1, lift. now rewrite He.
Qed.

(** The same button after control points were imported, in a session
    without a value under 'nlp', for the matrix that [compare_rules_pdc]
    returns: the imported control points stay at the head of the list, in
    their order, and "Vérifier que <rule>" is appended for each rule whose
    scores are all below the threshold, in the order of the rules; a rule
    with a score at the threshold or above gets none. One message is shown
    per control point appended, and the service is not called. *)
Theorem completion_appends_unmatched (has_pdc : str) (use_ai_pdc : bool)
    (threshold : float) (rules pdc_list : list str) (similarity : list (list float))
    (w : World) :
  PyStr.startswith has_pdc (py "Oui") = true ->
  session_state w !! "nlp"%string = None ->
  session_state w !! "rules"%string = Some (VList rules) ->
  session_state w !! "pdc_list"%string = Some (VList pdc_list) ->
  compare_rules_pdc rules pdc_list = Return similarity ->
  complete_pdcs has_pdc true use_ai_pdc threshold w
  = (Return tt,
     MkWorld (<["pdc_list"%string
                := VList (pdc_list ++ List.map verifier_que
                                        (unmatched threshold rules similarity))]>
                (session_state w))
             (events w ++ repeat no_model_error
                            (length (unmatched threshold rules similarity)))
             (azure_calls w) (random_draws w)).
Proof.
  intros Houi Hnlp Hrules Hpdc Hrun. unfold complete_pdcs.
  rewrite Houi, orb_true_r. cbn [andb].
  unfold bind at 1, session_get at 1. unfold bind at 1. rewrite Hpdc. unfold ret at 1.
  erewrite bind_return by (apply session_list_stored; exact Hrules).
  erewrite bind_return by (apply session_list_stored; exact Hpdc).
  unfold bind at 1, bind at 1, lift at 1. rewrite Hrun.
  destruct (compare_rules_pdc_shape rules pdc_list similarity Hrun) as [_ [Hp Hshape]].
  rewrite (complete_loop_no_model use_ai_pdc threshold rules similarity pdc_list w).
  - reflexivity.
  - rewrite Hshape. apply length_map.
  - rewrite Hshape. apply List.Forall_forall. intros row Hrow.
    apply in_map_iff in Hrow as [rule [<- _]].
    destruct pdc_list; [contradiction | discriminate].
  - exact Hnlp.
  - exact Hpdc.
Qed.

End Completing.

(** ** Reading files and storing what was read *)

Section Stored.
Context {U : Unicode} {Sv : Services} {Rd : Readers} {Dx : Docx}.

Lemma extract_text_returns (f : UploadedFile) (w : World) :
  exists result w',
    extract_text f w = (Return result, w')
    /\ session_state w' = session_state w
    /\ azure_calls w' = azure_calls w
    /\ random_draws w' = random_draws w
    /\ match result with
       | Some text => non_blank text = true /\ events w' = events w /\ readable (upload_type f)
       | None => events w' = events w \/ exists msg, events w' = events w ++ [StError msg]
       end
    /\ (~ readable (upload_type f) ->
        result = None
        /\ events w' = events w
                       ++ [StError (py "Erreur d'extraction : " ++ py "Format non supporté")]).
Proof.
  unfold extract_text, readable.
  destruct (bool_decide_reflect (upload_type f = py "application/pdf")) as [Hpdf|Hpdf].
  - destruct (pdfminer_extract_text (upload_value f)) as [e|text].
    + eexists _, _. unfold st_error, emit, bind, ret. split; [reflexivity|].
      cbn [session_state events azure_calls random_draws].
      do 3 (split; [reflexivity|]). split; [right; eexists; reflexivity|].
      intros Hn. exfalso. apply Hn. left. exact Hpdf.
    + destruct (non_blank text) eqn:Hb; eexists _, _; unfold ret;
        (split; [reflexivity|]); do 3 (split; [reflexivity|]);
        (split; [|intros Hn; exfalso; apply Hn; left; exact Hpdf]).
      * split; [exact Hb|]. split; [reflexivity|]. left. exact Hpdf.
      * left. reflexivity.
  - destruct (bool_decide_reflect (upload_type f
        = py "application/vnd.openxmlformats-officedocument.wordprocessingml.document"))
      as [Hdocx|Hdocx].
    + destruct (docx_paragraphs (upload_value f)) as [e|paragraphs].
      * eexists _, _. unfold st_error, emit, bind, ret. split; [reflexivity|].
        cbn [session_state events azure_calls random_draws].
        do 3 (split; [reflexivity|]). split; [right; eexists; reflexivity|].
        intros Hn. exfalso. apply Hn. right. exact Hdocx.
      * destruct (non_blank _) eqn:Hb; eexists _, _; unfold ret;
          (split; [reflexivity|]); do 3 (split; [reflexivity|]);
          (split; [|intros Hn; exfalso; apply Hn; right; exact Hdocx]).
        -- split; [exact Hb|]. split; [reflexivity|]. right. exact Hdocx.
        -- left. reflexivity.
    + eexists _, _. unfold st_error, emit, bind, ret. split; [reflexivity|].
      cbn [session_state events azure_calls random_draws].
      do 3 (split; [reflexivity|]). split; [right; eexists; reflexivity|]. intros _.
      split; reflexivity.
Qed.

(** [extract_text] never raises and never returns a blank text: it gives
    either a text with a character that is no whitespace, read from a PDF
    or a DOCX file without any message, or [None]. A file of another type
    gives [None] and the message "Erreur d'extraction : Format non
    supporté". The session is left as it is. *)
Theorem extract_text_never_blank (f : UploadedFile) (w : World) :
  exists result w',
    extract_text f w = (Return result, w')
    /\ session_state w' = session_state w
    /\ azure_calls w' = azure_calls w
    /\ random_draws w' = random_draws w
    /\ match result with
       | Some text => non_blank text = true /\ events w' = events w /\ readable (upload_type f)
       | None => events w' = events w \/ exists msg, events w' = events w ++ [StError msg]
       end
    /\ (~ readable (upload_type f) ->
        result = None
        /\ events w' = events w
                       ++ [StError (py "Erreur d'extraction : " ++ py "Format non supporté")]).
Proof. apply extract_text_returns. Qed.

(** A file of control points that [extract_text] cannot read, such as the
    TXT files the uploader of the fifth tab accepts, makes the import raise
    a TypeError after the message of [extract_text]: nothing is stored. *)
Theorem unreadable_pdc_file_raises (pdc_file : UploadedFile) (w : World) :
  ~ readable (upload_type pdc_file) ->
  exists msg,
    import_pdcs pdc_file w
    = (Raise (TypeError msg),
       MkWorld (session_state w)
               (events w ++ [StError (py "Erreur d'extraction : " ++ py "Format non supporté")])
               (azure_calls w) (random_draws w)).
Proof.
  intros Hn. destruct (extract_text_returns pdc_file w)
    as [result [w' [Hrun [Hs [Ha [Hd [_ Hnone]]]]]]].
  destruct (Hnone Hn) as [-> He]. unfold import_pdcs.
  erewrite bind_return by exact Hrun. unfold raise. eexists.
  destruct w' as [s' e' a' d']. cbn [session_state events azure_calls random_draws] in *.
  subst. reflexivity.
Qed.

Lemma clean_rule_map_fixed (lines : list str) :
  Forall (fun rule => clean_rule rule = rule) (List.map clean_rule lines).
Proof.
  apply List.Forall_forall. intros rule Hrule.
  apply in_map_iff in Hrule as [line [<- _]].
  apply clean_rule_fixed; [apply clean_rule_single_spaced | apply clean_rule_trimmed
                          | apply clean_rule_endswith].
Qed.

Lemma extract_business_rules_returns text nlp_model use_ai w :
  exists rules w',
    extract_business_rules text nlp_model use_ai w = (Return rules, w')
    /\ session_state w' = session_state w
    /\ Forall (fun rule => clean_rule rule = rule) rules.
Proof.
  unfold extract_business_rules. destruct use_ai; cbn [negb].
  - run_service;
      repeat match goal with
             | |- context [truthy ?r] => destruct (truthy r); cbv beta iota zeta
             end;
      eexists _, _; (split; [reflexivity|]); (split; [reflexivity|]);
      first [apply clean_rule_map_fixed | constructor].
  - eexists _, _. unfold ret. split; [reflexivity|]. split; [reflexivity|].
    apply List.Forall_forall. intros rule Hrule.
    apply extract_business_rules_heuristic_inv in Hrule as [m [-> _]].
    apply clean_rule_fixed; [apply clean_rule_single_spaced | apply clean_rule_trimmed
                            | apply clean_rule_endswith].
Qed.

(** The buttons of the first and of the fourth tab keep the session well
    stored, whether or not the block of the fourth tab raises: the text
    stored is never blank, and the list of rules stored is never empty and
    holds cleaned rules only, in every mode and whatever the service
    answers. The first button never raises. The block of the fourth one
    returns with the session as it was (an extraction that finds no rule
    leaves the rules of the last one), or it stores the rules found and then
    builds the document to download: it raises what
    [create_rules_document] raises, as on a rule with a control character,
    with the rules already stored. *)
Theorem session_stays_well_stored (uploaded_file : UploadedFile)
    (nlp_model : option Language) (use_ai_rules : bool) (w : World) :
  well_stored (session_state w) ->
  (exists w', tab1_extract uploaded_file w = (Return tt, w')
              /\ well_stored (session_state w'))
  /\ (exists outcome w',
        tab4_extract nlp_model use_ai_rules w = (outcome, w')
        /\ well_stored (session_state w')
        /\ ((outcome = Return tt /\ session_state w' = session_state w)
            \/ exists rules,
                 rules <> []
                 /\ session_state w' = <["rules"%string := VList rules]> (session_state w)
                 /\ outcome = match create_rules_document rules with
                              | Return _ => Return tt
                              | Raise e => Raise e
                              end))
  /\ (forall text,
        session_state w !! "text"%string = Some (VStr text) ->
        negb (bool_decide (is_Some nlp_model)) && negb use_ai_rules = false ->
        exists rules w1,
          extract_business_rules text nlp_model use_ai_rules w = (Return rules, w1)
          /\ tab4_extract nlp_model use_ai_rules w
             = match rules with
               | [] => (Return tt, w1)
               | _ => (match create_rules_document rules with
                       | Return _ => Return tt
                       | Raise e => Raise e
                       end,
                       MkWorld (<["rules"%string := VList rules]> (session_state w))
                               (events w1) (azure_calls w1) (random_draws w1))
               end).
Proof.
  intros Hinv. pose proof Hinv as [Htext Hrules].
  assert (forall text,
        session_state w !! "text"%string = Some (VStr text) ->
        negb (bool_decide (is_Some nlp_model)) && negb use_ai_rules = false ->
        exists rules w1,
          extract_business_rules text nlp_model use_ai_rules w = (Return rules, w1)
          /\ session_state w1 = session_state w
          /\ Forall (fun rule => clean_rule rule = rule) rules
          /\ tab4_extract nlp_model use_ai_rules w
             = match rules with
               | [] => (Return tt, w1)
               | _ => (match create_rules_document rules with
                       | Return _ => Return tt
                       | Raise e => Raise e
                       end,
                       MkWorld (<["rules"%string := VList rules]> (session_state w))
                               (events w1) (azure_calls w1) (random_draws w1))
               end) as Hblock.
  { intros text Hv Hmode.
    destruct (extract_business_rules_returns text nlp_model use_ai_rules w)
      as [rules [w1 [Hrun [Hs Hclean]]]].
    exists rules, w1. split; [exact Hrun|]. split; [exact Hs|]. split; [exact Hclean|].
    unfold tab4_extract, session_get, bind at 1. rewrite Hv, Hmode.
    erewrite bind_return by exact Hrun.
    destruct rules as [|rule rules]; [reflexivity|].
    unfold bind at 1, session_set at 1. rewrite Hs.
    unfold bind, lift, ret.
    now destruct (create_rules_document (rule :: rules)). }
  split; [|split].
  - destruct (extract_text_returns uploaded_file w)
      as [result [w' [Hrun [Hs [_ [_ [Hres _]]]]]]].
    unfold tab1_extract. erewrite bind_return by exact Hrun.
    destruct result as [text|].
    + eexists. unfold session_set. split; [reflexivity|]. cbn [session_state].
      rewrite Hs. destruct Hres as [Hb _]. split.
      * intros v. rewrite lookup_insert_eq. intros [= <-]. eauto.
      * intros v. rewrite lookup_insert_ne by discriminate. apply Hrules.
    + exists w'. unfold ret. split; [reflexivity|]. rewrite Hs. exact Hinv.
  - destruct (session_state w !! "text"%string) as [v|] eqn:Hv.
    + destruct (negb (bool_decide (is_Some nlp_model)) && negb use_ai_rules) eqn:Hmode.
      * eexists _, _. unfold tab4_extract, session_get, bind at 1. rewrite Hv, Hmode.
        unfold st_error, emit. split; [reflexivity|]. split; [exact Hinv|].
        left. split; reflexivity.
      * destruct (proj1 Hinv v Hv) as [text [-> _]].
        destruct (Hblock text eq_refl eq_refl) as [rules [w1 [_ [Hs [Hclean Hrun]]]]].
        destruct rules as [|rule rules].
        -- exists (Return tt), w1. split; [exact Hrun|]. rewrite Hs.
           split; [exact Hinv|]. left. split; reflexivity.
        -- eexists _, _. split; [exact Hrun|]. cbn [session_state]. split.
           ++ split.
              ** intros v. rewrite lookup_insert_ne by discriminate. apply Hinv.
              ** intros v. rewrite lookup_insert_eq. intros [= <-].
                 eexists. split; [reflexivity|]. split; [discriminate | exact Hclean].
           ++ right. exists (rule :: rules). split; [discriminate|]. split; reflexivity.
    + exists (Return tt), w. unfold tab4_extract, session_get, bind at 1. rewrite Hv.
      unfold ret. split; [reflexivity|]. split; [exact Hinv|]. left. split; reflexivity.
  - intros text Hv Hmode.
    destruct (Hblock text Hv Hmode) as [rules [w1 [Hrun [_ [_ Hblock']]]]].
    exists rules, w1. split; [exact Hrun | exact Hblock'].
Qed.

End Stored.

(** ** The text the frequencies are counted on *)

Lemma Forall_collapse_go (P : N -> Prop) b s :
  P PyStr.SPACE -> Forall P s -> Forall P (collapse_go b s).
Proof.
  intros Hsp Hs. revert b. induction Hs as [|c s Hc Hs IH]; intros b; cbn [collapse_go].
  - constructor.
  - destruct (PyStr.is_space c); [destruct b|]; try constructor; auto.
Qed.

Lemma Forall_strip (P : N -> Prop) s : Forall P s -> Forall P (PyStr.strip s).
Proof.
  intros Hs. destruct (strip_middle s) as [ws1 [ws2 [Heq _]]]. rewrite Heq in Hs.
  apply Forall_app in Hs as [_ Hs]. now apply Forall_app in Hs as [Hs _].
Qed.

Lemma starts_with_space_app s t :
  s <> [] -> starts_with_space (s ++ t) = starts_with_space s.
Proof. destruct s; [contradiction | reflexivity]. Qed.

Lemma str_join_trimmed sep (parts : list str) :
  Forall (fun part => part <> [] /\ trimmed part = true) parts ->
  trimmed (str_join sep parts) = true.
Proof.
  intros Hparts. destruct parts as [|p ps]; [reflexivity|].
  unfold trimmed. apply andb_true_intro. split.
  - inversion Hparts as [|? ? [Hne Ht] _]; subst. cbn [str_join].
    rewrite starts_with_space_app by exact Hne.
    unfold trimmed in Ht. now apply andb_prop in Ht as [Ht _].
  - revert p Hparts. induction ps as [|q ps IH]; intros p Hparts.
    + inversion Hparts as [|? ? [Hne Ht] _]; subst. cbn [str_join flat_map].
      rewrite app_nil_r. unfold trimmed in Ht. now apply andb_prop in Ht as [_ Ht].
    + inversion Hparts as [|? ? _ Hrest]; subst. specialize (IH q Hrest).
      cbn [str_join flat_map] in *.
      replace (p ++ (sep ++ q) ++ flat_map (fun q0 => sep ++ q0) ps)
        with ((p ++ sep) ++ (q ++ flat_map (fun q0 => sep ++ q0) ps))
        by now rewrite <- !app_assoc.
      rewrite rev_app_distr, starts_with_space_app; [exact IH|].
      inversion Hrest as [|? ? [Hne _] _]; subst. destruct q; [contradiction|].
      cbn [app rev]. intros Hnil. now apply app_eq_nil in Hnil as [_ Hnil].
Qed.

Lemma lstrip_last s c :
  PyStr.lstrip (s ++ [c])
  = match PyStr.lstrip s with
    | [] => if PyStr.is_space c then [] else [c]
    | rest => rest ++ [c]
    end.
Proof.
  induction s as [|d s IH]; cbn [app PyStr.lstrip]; [reflexivity|].
  destruct (PyStr.is_space d); [exact IH | reflexivity].
Qed.

Lemma rstrip_cons c s :
  PyStr.rstrip (c :: s)
  = match PyStr.rstrip s with
    | [] => if PyStr.is_space c then [] else [c]
    | rest => c :: rest
    end.
Proof.
  unfold PyStr.rstrip. cbn [rev]. rewrite lstrip_last.
  destruct (PyStr.lstrip (rev s)) as [|d rest]; cbn [rev].
  - now destruct (PyStr.is_space c).
  - rewrite rev_app_distr. cbn [rev app].
    destruct (rev rest ++ [d]) eqn:Hr; [|reflexivity].
    now apply app_eq_nil in Hr as [_ Hr].
Qed.

Lemma rstrip_cons_letter c s :
  PyStr.is_space c = false -> PyStr.rstrip (c :: s) = c :: PyStr.rstrip s.
Proof. intros Hc. rewrite rstrip_cons, Hc. now destruct (PyStr.rstrip s). Qed.

Lemma split_go_word_first cur s :
  cur <> [] ->
  exists ws, PyStr.split_go cur s = ws
             /\ flat_map (fun q => [PyStr.SPACE] ++ q) ws = PyStr.SPACE :: str_join [PyStr.SPACE] ws.
Proof.
  revert cur. induction s as [|c s IH]; intros cur Hcur; cbn [PyStr.split_go].
  - destruct cur; [contradiction|]. eexists. split; [reflexivity|].
    cbn [flat_map str_join app]. now rewrite !app_nil_r.
  - destruct (PyStr.is_space c).
    + destruct cur; [contradiction|]. eexists. split; [reflexivity|]. reflexivity.
    + apply IH. discriminate.
Qed.

(** Collapsing the whitespace of a text and stripping its end gives its
    words joined by single spaces. *)
Lemma rstrip_collapse_words s :
  (forall cur, cur <> [] ->
     rev cur ++ PyStr.rstrip (collapse_go false s)
     = str_join [PyStr.SPACE] (PyStr.split_go cur s))
  /\ PyStr.rstrip (PyStr.SPACE :: collapse_go true s)
     = flat_map (fun q => [PyStr.SPACE] ++ q) (PyStr.split_go [] s)
  /\ PyStr.rstrip (collapse_go true s) = str_join [PyStr.SPACE] (PyStr.split_go [] s).
Proof.
  assert (PyStr.is_space PyStr.SPACE = true) as Hsp by reflexivity.
  induction s as [|c s [IH1 [IH2 IH3]]].
  - split; [|split].
    + intros cur Hcur. cbn [collapse_go PyStr.split_go]. destruct cur; [contradiction|].
      cbn [str_join flat_map]. reflexivity.
    + cbn [collapse_go PyStr.split_go flat_map]. rewrite rstrip_cons, Hsp. reflexivity.
    + reflexivity.
  - cbn [collapse_go PyStr.split_go]. destruct (PyStr.is_space c) eqn:Hc.
    + split; [|split].
      * intros cur Hcur. destruct cur as [|d cur]; [contradiction|].
        cbn [str_join]. now rewrite IH2.
      * exact IH2.
      * exact IH3.
    + split; [|split].
      * intros cur Hcur. rewrite rstrip_cons_letter by exact Hc.
        rewrite <- (IH1 (c :: cur)) by discriminate. cbn [rev]. now rewrite <- app_assoc.
      * destruct (split_go_word_first [c] s) as [ws [Heq Hws]]; [discriminate|]. subst ws.
        rewrite Hws, <- (IH1 [c]) by discriminate.
        rewrite rstrip_cons, rstrip_cons_letter by exact Hc. reflexivity.
      * rewrite rstrip_cons_letter by exact Hc. now rewrite <- (IH1 [c]) by discriminate.
Qed.

Lemma lstrip_collapse s : PyStr.lstrip (collapse_go false s) = collapse_go true s.
Proof.
  destruct s as [|c s]; [reflexivity|]. cbn [collapse_go].
  destruct (PyStr.is_space c) eqn:Hc.
  - cbn [PyStr.lstrip]. assert (PyStr.is_space PyStr.SPACE = true) as -> by reflexivity.
    destruct (collapse_go_shape true s) as [_ Hhead]. specialize (Hhead eq_refl).
    destruct (collapse_go true s) as [|d t]; [reflexivity|].
    cbn [starts_with_space] in Hhead. cbn [PyStr.lstrip]. now rewrite Hhead.
  - cbn [PyStr.lstrip]. now rewrite Hc.
Qed.

Lemma strip_collapse_words s :
  PyStr.strip (collapse_go false s) = str_join (py " ") (PyStr.split s).
Proof.
  unfold PyStr.strip, PyStr.split. rewrite lstrip_collapse, py_space.
  apply rstrip_collapse_words.
Qed.

Lemma cleaned_tokens_filter min_word_length (tokens : list Token) :
  flat_map (fun token =>
              if skipped min_word_length token then []
              else let lemma := PyStr.strip (tok_lemma token) in
                   match lemma with [] => [] | _ => [lemma] end) tokens
  = List.filter (fun lemma => negb (Nat.eqb (length lemma) 0))
      (List.map (fun token => PyStr.strip (tok_lemma token))
         (List.filter
            (fun token =>
               negb (tok_is_stop token) && negb (tok_is_punct token)
               && Nat.leb min_word_length (length (tok_text token))
               && negb (bool_decide
                          (In (tok_pos token)
                              (List.map py ["DET"; "ADP"; "CCONJ"; "PRON"; "PART"]%string))))
            tokens)).
Proof.
  induction tokens as [|token tokens IH]; [reflexivity|].
  cbn [flat_map List.filter] in IH |- *. rewrite IH. unfold skipped, dropped_pos.
  destruct (tok_is_stop token); [reflexivity|].
  destruct (tok_is_punct token); [reflexivity|].
  rewrite Nat.leb_antisym.
  destruct (Nat.ltb (length (tok_text token)) min_word_length); [reflexivity|].
  destruct (bool_decide _); [reflexivity|].
  cbn [orb negb andb List.map List.filter].
  now destruct (PyStr.strip (tok_lemma token)).
Qed.

(** [clean_text] gives "" for an empty text and without a pipeline.
    Otherwise the pipeline is run on the prepared text: the words of the
    text in lower case, every character that is no word character, no
    listed accented letter and no whitespace counting as a blank, joined by
    single spaces; so every character of it is a word character, a listed
    accented letter or a space, whitespace comes as single spaces only and
    the ends are stripped. The result joins by single spaces, in the order
    of the tokens, the stripped lemma of every token that is no stop word,
    no punctuation, not shorter than the minimum and of no dropped part of
    speech, unless the stripped lemma is empty; the result neither starts
    nor ends with whitespace. So, with a pipeline that cuts at whitespace
    and a minimum of three, "  L'Été, le CLIENT paie 100 € !" gives
    "été client paie 100". *)
Theorem clean_text_shape {U : Unicode} (text : str) (nlp_model : option Language)
    (min_word_length : nat) :
  clean_text [] nlp_model min_word_length = []
  /\ clean_text text None min_word_length = []
  /\ single_spaced (prepared_text text) = true
  /\ trimmed (prepared_text text) = true
  /\ Forall (fun c => kept_char c = true) (prepared_text text)
  /\ trimmed (clean_text text nlp_model min_word_length) = true
  /\ (forall nlp, nlp_model = Some nlp -> text <> [] ->
      clean_text text nlp_model min_word_length
      = str_join (py " ") (cleaned_tokens min_word_length (nlp (prepared_text text))))
  /\ (forall doc,
        Forall (fun lemma =>
                  lemma <> [] /\ trimmed lemma = true
                  /\ exists token,
                       In token (doc_tokens doc)
                       /\ lemma = PyStr.strip (tok_lemma token)
                       /\ tok_is_stop token = false /\ tok_is_punct token = false
                       /\ (min_word_length <= length (tok_text token))%nat
                       /\ ~ In (tok_pos token) dropped_pos)
               (cleaned_tokens min_word_length doc))
  /\ (forall doc,
        cleaned_tokens min_word_length doc
        = List.filter (fun lemma => negb (Nat.eqb (length lemma) 0))
            (List.map (fun token => PyStr.strip (tok_lemma token))
               (List.filter
                  (fun token =>
                     negb (tok_is_stop token) && negb (tok_is_punct token)
                     && Nat.leb min_word_length (length (tok_text token))
                     && negb (bool_decide
                                (In (tok_pos token)
                                    (List.map py ["DET"; "ADP"; "CCONJ"; "PRON"; "PART"]%string))))
                  (doc_tokens doc))))
  /\ prepared_text text
     = str_join (py " ")
         (PyStr.split
            (List.map (fun c => if uc_word c || PyStr.is_space c
                                   || existsb (N.eqb c) (py "àâäéèêëîïôöùûüç")
                                then c else PyStr.SPACE)
                      (lower text)))
  /\ clean_text (U := latin1) (py "  L'Été, le CLIENT paie 100 € !") (Some tagless) 3
     = py "été client paie 100".
Proof.
  assert (forall doc,
            Forall (fun lemma =>
                  lemma <> [] /\ trimmed lemma = true
                  /\ exists token,
                       In token (doc_tokens doc)
                       /\ lemma = PyStr.strip (tok_lemma token)
                       /\ tok_is_stop token = false /\ tok_is_punct token = false
                       /\ (min_word_length <= length (tok_text token))%nat
                       /\ ~ In (tok_pos token) dropped_pos)
               (cleaned_tokens min_word_length doc)) as Hlemmas.
  { intros doc. apply List.Forall_forall. intros lemma Hin.
    apply in_flat_map in Hin as [token [Htok Hin]].
    destruct (skipped min_word_length token) eqn:Hskip; [destruct Hin|].
    cbv zeta in Hin.
    destruct (PyStr.strip (tok_lemma token)) as [|c l] eqn:Hstrip; [destruct Hin|].
    destruct Hin as [<-|[]]. split; [discriminate|]. split.
    - rewrite <- Hstrip. apply strip_trimmed.
    - exists token. split; [exact Htok|]. split; [now rewrite Hstrip|].
      unfold skipped in Hskip.
      apply orb_false_elim in Hskip as [Hskip Hpos].
      apply orb_false_elim in Hskip as [Hskip Hlen].
      apply orb_false_elim in Hskip as [Hstop Hpunct].
      split; [exact Hstop|]. split; [exact Hpunct|]. split.
      + apply Nat.ltb_ge in Hlen. exact Hlen.
      + now apply bool_decide_eq_false_1 in Hpos. }
  split; [now destruct nlp_model|]. split; [now destruct text|].
  split; [apply squeeze_single_spaced|]. split; [apply squeeze_trimmed|].
  split; [|split; [|split; [|split; [|split; [|split]]]]].
  - unfold prepared_text. rewrite sub_whitespace.
    apply Forall_strip, Forall_collapse_go.
    + unfold kept_char. assert (PyStr.is_space PyStr.SPACE = true) as -> by reflexivity.
      now rewrite orb_true_r.
    + apply List.Forall_forall. intros c Hc. apply in_map_iff in Hc as [d [<- _]].
      destruct (kept_char d) eqn:Hd; [exact Hd|].
      unfold kept_char. assert (PyStr.is_space PyStr.SPACE = true) as -> by reflexivity.
      now rewrite orb_true_r.
  - destruct text as [|c text]; [reflexivity|]. destruct nlp_model as [nlp|]; [|reflexivity].
    cbn [clean_text]. apply str_join_trimmed.
    eapply List.Forall_impl; [|apply Hlemmas]. intros lemma [Hne [Ht _]]. now split.
  - intros nlp -> Hne. destruct text as [|c text]; [contradiction|]. reflexivity.
  - exact Hlemmas.
  - intros doc. apply cleaned_tokens_filter.
  - unfold prepared_text. rewrite sub_whitespace. apply strip_collapse_words.
  - vm_compute. reflexivity.
Qed.

(** ** Storing the test cases *)

Section StoredCases.
Context {U : Unicode} {Sv : Services}.

Lemma test_case_loop_frame has_pdc use_ai n pdcs : forall i acc w,
  exists test_cases w',
    test_case_loop has_pdc use_ai n i pdcs acc w = (Return test_cases, w')
    /\ session_state w' = session_state w
    /\ (if use_ai
        then random_draws w' = random_draws w
             /\ (azure_calls w + length pdcs <= azure_calls w'
                 <= azure_calls w + 2 * length pdcs)%nat
        else azure_calls w' = azure_calls w
             /\ events w' = events w
             /\ random_draws w'
                = (random_draws w
                   + length (List.filter
                               (fun j => negb (PyStr.startswith has_pdc (py "Oui")
                                               && Nat.leb j n))
                               (seq i (length pdcs))))%nat).
Proof.
  induction pdcs as [|pdc pdcs IH]; intros i acc w.
  - exists acc, w. unfold test_case_loop, ret. split; [reflexivity|]. split; [reflexivity|].
    destruct use_ai; cbn [length seq List.filter]; repeat split; lia.
  - cbn [test_case_loop]. cbv zeta.
    destruct (create_test_case_frame pdc i
                (PyStr.startswith has_pdc (py "Oui") && Nat.leb i n) use_ai w)
      as [tc [w1 [Hrun [Hs1 Hf1]]]].
    erewrite bind_return by exact Hrun.
    destruct (IH (S i) (acc ++ [tc]) w1) as [tcs [w' [Hloop [Hs Hf]]]].
    exists tcs, w'. split; [exact Hloop|]. split; [congruence|].
    cbn [length seq List.filter].
    destruct use_ai.
    + destruct Hf1 as [Hd1 Ha1], Hf as [Hd Ha]. split; lia.
    + destruct Hf1 as [Ha1 [He1 Hd1]], Hf as [Ha [He Hd]].
      split; [congruence|]. split; [congruence|].
      destruct (PyStr.startswith has_pdc (py "Oui") && Nat.leb i n);
        cbn [negb length]; lia.
Qed.

Lemma filter_none {A} (f : A -> bool) xs :
  Forall (fun x => f x = false) xs -> List.filter f xs = [].
Proof.
  induction 1 as [|x xs Hx _ IH]; [reflexivity|]. cbn [List.filter]. now rewrite Hx.
Qed.

Lemma filter_all {A} (f : A -> bool) xs :
  Forall (fun x => f x = true) xs -> List.filter f xs = xs.
Proof.
  induction 1 as [|x xs Hx _ IH]; [reflexivity|]. cbn [List.filter]. now rewrite Hx, IH.
Qed.

Lemma generate_test_cases_stored (has_pdc : str) (use_ai_tests : bool)
    (pdc_list : list str) (w : World) :
  exists test_cases w',
    generate_test_cases has_pdc use_ai_tests pdc_list w = (Return test_cases, w')
    /\ session_state w' = <["test_cases"%string := VCases test_cases]> (session_state w)
    /\ List.map tc_ID test_cases = List.map ct_id (seq 1 (length pdc_list))
    /\ List.map tc_PDC test_cases = pdc_list
    /\ Forall (fun tc => tc_Type tc = type_of (PyStr.startswith has_pdc (py "Oui")))
              test_cases
    /\ (if use_ai_tests
        then random_draws w' = random_draws w
             /\ (azure_calls w + length pdc_list <= azure_calls w'
                 <= azure_calls w + 2 * length pdc_list)%nat
        else azure_calls w' = azure_calls w
             /\ events w' = events w
             /\ random_draws w'
                = (random_draws w
                   + if PyStr.startswith has_pdc (py "Oui") then 0 else length pdc_list)%nat).
Proof.
  unfold generate_test_cases. unfold bind at 1, session_set at 1.
  set (w0 := MkWorld _ _ _ _).
  destruct (test_case_loop_frame has_pdc use_ai_tests (length pdc_list) pdc_list 1 [] w0)
    as [tcs [w1 [Hloop [Hs Hf]]]].
  destruct (test_case_loop_returns has_pdc use_ai_tests (length pdc_list) pdc_list 1 [] w0)
    as [new [w1' [Hloop' [Hids [Hpdcs Htypes]]]]].
  rewrite Hloop in Hloop'. injection Hloop' as -> _.
  erewrite bind_return by exact Hloop.
  unfold bind, session_set, ret. eexists _, _. split; [reflexivity|].
  cbn [session_state events azure_calls random_draws app].
  split; [|split; [exact Hids|split; [exact Hpdcs|split]]].
  - rewrite Hs. unfold w0. cbn [session_state]. now rewrite insert_insert_eq.
  - apply List.Forall_forall. intros tc Htc.
    apply (in_map tc_Type) in Htc. rewrite Htypes in Htc.
    apply in_map_iff in Htc as [j [<- Hj]]. apply in_seq in Hj.
    replace (Nat.leb j (length pdc_list)) with true by (symmetry; apply Nat.leb_le; lia).
    now rewrite andb_true_r.
  - unfold w0 in Hf. cbn [session_state events azure_calls random_draws] in Hf.
    destruct use_ai_tests; [exact Hf|].
    destruct Hf as [Ha [He Hd]]. split; [exact Ha|]. split; [exact He|]. rewrite Hd.
    destruct (PyStr.startswith has_pdc (py "Oui")).
    + rewrite filter_none; [reflexivity|].
      eapply List.Forall_impl; [|apply (seq_all_le (length pdc_list))].
      intros j Hj. cbn beta in Hj. now rewrite Hj.
    + cbn [andb negb]. rewrite filter_all by (apply List.Forall_forall; reflexivity).
      now rewrite length_seq.
Qed.

(** The loop under the button "Générer les Cas de Test" (App.py, 609-614)
    returns. It replaces what the session holds under 'test_cases' by the
    list it built, one test case per control point, and stores nothing
    else. In the heuristic mode it runs neither of the two Azure functions
    and shows no message, and draws one random number per control point
    when the user has none to import and none at all otherwise; with the
    service it draws none, and per control point it runs the setup once and
    asks for one completion at most: the counter of the calls goes up by
    one or by two per control point. *)
Theorem generated_cases_are_stored (has_pdc : str) (use_ai_tests : bool)
    (pdc_list : list str) (w : World) :
  exists test_cases w',
    generate_test_cases has_pdc use_ai_tests pdc_list w = (Return test_cases, w')
    /\ session_state w' = <["test_cases"%string := VCases test_cases]> (session_state w)
    /\ length test_cases = length pdc_list
    /\ (if use_ai_tests
        then random_draws w' = random_draws w
             /\ (azure_calls w + length pdc_list <= azure_calls w'
                 <= azure_calls w + 2 * length pdc_list)%nat
        else azure_calls w' = azure_calls w
             /\ events w' = events w
             /\ random_draws w'
                = (random_draws w
                   + if PyStr.startswith has_pdc (py "Oui") then 0 else length pdc_list)%nat).
Proof.
  destruct (generate_test_cases_stored has_pdc use_ai_tests pdc_list w)
    as [test_cases [w' [Hrun [Hs [_ [Hpdcs [_ Hf]]]]]]].
  exists test_cases, w'. split; [exact Hrun|]. split; [exact Hs|]. split; [|exact Hf].
  rewrite <- (length_map tc_PDC test_cases). now rewrite Hpdcs.
Qed.

End StoredCases.

(** ** Answers of one line *)

Section Demands.
Context {U : Unicode}.
Variable ignorecase : bool.

Lemma run_demands l r : demands l r = true -> forall st k res,
  Re.run ignorecase r st k = Some res ->
  exists w c w' st1, reaches st (w ++ c :: w') st1
                     /\ Re.lit_matches ignorecase l c = true /\ k st1 = Some res.
Proof.
  induction r as [l'| |ls| | | | | |r1 IH1 r2 IH2|r1 IH1 r2 IH2|greedy r1 IH1|i r1 IH1];
    cbn [demands]; intros Hd st k res Hrun; try discriminate; cbn [Re.run] in Hrun.
  - apply N.eqb_eq in Hd as <-. apply one_inv in Hrun as [c [rest' [Hr [Hc Hk]]]].
    exists [], c, [], (Re.advance c rest' st).
    split; [now apply reaches_advance | now split].
  - apply orb_prop in Hd as [Hd|Hd].
    + apply (IH1 Hd) in Hrun as [w [c [w' [st1 [Hr1 [Hc Hrun]]]]]].
      apply run_reaches in Hrun as [w2 [st2 [Hr2 Hk]]].
      exists w, c, (w' ++ w2), st2. split; [|now split].
      replace (w ++ c :: w' ++ w2) with ((w ++ c :: w') ++ w2)
        by now rewrite <- app_assoc.
      eapply reaches_trans; eassumption.
    + apply run_reaches in Hrun as [w1 [st1 [Hr1 Hrun]]].
      apply (IH2 Hd) in Hrun as [w [c [w' [st2 [Hr2 [Hc Hk]]]]]].
      exists (w1 ++ w), c, w', st2. split; [|now split].
      rewrite <- app_assoc. eapply reaches_trans; eassumption.
  - apply andb_prop in Hd as [Hd1 Hd2].
    destruct (Re.run ignorecase r1 st k) as [x|] eqn:H1.
    + injection Hrun as <-. now apply (IH1 Hd1) in H1.
    + now apply (IH2 Hd2) in Hrun.
  - apply (IH1 Hd) in Hrun as [w [c [w' [st1 [[Hb Hr] [Hc Hk]]]]]].
    eexists w, c, w', _. split; [|split; [exact Hc | exact Hk]].
    split; [exact Hb | exact Hr].
Qed.

Lemma search_from_match r text fuel : forall st m,
  position_of text st ->
  Re.search_from ignorecase r text fuel st = Some m ->
  exists st0 st', position_of text st0 /\ Re.match_at ignorecase r st0 = Some st'.
Proof.
  induction fuel as [|fuel IH]; intros st m Hp Hs; cbn [Re.search_from] in Hs.
  - destruct (Re.match_at ignorecase r st) as [st'|] eqn:Hm; [eauto | discriminate].
  - destruct (Re.match_at ignorecase r st) as [st'|] eqn:Hm; [eauto|].
    destruct (Re.shift st) as [st1|] eqn:Hshift; [|discriminate].
    eapply IH; [|exact Hs]. eapply shift_position; eassumption.
Qed.

(** A pattern that demands a character finds nothing in a text without it. *)
Lemma search_without l r text :
  demands l r = true ->
  Forall (fun c => Re.lit_matches ignorecase l c = false) text ->
  Re.search ignorecase r text = None.
Proof.
  intros Hd Hnone. destruct (Re.search ignorecase r text) as [m|] eqn:Hs; [|reflexivity].
  unfold Re.search in Hs. apply search_from_match in Hs as [st0 [st' [Hp Hm]]];
    [|reflexivity].
  unfold Re.match_at in Hm.
  apply (run_demands l r Hd) in Hm as [w [c [w' [st1 [[_ Hr] [Hc _]]]]]].
  unfold position_of in Hp. rewrite Hr in Hp. rewrite <- Hp in Hnone.
  apply Forall_app in Hnone as [_ Hnone]. apply Forall_app in Hnone as [Hnone _].
  apply Forall_app in Hnone as [_ Hnone]. inversion Hnone as [|? ? Hc' _]; subst.
  congruence.
Qed.

End Demands.

(** The patterns of the description and of the steps end their lines with a
    newline. So when the answer of the service has no newline (no character
    that matches one when case is ignored), as an answer of one line, the
    test case keeps the control point as its description and the three
    standard steps, whatever the line says: a description that stands on
    the last line of an answer is not read. *)
Theorem one_line_answer_keeps_defaults {U : Unicode} {Sv : Services}
    (pdc : str) (index : nat) (is_manual : bool) (w : World) (content : str) :
  azure_connect (azure_calls w) = inr tt ->
  azure_complete (S (azure_calls w)) (test_case_prompt pdc) = inr content ->
  forallb (fun c => negb (uc_caseless c PyStr.NEWLINE)) content = true ->
  exists tc w',
    create_test_case pdc index is_manual true w = (Return tc, w')
    /\ tc_ID tc = ct_id index
    /\ tc_Description tc = pdc
    /\ tc_Etapes tc = default_steps pdc.
Proof.
  intros Hconnect Hanswer Hline.
  assert (Forall (fun c => Re.lit_matches true PyStr.NEWLINE c = false) (PyStr.strip content))
    as Hnone.
  { apply Forall_strip. apply List.Forall_forall. intros c Hc.
    rewrite forallb_forall in Hline. specialize (Hline c Hc).
    unfold Re.lit_matches. now apply negb_true_iff in Hline. }
  assert (demands PyStr.NEWLINE desc_pattern = true) as Hdesc by (vm_compute; reflexivity).
  assert (demands PyStr.NEWLINE steps_pattern = true) as Hsteps by (vm_compute; reflexivity).
  unfold create_test_case, setup_azure_openai, generate_with_azure_openai,
    st_error, next_azure_call, emit, bind, ret.
  cbv beta iota zeta delta [negb]. rewrite Hconnect. cbv beta iota zeta.
  cbn [azure_calls]. rewrite Hanswer. cbv beta iota zeta.
  destruct (truthy (Some (PyStr.strip content))) as [result|] eqn:Hres.
  - assert (result = PyStr.strip content) as ->
      by (destruct (PyStr.strip content); simpl in Hres; congruence).
    eexists _, _. split; [reflexivity|]. unfold parsed_case.
    cbn [tc_ID tc_Description tc_Etapes].
    rewrite (search_without true PyStr.NEWLINE desc_pattern _ Hdesc Hnone).
    rewrite (search_without true PyStr.NEWLINE steps_pattern _ Hsteps Hnone).
    split; [reflexivity|]. split; reflexivity.
  - eexists _, _. split; [reflexivity|]. split; [reflexivity|]. split; reflexivity.
Qed.

(** ** The properties at work *)

(** [generated_pdcs_ignore_service], at work: one rule, a service that
    would answer, and the box ticked. *)
Lemma generated_pdcs_ignore_service_witness :
  exists w',
    complete_pdcs (U := latin1) (Sv := answering (py "Contrôler le paiement."))
      (Np := series_log) (py "Non, générer des PDC automatiquement") false true 0x1.3333333333333p-1%float
      (MkWorld (<["rules"%string := VList [py "Le client doit payer la facture."]]> ∅)
               [] O O)
    = (Return tt, w')
    /\ azure_calls w' = O.
Proof.
  eexists. split.
  - apply (generated_pdcs_ignore_service (U := latin1)
             (Sv := answering (py "Contrôler le paiement.")) (Np := series_log)
             (py "Non, générer des PDC automatiquement") false true 0x1.3333333333333p-1%float
             [py "Le client doit payer la facture."]).
    + vm_compute. reflexivity.
    + cbn [session_state]. rewrite lookup_insert_ne by discriminate. apply lookup_empty.
    + cbn [session_state]. apply lookup_insert_eq.
  - reflexivity.
Defined.

(** [completion_without_pdc_raises], at work: a file was imported and no
    control point found in it. *)
Lemma completion_without_pdc_raises_witness :
  exists e,
    complete_pdcs (U := latin1) (Sv := offline) (Np := series_log)
      (py "Oui, j'ai des PDC existants") true false 0x1.3333333333333p-1%float
      (MkWorld (<["pdc_list"%string := VList []]>
                  (<["rules"%string := VList [py "Le client doit payer la facture."]]> ∅))
               [] O O)
    = (Raise e,
       MkWorld (<["pdc_list"%string := VList []]>
                  (<["rules"%string := VList [py "Le client doit payer la facture."]]> ∅))
               [] O O).
Proof.
  apply (completion_without_pdc_raises (U := latin1) (Sv := offline) (Np := series_log)
           (py "Oui, j'ai des PDC existants") false 0x1.3333333333333p-1%float
           [py "Le client doit payer la facture."]).
  - vm_compute. reflexivity.
  - cbn [session_state]. rewrite lookup_insert_ne by discriminate. apply lookup_insert_eq.
  - cbn [session_state]. apply lookup_insert_eq.
Defined.

(** [completion_appends_unmatched], at work: two rules, two imported
    control points and the threshold 0.6 of the slider. The first rule
    scores about 0.80 against the first control point and gets none; the
    second scores about 0.07 and 0.0, and its control point is appended. *)
Lemma completion_appends_unmatched_witness :
  complete_pdcs (U := latin1) (Sv := offline) (Np := series_log)
    (py "Oui, j'ai des PDC existants") true false 0x1.3333333333333p-1%float
    (MkWorld (<["pdc_list"%string
                := VList [py "Vérifier que le client doit payer la facture.";
                          py "Contrôler chaque paiement reçu."]]>
                (<["rules"%string
                   := VList [py "Le client doit payer la facture.";
                             py "Le compte est bloqué après trois essais."]]> ∅))
             [] O O)
  = (Return tt,
     MkWorld (<["pdc_list"%string
                := VList [py "Vérifier que le client doit payer la facture.";
                          py "Contrôler chaque paiement reçu.";
                          py "Vérifier que Le compte est bloqué après trois essais."]]>
                (<["pdc_list"%string
                   := VList [py "Vérifier que le client doit payer la facture.";
                             py "Contrôler chaque paiement reçu."]]>
                   (<["rules"%string
                      := VList [py "Le client doit payer la facture.";
                                py "Le compte est bloqué après trois essais."]]> ∅)))
             [no_model_error] O O).
Proof.
  assert (compare_rules_pdc (U := latin1) (Np := series_log)
            [py "Le client doit payer la facture.";
             py "Le compte est bloqué après trois essais."]
            [py "Vérifier que le client doit payer la facture.";
             py "Contrôler chaque paiement reçu."]
          = Return [[0x1.98c28602f367ap-1%float; 0%float];
                    [0x1.18b6a69d460aap-4%float; 0%float]]) as Hscores
    by (vm_compute; reflexivity).
  rewrite (completion_appends_unmatched (U := latin1) (Sv := offline) (Np := series_log)
             (py "Oui, j'ai des PDC existants") false 0x1.3333333333333p-1%float
             [py "Le client doit payer la facture.";
              py "Le compte est bloqué après trois essais."]
             [py "Vérifier que le client doit payer la facture.";
              py "Contrôler chaque paiement reçu."]
             [[0x1.98c28602f367ap-1%float; 0%float];
              [0x1.18b6a69d460aap-4%float; 0%float]]).
  - vm_compute. reflexivity.
  - vm_compute. reflexivity.
  - cbn [session_state]. rewrite !lookup_insert_ne by discriminate. apply lookup_empty.
  - cbn [session_state]. rewrite lookup_insert_ne by discriminate. apply lookup_insert_eq.
  - cbn [session_state]. apply lookup_insert_eq.
  - exact Hscores.
Defined.

(** [unreadable_pdc_file_raises], at work: a TXT file. *)
Lemma unreadable_pdc_file_raises_witness :
  exists msg w',
    import_pdcs (U := latin1) (Rd := plain_reader)
      (MkUpload (py "text/plain") (py "Vérifier que le compte est actif."))
      new_session
    = (Raise (TypeError msg), w').
Proof.
  destruct (unreadable_pdc_file_raises (U := latin1) (Rd := plain_reader)
              (MkUpload (py "text/plain") (py "Vérifier que le compte est actif."))
              new_session) as [msg Hrun].
  - unfold readable. cbn [upload_type]. intros [H|H]; vm_compute in H; discriminate H.
  - eexists _, _. exact Hrun.
Defined.

(** [session_stays_well_stored], at work: the text of the session holds
    the control character U+0001, and the pipeline cuts it at whitespace.
    The sentence is found as a rule and stored; then the document cannot be
    built. *)
Lemma session_stays_well_stored_witness :
  tab4_extract (U := latin1) (Sv := offline) (Dx := xml_docx) (Some tagless) false
    (MkWorld (<["text"%string
                := VStr (py "Le client doit payer" ++ [1] ++ py " la facture.")]> ∅)
             [] O O)
  = (Raise (ValueError (py "All strings must be XML compatible: Unicode or ASCII, no NULL bytes or control characters")),
     MkWorld (<["rules"%string
                := VList [py "Le client doit payer" ++ [1] ++ py " la facture."]]>
                (<["text"%string
                   := VStr (py "Le client doit payer" ++ [1] ++ py " la facture.")]> ∅))
             [] O O)
  /\ exists outcome w',
       tab4_extract (U := latin1) (Sv := offline) (Dx := xml_docx) (Some tagless) false
         (MkWorld (<["text"%string
                     := VStr (py "Le client doit payer" ++ [1] ++ py " la facture.")]> ∅)
                  [] O O)
       = (outcome, w')
       /\ well_stored (U := latin1) (session_state w').
Proof.
  split; [vm_compute; reflexivity|].
  destruct (session_stays_well_stored (U := latin1) (Sv := offline) (Rd := plain_reader)
              (Dx := xml_docx)
              (MkUpload (py "application/pdf") (py "Le système doit archiver la demande."))
              (Some tagless) false
              (MkWorld (<["text"%string
                          := VStr (py "Le client doit payer" ++ [1] ++ py " la facture.")]> ∅)
                       [] O O))
    as [_ [[outcome [w' [Hrun [Hstored _]]]] _]].
  - cbn [session_state]. split; intros v Hv.
    + rewrite lookup_insert_eq in Hv. injection Hv as <-.
      eexists. split; [reflexivity|]. vm_compute. reflexivity.
    + rewrite lookup_insert_ne in Hv by discriminate. rewrite lookup_empty in Hv.
      discriminate Hv.
  - exists outcome, w'. split; [exact Hrun | exact Hstored].
Defined.

(** [one_line_answer_keeps_defaults], at work: the answer is a description
    and nothing else. *)
Lemma one_line_answer_keeps_defaults_witness :
  exists tc w',
    create_test_case (U := latin1) (Sv := answering (py "Description: Tester le paiement"))
      (py "Vérifier que le compte est actif.") 1 false true new_session = (Return tc, w')
    /\ tc_ID tc = ct_id 1
    /\ tc_Description tc = py "Vérifier que le compte est actif."
    /\ tc_Etapes tc = default_steps (py "Vérifier que le compte est actif.").
Proof.
  apply (one_line_answer_keeps_defaults (U := latin1)
           (Sv := answering (py "Description: Tester le paiement"))
           (py "Vérifier que le compte est actif.") 1 false new_session
           (py "Description: Tester le paiement")).
  - reflexivity.
  - reflexivity.
  - vm_compute. reflexivity.
Defined.

(** ** Words counted from a cleaned text *)

Lemma split_go_word w : forall cur rest,
  forallb (fun c => negb (PyStr.is_space c)) w = true ->
  PyStr.split_go cur (w ++ rest) = PyStr.split_go (rev w ++ cur) rest.
Proof.
  induction w as [|c w IH]; intros cur rest Hw; [reflexivity|].
  cbn [forallb] in Hw. apply andb_prop in Hw as [Hc Hw]. apply negb_true_iff in Hc.
  cbn [app PyStr.split_go rev]. rewrite Hc, IH by exact Hw. now rewrite <- app_assoc.
Qed.

(** Joining words by spaces and splitting at whitespace gives the words
    back, when no word is empty or holds whitespace. *)
Lemma split_join_words (ws : list str) :
  Forall (fun w => w <> [] /\ forallb (fun c => negb (PyStr.is_space c)) w = true) ws ->
  PyStr.split (str_join (py " ") ws) = ws.
Proof.
  intros Hws. destruct ws as [|w ws]; [reflexivity|]. unfold PyStr.split. cbn [str_join].
  revert w Hws. induction ws as [|w' ws IH]; intros w Hws.
  - inversion Hws as [|? ? [Hne Hw] _]; subst. cbn [flat_map].
    rewrite split_go_word by exact Hw. cbn [PyStr.split_go]. rewrite app_nil_r.
    destruct (rev w) eqn:Hr.
    + apply (f_equal (@rev N)) in Hr. rewrite rev_involutive in Hr. contradiction.
    + rewrite <- Hr. now rewrite rev_involutive.
  - inversion Hws as [|? ? [Hne Hw] Hrest]; subst. cbn [flat_map].
    rewrite split_go_word by exact Hw. rewrite py_space, <- !app_assoc.
    cbn [app PyStr.split_go].
    assert (PyStr.is_space PyStr.SPACE = true) as -> by reflexivity.
    rewrite app_nil_r. destruct (rev w) eqn:Hr.
    + apply (f_equal (@rev N)) in Hr. rewrite rev_involutive in Hr. contradiction.
    + rewrite <- Hr, rev_involutive. f_equal. apply IH. exact Hrest.
Qed.

(** The words [calculate_frequencies] counts in a cleaned text are the
    lemmas [clean_text] kept, in their order, those of more than two
    characters, when no lemma holds whitespace: splitting undoes the
    joining. (A lemma with a blank inside is counted as several words.) *)
Theorem counted_words_are_lemmas {U : Unicode} (text : str) (nlp : Language)
    (min_word_length : nat) :
  text <> [] ->
  forallb (fun lemma => forallb (fun c => negb (PyStr.is_space c)) lemma)
          (cleaned_tokens min_word_length (nlp (prepared_text text))) = true ->
  PyStr.split (clean_text text (Some nlp) min_word_length)
  = cleaned_tokens min_word_length (nlp (prepared_text text))
  /\ counted_words (clean_text text (Some nlp) min_word_length)
     = List.filter (fun word => Nat.ltb 2 (length word))
                   (cleaned_tokens min_word_length (nlp (prepared_text text))).
Proof.
  intros Hne Hwords.
  assert (PyStr.split (clean_text text (Some nlp) min_word_length)
          = cleaned_tokens min_word_length (nlp (prepared_text text))) as Hsplit.
  { destruct text as [|c text]; [contradiction|]. cbn [clean_text].
    apply split_join_words. apply List.Forall_forall. intros lemma Hin.
    rewrite forallb_forall in Hwords. split; [|now apply Hwords].
    apply in_flat_map in Hin as [token [_ Hin]].
    destruct (skipped min_word_length token); [destruct Hin|]. cbv zeta in Hin.
    destruct (PyStr.strip (tok_lemma token)); [destruct Hin|].
    destruct Hin as [<-|[]]. discriminate. }
  split; [exact Hsplit|]. unfold counted_words. now rewrite Hsplit.
Qed.

(** [counted_words_are_lemmas], at work: a pipeline that cuts at whitespace. *)
Lemma counted_words_are_lemmas_witness :
  PyStr.split (clean_text (U := latin1) (py "Le client doit payer la facture.")
                 (Some tagless) 3)
  = cleaned_tokens 3 (tagless (prepared_text (U := latin1)
                                 (py "Le client doit payer la facture.")))
  /\ counted_words (clean_text (U := latin1) (py "Le client doit payer la facture.")
                      (Some tagless) 3)
     = List.filter (fun word => Nat.ltb 2 (length word))
         (cleaned_tokens 3 (tagless (prepared_text (U := latin1)
                                       (py "Le client doit payer la facture.")))).
Proof.
  apply (counted_words_are_lemmas (U := latin1) (py "Le client doit payer la facture.")
           tagless 3).
  - vm_compute. discriminate.
  - vm_compute. reflexivity.
Defined.
